(** * excalimath: adding SVG glyphs to a font

    A shallow embedding of [main.py] and the properties of its transform
    calculator, its viewBox scanner and its batch driver.

    Conventions of the embedding:
    - a Python [int] is a [Z]; a Python [float] is a binary64 value, the
      kernel's primitive [float], so every arithmetic step rounds exactly as
      the interpreter does;
    - a Python exception is a value of [exn], and code that may raise
      returns a [result];
    - text ([str]) is a [string] whose characters are code points below 256;
    - the font library, the file system and the string-to-number builtins
      are collaborators, gathered in the class [Externals];
    - the output file is taken to be writable: [font.save] raises only
      where the library cannot compile the font, and writes nothing
      then. *)

From Stdlib Require Import ZArith Floats Uint63 Ascii String List Bool Lia.
From stdpp Require Import base option list strings gmap.

#[local] Open Scope Z_scope.
#[local] Set Warnings "-inexact-float".

(** ** Exceptions and results *)

Inductive exn : Type :=
| ValueError (msg : string)
| ZeroDivisionError
| OverflowError
| KeyError (key : string)
| AttributeError (name : string)
| LibraryError (msg : string).

Inductive result (A : Type) : Type :=
| Ok (a : A)
| Raise (e : exn).

Arguments Ok {A} a.
Arguments Raise {A} e.

#[global] Instance result_ret : MRet result := fun A a => Ok a.

#[global] Instance result_bind : MBind result := fun A B k r =>
  match r with
  | Ok a => k a
  | Raise e => Raise e
  end.

(** ** Python numbers *)

Module Py.

(** [float(z)] for an int [z], as the interpreter does it when an int
    meets a float in an arithmetic operation: the nearest binary64 value,
    [OverflowError] when that would be infinite.  Below [2^63] the
    conversion is the hardware one. *)
Definition float_of_int (z : Z) : result float :=
  if Z.abs z <? 2 ^ 63 then
    Ok (if z <? 0 then (- of_uint63 (Uint63.of_Z (- z)))%float
        else of_uint63 (Uint63.of_Z z))
  else
    match binary_normalize prec emax z 0 false with
    | S754_infinity _ => Raise OverflowError
    | sf => Ok (SF2Prim sf)
    end.

(** [a / b] on floats: [ZeroDivisionError] on a zero divisor (of either
    sign), the IEEE quotient otherwise. *)
Definition float_div (a b : float) : result float :=
  if (b =? 0)%float then Raise ZeroDivisionError else Ok (a / b)%float.

(** [a / b] on ints (true division): the correctly rounded quotient.
    Operands below [2^53] are converted and divided in hardware, as the
    interpreter's fast path does; larger ones are divided exactly and
    rounded once. *)
Definition int_true_div (a b : Z) : result float :=
  if b =? 0 then Raise ZeroDivisionError
  else if (Z.abs a <? 2 ^ 53) && (Z.abs b <? 2 ^ 53) then
    x ← float_of_int a; y ← float_of_int b; Ok (x / y)%float
  else
    let '(q, e, l) := SFdiv_core_binary prec emax (Z.abs a) 0 (Z.abs b) 0 in
    match binary_round_aux prec emax (xorb (a <? 0) (b <? 0)) q e l with
    | S754_infinity _ => Raise OverflowError
    | sf => Ok (SF2Prim sf)
    end.

(** [int(x)] for a float [x]: truncation toward zero. *)
Definition int_of_float (x : float) : result Z :=
  match Prim2SF x with
  | S754_zero _ => Ok 0
  | S754_finite s m e => Ok (cond_Zopp s (Z.shiftl (Z.pos m) e))
  | S754_infinity _ => Raise OverflowError
  | S754_nan => Raise (ValueError "cannot convert float NaN to integer")
  end.

(** [round(x)] for a float [x]: the nearest integer, ties to even. *)
Definition round (x : float) : result Z :=
  match Prim2SF x with
  | S754_zero _ => Ok 0
  | S754_finite s m e =>
      if 0 <=? e then Ok (cond_Zopp s (Z.shiftl (Z.pos m) e))
      else
        let q := Z.shiftr (Z.pos m) (- e) in
        let r := Z.pos m - Z.shiftl q (- e) in
        let half := Z.shiftl 1 (- e - 1) in
        let up := (half <? r) || ((half =? r) && Z.odd q) in
        Ok (cond_Zopp s (if up then q + 1 else q))
  | S754_infinity _ => Raise OverflowError
  | S754_nan => Raise (ValueError "cannot convert float NaN to integer")
  end.

(** [min(a, b)]: the first argument unless the second is strictly less. *)
Definition min (a b : float) : float :=
  if (b <? a)%float then b else a.

(** A number as a caller may pass it: an int or a float. *)
Inductive number : Type :=
| Int (z : Z)
| Float (f : float).

(** The float operand a number becomes next to a float. *)
Definition as_float (n : number) : result float :=
  match n with
  | Int z => float_of_int z
  | Float f => Ok f
  end.

(** [str.isspace] on a code point below 256. *)
Definition isspace (c : ascii) : bool :=
  let n := Z.of_nat (nat_of_ascii c) in
  ((9 <=? n) && (n <=? 13)) || ((28 <=? n) && (n <=? 32))
  || (n =? 133) || (n =? 160).

(** [s.split()]: the maximal runs of non-space characters.  [cur] holds
    the run being read, reversed. *)
Fixpoint split_from (cur : list ascii) (s : string) : list string :=
  let flush rest :=
    match cur with
    | [] => rest
    | _ => string_of_list_ascii (rev cur) :: rest
    end in
  match s with
  | EmptyString => flush []
  | String c s' =>
      if isspace c then flush (split_from [] s')
      else split_from (c :: cur) s'
  end.

Definition split (s : string) : list string := split_from [] s.

End Py.

(** ** Regular expressions

    The three patterns of the program are sequences of literal characters,
    single characters of a class, and greedy repetitions [[...]+] of a character class, one of them
    captured.  [Re.match_here] is the backtracking matcher for such
    sequences, [Re.search] is [re.search] and [Re.sub_empty] is [re.sub]
    with the empty replacement. *)

Module Re.

Inductive item : Type :=
| Lit (c : ascii)
| One (cls : ascii -> bool)
| Plus (capture : bool) (cls : ascii -> bool).

(** A match: the text of the captured group and how many characters the
    whole match spans. *)
Record hit : Type := { group1 : string; span : nat }.

Definition lit (s : string) : list item := map Lit (list_ascii_of_string s).

(** The rest of a repetition after its first character: as many more
    characters of the class as possible, one fewer each time the
    continuation [k] fails. *)
Fixpoint more (capture : bool) (cls : ascii -> bool)
    (k : string -> option hit) (s : string) : option hit :=
  let stop := k s in
  match s with
  | String c s' =>
      if cls c then
        match more capture cls k s' with
        | Some h =>
            Some {| group1 := if capture then String c (group1 h) else group1 h;
                    span := S (span h) |}
        | None => stop
        end
      else stop
  | EmptyString => stop
  end.

Fixpoint match_here (its : list item) : string -> option hit :=
  match its with
  | [] => fun _ => Some {| group1 := ""; span := 0 |}
  | Lit c :: rest =>
      fun s =>
        match s with
        | String c' s' =>
            if Ascii.eqb c c' then
              h ← match_here rest s';
              Some {| group1 := group1 h; span := S (span h) |}
            else None
        | EmptyString => None
        end
  | One cls :: rest =>
      fun s =>
        match s with
        | String c s' =>
            if cls c then
              h ← match_here rest s';
              Some {| group1 := group1 h; span := S (span h) |}
            else None
        | EmptyString => None
        end
  | Plus capture cls :: rest =>
      fun s =>
        match s with
        | String c s' =>
            if cls c then
              h ← more capture cls (match_here rest) s';
              Some {| group1 := if capture then String c (group1 h) else group1 h;
                      span := S (span h) |}
            else None
        | EmptyString => None
        end
  end.

(** [re.search]: the match at the leftmost position that has one. *)
Fixpoint search (its : list item) (s : string) : option hit :=
  match match_here its s with
  | Some h => Some h
  | None =>
      match s with
      | EmptyString => None
      | String _ s' => search its s'
      end
  end.

(** [re.sub(pattern, '', s)]: every leftmost non-overlapping match is
    dropped.  [skip] counts the characters of the current match still to
    drop. *)
Fixpoint sub_from (its : list item) (skip : nat) (s : string) : string :=
  match s with
  | EmptyString => EmptyString
  | String c s' =>
      match skip with
      | S n => sub_from its n s'
      | O =>
          match match_here its s with
          | Some {| span := S n |} => sub_from its n s'
          | _ => String c (sub_from its 0 s')
          end
      end
  end.

Definition sub_empty (its : list item) (s : string) : string :=
  sub_from its 0 s.

End Re.

(** ** The program's data *)

(** The affine transform [Transform(xx, xy, yx, yy, dx, dy)].  The program
    builds it from four floats and the two int literals [0]. *)
Record Transform : Type := {
  xx : float;
  xy : Z;
  yx : Z;
  yy : float;
  dx : float;
  dy : float
}.

Definition bytes : Type := list Byte.byte.

(** One Unicode or non-Unicode subtable of the character map. *)
Record CmapSubtable : Type := {
  isUnicode : bool;
  cmap : gmap Z string
}.

(** The font container, as far as the program reads and writes it. A table
    that may be missing is an [option].  The outline table carries, next to
    its glyphs, its own [glyphOrder] attribute: a table that the library
    read from a font file has it (it is the glyph order of the font), a
    table made by [newTable] has not, which [glyf_has_glyphOrder] records. *)
Record TTFont (Glyph : Type) : Type := {
  unitsPerEm : Z;
  glyf : option (gmap string Glyph);
  glyf_has_glyphOrder : bool;
  hmtx : option (gmap string (Z * Z));
  cmap_tables : option (list CmapSubtable);
  sxHeight : option Z;
  glyphOrder : list string;
  numGlyphs : option Z;
  flavor : option string;
  recalcBBoxes : bool
}.

Arguments unitsPerEm {Glyph} _.
Arguments glyf {Glyph} _.
Arguments glyf_has_glyphOrder {Glyph} _.
Arguments hmtx {Glyph} _.
Arguments cmap_tables {Glyph} _.
Arguments sxHeight {Glyph} _.
Arguments glyphOrder {Glyph} _.
Arguments numGlyphs {Glyph} _.
Arguments flavor {Glyph} _.
Arguments recalcBBoxes {Glyph} _.

(** One entry of [svg_data_list]. *)
Record Request : Type := {
  svg_file_path : string;
  glyph_name : string;
  unicode_hex : string;
  advance_width : Z;
  special_x : Py.number
}.

(** The collaborators: builtins whose text grammar is the interpreter's,
    the file system, and the font library's SVG reader and glyph pen. *)
Class Externals : Type := {
  Glyph : Type;
  SVGPath : Type;
  (** [float(s)]; [None] stands for its [ValueError]. *)
  float_of_str : string -> option float;
  (** [int(s, 16)]; [None] stands for its [ValueError]. *)
  int_of_hex : string -> option Z;
  (** [os.path.exists]. *)
  path_exists : string -> bool;
  (** [open(path, 'rb')] and [read]. *)
  read_binary : string -> result bytes;
  (** [data.decode('utf-8', errors='ignore')]. *)
  decode_utf8 : bytes -> string;
  (** [text.encode('utf-8')]. *)
  encode_utf8 : string -> bytes;
  (** [SVGPath.fromstring(data, transform=transform)]. *)
  SVGPath_fromstring : bytes -> Transform -> result SVGPath;
  (** [TTGlyphPen(font.getGlyphSet())], [svg_path.draw(pen)] and
      [pen.glyph()]. *)
  draw_glyph : TTFont Glyph -> SVGPath -> result Glyph;
  (** The glyph has a [coordinates] attribute of positive length. *)
  has_points : Glyph -> bool;
  (** The compilation of the tables of the font, the part of
      [font.save] that the font decides: it raises on a font the library
      cannot write. *)
  font_compile : TTFont Glyph -> result unit
}.

Definition Font `{Externals} : Type := TTFont Glyph.

(** ** The SVG preprocessor *)

Definition dquote : ascii := "034"%char.
Definition squote : ascii := "'"%char.
Definition is_quote (c : ascii) : bool := Ascii.eqb c dquote || Ascii.eqb c squote.
Definition other_than (d : ascii) (c : ascii) : bool := negb (Ascii.eqb c d).

(** The pattern [<\?xml[^>]+\?>]. *)
Definition xml_declaration_re : list Re.item :=
  Re.lit "<?xml" ++ [Re.Plus false (other_than ">")] ++ Re.lit "?>".

(** The pattern [encoding=Q[^Q]+Q], where Q is the double quote. *)
Definition encoding_re : list Re.item :=
  Re.lit "encoding=" ++ [Re.Lit dquote; Re.Plus false (other_than dquote); Re.Lit dquote].

(** The pattern [viewBox=[QA]([^QA]+)[QA]], where Q is the double quote and
    A the apostrophe. *)
Definition viewBox_re : list Re.item :=
  Re.lit "viewBox=" ++
  [Re.One is_quote; Re.Plus true (fun c => negb (is_quote c)); Re.One is_quote].

Definition clean_svg_content (svg_content : string) : string :=
  let svg_content := Re.sub_empty xml_declaration_re svg_content in
  let svg_content := Re.sub_empty encoding_re svg_content in
  svg_content.

Section Transform_calculator.

Context `{Externals}.

(** [[float(n) for n in text.split()]], [None] when a [float] raises. *)
Definition parse_floats (text : string) : option (list float) :=
  mapM float_of_str (Py.split text).

Definition get_svg_viewbox (svg_content : string) : option (list float) :=
  match Re.search viewBox_re svg_content with
  | Some viewbox_match =>
      match parse_floats (Re.group1 viewbox_match) with
      | Some viewbox => Some viewbox
      | None => None
      end
  | None => None
  end.

Definition calculate_transform (svg_content : string) (units_per_em : Z)
    (advance_width : Z) (special_x : Py.number) : result Transform :=
  let viewbox := get_svg_viewbox svg_content in
  match viewbox with
  | Some ((_ :: _) as viewbox) =>
      match viewbox with
      | [x; y; width; height] =>
          em ← Py.float_of_int units_per_em;
          by_width ← Py.float_div em width;
          by_height ← Py.float_div em height;
          let scale_factor := (Py.min by_width by_height * 0.7)%float in
          let advance_width :=
            if advance_width =? 0 then units_per_em else advance_width in
          advance ← Py.float_of_int advance_width;
          offset ← Py.as_float special_x;
          let translate_x := ((advance - width) / 2 - x + offset)%float in
          let translate_x := (translate_x * scale_factor)%float in
          let math_axis := (em * 0.3)%float in
          let svg_center_y := (y + height / 2)%float in
          let translate_y := (math_axis - svg_center_y * (- scale_factor))%float in
          Ok {| xx := scale_factor; xy := 0; yx := 0; yy := (- scale_factor)%float;
                dx := translate_x; dy := translate_y |}
      | _ => Raise (ValueError "wrong number of values to unpack")
      end
  | _ =>
      em ← Py.float_of_int units_per_em;
      let scale := (0.7 * em / 1000)%float in
      translate_x ← Py.int_true_div (advance_width - 700) 2;
      let translate_y := (em * 0.45)%float in
      Ok {| xx := scale; xy := 0; yx := 0; yy := (- scale)%float;
            dx := translate_x; dy := translate_y |}
  end.

End Transform_calculator.

(** ** The batch driver *)

(** What the program prints, line by line. *)
Inductive message : Type :=
| FontUnitsPerEm (units_per_em : Z)
| Processing (svg_file_path glyph_name unicode_hex : string)
| FileNotFound (svg_file_path : string)
| UsingTransform (transform : Transform)
| ErrorProcessing (e : exn)
| NoPointsWarning (svg_file_path : string)
| AddedGlyph (glyph_name : string) (advance_width : Z)
| FontSaved (output_font_path : string).

Section Driver.

Context `{Externals}.

(** The state a run threads: the font object in memory, the lines printed
    so far and the files [font.save] has written. *)
Record State : Type := {
  font : Font;
  stdout : list message;
  saved : list (string * Font)
}.

Definition M (A : Type) : Type := State -> State * result A.

#[export] Instance M_ret : MRet M := fun A a s => (s, Ok a).

#[export] Instance M_bind : MBind M := fun A B k m s =>
  match m s with
  | (s', Ok a) => k a s'
  | (s', Raise e) => (s', Raise e)
  end.

Definition lift {A : Type} (r : result A) : M A := fun s => (s, r).

Definition raise {A : Type} (e : exn) : M A := lift (Raise e).

Definition print (line : message) : M unit := fun s =>
  ({| font := font s; stdout := stdout s ++ [line]; saved := saved s |}, Ok tt).

Definition get_font : M Font := fun s => (s, Ok (font s)).

Definition set_font (f : Font) : M unit := fun s =>
  ({| font := f; stdout := stdout s; saved := saved s |}, Ok tt).

(** [try: body except Exception as e: handler e]: what [body] printed or
    stored before it raised stays. *)
Definition try_except {A : Type} (body : M A) (handler : exn -> M A) : M A :=
  fun s =>
    match body s with
    | (s', Raise e) => handler e s'
    | done => done
    end.

(** [for x in xs: body x], where [body] ends early for [continue]. *)
Fixpoint for_each {A : Type} (body : A -> M unit) (xs : list A) : M unit :=
  match xs with
  | [] => mret tt
  | x :: xs' => body x ;; for_each body xs'
  end.

(** *** Writes to the font object *)

Definition with_glyf (f : Font) (t : option (gmap string Glyph)) : Font :=
  {| unitsPerEm := unitsPerEm f; glyf := t;
     glyf_has_glyphOrder := glyf_has_glyphOrder f; hmtx := hmtx f;
     cmap_tables := cmap_tables f; sxHeight := sxHeight f;
     glyphOrder := glyphOrder f; numGlyphs := numGlyphs f;
     flavor := flavor f; recalcBBoxes := recalcBBoxes f |}.

(** [font['glyf'] = newTable('glyf')] and [font['glyf'].glyphs = {}]: an
    empty outline table, which has no [glyphOrder]. *)
Definition newTable_glyf (f : Font) : Font :=
  {| unitsPerEm := unitsPerEm f; glyf := Some ∅;
     glyf_has_glyphOrder := false; hmtx := hmtx f;
     cmap_tables := cmap_tables f; sxHeight := sxHeight f;
     glyphOrder := glyphOrder f; numGlyphs := numGlyphs f;
     flavor := flavor f; recalcBBoxes := recalcBBoxes f |}.

Definition with_hmtx (f : Font) (t : option (gmap string (Z * Z))) : Font :=
  {| unitsPerEm := unitsPerEm f; glyf := glyf f;
     glyf_has_glyphOrder := glyf_has_glyphOrder f; hmtx := t;
     cmap_tables := cmap_tables f; sxHeight := sxHeight f;
     glyphOrder := glyphOrder f; numGlyphs := numGlyphs f;
     flavor := flavor f; recalcBBoxes := recalcBBoxes f |}.

Definition with_cmap_tables (f : Font) (t : option (list CmapSubtable)) : Font :=
  {| unitsPerEm := unitsPerEm f; glyf := glyf f;
     glyf_has_glyphOrder := glyf_has_glyphOrder f; hmtx := hmtx f;
     cmap_tables := t; sxHeight := sxHeight f;
     glyphOrder := glyphOrder f; numGlyphs := numGlyphs f;
     flavor := flavor f; recalcBBoxes := recalcBBoxes f |}.

Definition setGlyphOrder (f : Font) (order : list string) : Font :=
  {| unitsPerEm := unitsPerEm f; glyf := glyf f;
     glyf_has_glyphOrder := glyf_has_glyphOrder f; hmtx := hmtx f;
     cmap_tables := cmap_tables f; sxHeight := sxHeight f;
     glyphOrder := order; numGlyphs := numGlyphs f;
     flavor := flavor f; recalcBBoxes := recalcBBoxes f |}.

Definition with_numGlyphs (f : Font) (n : option Z) : Font :=
  {| unitsPerEm := unitsPerEm f; glyf := glyf f;
     glyf_has_glyphOrder := glyf_has_glyphOrder f; hmtx := hmtx f;
     cmap_tables := cmap_tables f; sxHeight := sxHeight f;
     glyphOrder := glyphOrder f; numGlyphs := n;
     flavor := flavor f; recalcBBoxes := recalcBBoxes f |}.

Definition with_flavor (f : Font) (fl : option string) : Font :=
  {| unitsPerEm := unitsPerEm f; glyf := glyf f;
     glyf_has_glyphOrder := glyf_has_glyphOrder f; hmtx := hmtx f;
     cmap_tables := cmap_tables f; sxHeight := sxHeight f;
     glyphOrder := glyphOrder f; numGlyphs := numGlyphs f;
     flavor := fl; recalcBBoxes := recalcBBoxes f |}.

Definition with_recalcBBoxes (f : Font) (b : bool) : Font :=
  {| unitsPerEm := unitsPerEm f; glyf := glyf f;
     glyf_has_glyphOrder := glyf_has_glyphOrder f; hmtx := hmtx f;
     cmap_tables := cmap_tables f; sxHeight := sxHeight f;
     glyphOrder := glyphOrder f; numGlyphs := numGlyphs f;
     flavor := flavor f; recalcBBoxes := b |}.

(** [font[tag]] raises [KeyError] on a missing table. *)
Definition table {T : Type} (tag : string) (t : option T) : M T :=
  match t with
  | Some v => mret v
  | None => raise (KeyError tag)
  end.

(** [font['glyf'][glyph_name] = glyph]: the entry of the outline table is
    set, overwriting one of the same name, and then the table looks the
    name up in its [glyphOrder], which is an [AttributeError] on a table
    made by [newTable].  On a table read from a font file that list is
    the glyph order of the font, and the table appends a name it does not
    find; the lines after the write append the same name under the same
    test, so the append is written once, there. *)
Definition glyf_setitem (glyph_name : string) (glyph : Glyph) : M unit :=
  f ← get_font;
  glyphs ← table "glyf" (glyf f);
  set_font (with_glyf f (Some (<[glyph_name := glyph]> glyphs))) ;;
  if glyf_has_glyphOrder f then mret tt
  else raise (AttributeError "glyphOrder").

(** [font['hmtx'][glyph_name] = metrics]: the entry of the metrics table is
    set, overwriting one of the same name. *)
Definition hmtx_setitem (glyph_name : string) (metrics : Z * Z) : M unit :=
  f ← get_font;
  entries ← table "hmtx" (hmtx f);
  set_font (with_hmtx f (Some (<[glyph_name := metrics]> entries))).

(** [table.cmap[unicode_int] = glyph_name] in a subtable. *)
Definition cmap_setitem (unicode_int : Z) (glyph_name : string)
    (t : CmapSubtable) : CmapSubtable :=
  {| isUnicode := isUnicode t; cmap := <[unicode_int := glyph_name]> (cmap t) |}.

(** [for table in cmap_tables: table.cmap[unicode_int] = glyph_name]: the
    list [cmap_tables] holds the Unicode subtables of the font itself, so
    the font's own subtables change. *)
Definition cmap_update (unicode_int : Z) (glyph_name : string) : M unit :=
  f ← get_font;
  tables ← table "cmap" (cmap_tables f);
  set_font (with_cmap_tables f (Some (
    map (fun t => if isUnicode t then cmap_setitem unicode_int glyph_name t else t)
        tables))).

Definition in_order (glyph_name : string) (order : list string) : bool :=
  bool_decide (glyph_name ∈ order).

(** *** The body of the loop, for one request

    The body is written in its two halves: [outline_of_request] is the
    part up to [glyph = pen.glyph()], which either leaves the loop body
    early ([continue], here [None]) or yields the advance width in force
    and the outline; [insert_glyph] is the rest, the writes to the font. *)

Definition outline_of_request (units_per_em : Z) (r : Request) : M (option (Z * Glyph)) :=
  let svg_file_path := svg_file_path r in
  let glyph_name := glyph_name r in
  let unicode_hex := unicode_hex r in
  let advance_width := advance_width r in
  let special_x := special_x r in
  print (Processing svg_file_path glyph_name unicode_hex) ;;
  if negb (path_exists svg_file_path) then
    print (FileNotFound svg_file_path) ;; mret None
  else
    advance_width ←
      (if advance_width =? 0 then
         lift (em ← Py.float_of_int units_per_em; Py.int_of_float (em * 0.6)%float)
       else mret advance_width);
    parsed ← try_except
      (svg_data ← lift (read_binary svg_file_path);
       let svg_text := decode_utf8 svg_data in
       let cleaned_svg := clean_svg_content svg_text in
       transform ← lift (calculate_transform svg_text units_per_em advance_width special_x);
       print (UsingTransform transform) ;;
       svg_path ← lift (SVGPath_fromstring (encode_utf8 cleaned_svg) transform);
       mret (Some svg_path))
      (fun e => print (ErrorProcessing e) ;; mret None);
    match parsed with
    | None => mret None
    | Some svg_path =>
        f ← get_font;
        glyph ← lift (draw_glyph f svg_path);
        (if has_points glyph then mret tt else print (NoPointsWarning svg_file_path)) ;;
        mret (Some (advance_width, glyph))
    end.

Definition insert_glyph (r : Request) (advance_width : Z) (glyph : Glyph) : M unit :=
  let glyph_name := glyph_name r in
  let unicode_hex := unicode_hex r in
  glyf_setitem glyph_name glyph ;;
  f ← get_font;
  let glyph_order := glyphOrder f in
  (if in_order glyph_name glyph_order then mret tt
   else set_font (setGlyphOrder f (glyph_order ++ [glyph_name]))) ;;
  unicode_int ← lift (match int_of_hex unicode_hex with
                     | Some n => Ok n
                     | None => Raise (ValueError "invalid literal for int() with base 16")
                     end);
  cmap_update unicode_int glyph_name ;;
  hmtx_setitem glyph_name (advance_width, 0) ;;
  print (AddedGlyph glyph_name advance_width).

Definition process_request (units_per_em : Z) (r : Request) : M unit :=
  outline ← outline_of_request units_per_em r;
  match outline with
  | None => mret tt
  | Some (advance_width, glyph) => insert_glyph r advance_width glyph
  end.

(** *** The whole run *)

(** The file at [path] receives the font in memory. *)
Definition write_font (path : string) : M unit := fun s =>
  ({| font := font s; stdout := stdout s;
      saved := saved s ++ [(path, font s)] |}, Ok tt).

(** [font.save(output_font_path)]: the tables are compiled in memory,
    which raises on a font the library cannot write, and only then is the
    file written. *)
Definition save (output_font_path : string) : M unit :=
  f ← get_font;
  lift (font_compile f) ;;
  write_font output_font_path.

(** Before the loop: the tables the program needs, and the units per em. *)
Definition prepare : M Z :=
  f ← get_font;
  let units_per_em := unitsPerEm f in
  print (FontUnitsPerEm units_per_em) ;;
  (if glyf f is None then set_font (newTable_glyf f) else mret tt) ;;
  f ← get_font;
  (if hmtx f is None then set_font (with_hmtx f (Some ∅)) else mret tt) ;;
  f ← get_font;
  tables ← table "cmap" (cmap_tables f);
  let unicode_tables := filter (fun t => isUnicode t = true) tables in
  (if unicode_tables is [] then
     raise (ValueError "Font doesn't have Unicode cmap tables")
   else mret tt) ;;
  x_height ← lift (em ← Py.float_of_int units_per_em; Ok (em * 0.45)%float);
  let x_height :=
    match sxHeight f with
    | Some h => if 0 <? h then Py.Int h else Py.Float x_height
    | None => Py.Float x_height
    end in
  mret units_per_em.

(** After the loop: the flavor, the glyph count, and the one [save]. *)
Definition finish (output_font_path : string) : M unit :=
  f ← get_font;
  set_font (with_flavor f None) ;;
  f ← get_font;
  (if numGlyphs f is Some _ then
     set_font (with_numGlyphs f (Some (Z.of_nat (length (glyphOrder f)))))
   else mret tt) ;;
  f ← get_font;
  set_font (with_recalcBBoxes f true) ;;
  save output_font_path ;;
  print (FontSaved output_font_path).

Definition run (output_font_path : string) (svg_data_list : list Request) : M unit :=
  units_per_em ← prepare;
  for_each (process_request units_per_em) svg_data_list ;;
  finish output_font_path.

(** [add_svg_glyphs_to_font], with the font that
    [TTFont(input_font_path)] opens in place of its path. *)
Definition add_svg_glyphs_to_font (input_font : Font) (output_font_path : string)
    (svg_data_list : list Request) : State * result unit :=
  run output_font_path svg_data_list
      {| font := input_font; stdout := []; saved := [] |}.

End Driver.

(** ** A sample environment

    Concrete collaborators on which the definitions above can be run: a
    small directory, number readers for plain digit strings, an SVG reader
    that refuses text that does not open with a tag, a pen that refuses
    path data with no leading command, and a compilation that refuses a
    font in which a glyph of the glyph order has no outline or no metrics,
    each agreeing with the interpreter and the font library on the inputs
    used below. *)

Module Sample.

Definition digit (c : ascii) : option Z :=
  let n := Z.of_nat (nat_of_ascii c) in
  if (48 <=? n) && (n <=? 57) then Some (n - 48)
  else if (65 <=? n) && (n <=? 70) then Some (n - 55)
  else if (97 <=? n) && (n <=? 102) then Some (n - 87)
  else None.

Fixpoint digits (base acc : Z) (s : string) : option Z :=
  match s with
  | EmptyString => Some acc
  | String c s' =>
      d ← digit c;
      if d <? base then digits base (base * acc + d) s' else None
  end.

(** [int(s, 16)] on a non-empty string of hexadecimal digits; every other
    string used below is one the builtin rejects. *)
Definition plain_int_of_hex (s : string) : option Z :=
  match s with
  | EmptyString => None
  | _ => digits 16 0 s
  end.

(** [float(s)] on a non-empty string of decimal digits and on [inf]. *)
Definition plain_float_of_str (s : string) : option float :=
  if String.eqb s "inf" then Some infinity
  else
    match s with
    | EmptyString => None
    | _ =>
        n ← digits 10 0 s;
        match Py.float_of_int n with
        | Ok x => Some x
        | Raise _ => None
        end
    end.

Definition boxed_svg : string :=
  "<svg viewBox='0 0 100 100'><path d='M 10 10 L 90 90 Z'/></svg>".

Definition plain_svg : string :=
  "<svg><path d='M 10 10 L 90 90 Z'/></svg>".

(** Well-formed XML whose path data starts with a number. *)
Definition bad_path_svg : string :=
  "<svg viewBox='0 0 100 100'><path d='10 10'/></svg>".

Definition files : list (string * string) :=
  [("boxed.svg", boxed_svg); ("plain.svg", plain_svg);
   ("bad_path.svg", bad_path_svg); ("empty.svg", "")].

Fixpoint lookup_file (path : string) (dir : list (string * string)) : option string :=
  match dir with
  | [] => None
  | (name, content) :: rest =>
      if String.eqb name path then Some content else lookup_file path rest
  end.

Definition contains (needle text : string) : bool :=
  match Re.search (Re.lit needle) text with
  | Some _ => true
  | None => false
  end.

(** The first glyph of the glyph order that has no outline or no metrics. *)
Definition first_missing {G : Type} (f : TTFont G) : option string :=
  find (fun name =>
          negb (bool_decide (is_Some (glyf f ≫= (.!! name)))
                && bool_decide (is_Some (hmtx f ≫= (.!! name)))))
       (glyphOrder f).

(** The compilation of the outline and metrics tables, which look every
    glyph of the glyph order up and raise [KeyError] for one they do not
    hold. *)
Definition plain_compile {G : Type} (f : TTFont G) : result unit :=
  match first_missing f with
  | Some name => Raise (KeyError name)
  | None => Ok tt
  end.

#[export] Instance collaborators : Externals := {|
  Glyph := string;
  SVGPath := string * Transform;
  float_of_str := plain_float_of_str;
  int_of_hex := plain_int_of_hex;
  path_exists path := if lookup_file path files is Some _ then true else false;
  read_binary path :=
    match lookup_file path files with
    | Some content => Ok (list_byte_of_string content)
    | None => Raise (LibraryError "No such file or directory")
    end;
  decode_utf8 := string_of_list_byte;
  encode_utf8 := list_byte_of_string;
  SVGPath_fromstring data transform :=
    match string_of_list_byte data with
    | String "<" _ as text => Ok (text, transform)
    | _ => Raise (LibraryError "ParseError")
    end;
  draw_glyph _ svg_path :=
    if contains "d='10 10'" (fst svg_path) then
      Raise (ValueError "Unallowed implicit command")
    else Ok (fst svg_path);
  has_points _ := true;
  font_compile := plain_compile
|}.

Definition unicode_subtable : CmapSubtable := {| isUnicode := true; cmap := ∅ |}.
Definition symbol_subtable : CmapSubtable := {| isUnicode := false; cmap := ∅ |}.

(** A font read from a file, with its one glyph. *)
Definition font_with (units_per_em : Z) (tables : option (list CmapSubtable)) : Font :=
  {| unitsPerEm := units_per_em; glyf := Some {[".notdef" := ""]};
     glyf_has_glyphOrder := true; hmtx := Some {[".notdef" := (500, 0)]};
     cmap_tables := tables; sxHeight := None;
     glyphOrder := [".notdef"]; numGlyphs := Some 1;
     flavor := Some "woff2"; recalcBBoxes := false |}.

Definition font_1000 : Font := font_with 1000 (Some [unicode_subtable; symbol_subtable]).
Definition font_2048 : Font := font_with 2048 (Some [unicode_subtable]).

(** A font without its metrics table. *)
Definition font_without_metrics : Font :=
  {| unitsPerEm := 1000; glyf := Some {[".notdef" := ""]};
     glyf_has_glyphOrder := true; hmtx := None;
     cmap_tables := Some [unicode_subtable; symbol_subtable]; sxHeight := None;
     glyphOrder := [".notdef"]; numGlyphs := Some 1;
     flavor := None; recalcBBoxes := false |}.

(** A font of another outline format, which has no [glyf] table. *)
Definition font_without_outlines : Font :=
  {| unitsPerEm := 1000; glyf := None; glyf_has_glyphOrder := false;
     hmtx := Some {[".notdef" := (500, 0)]};
     cmap_tables := Some [unicode_subtable; symbol_subtable]; sxHeight := None;
     glyphOrder := [".notdef"]; numGlyphs := Some 1;
     flavor := None; recalcBBoxes := false |}.

Definition request (path name hex : string) (width : Z) : Request :=
  {| svg_file_path := path; glyph_name := name; unicode_hex := hex;
     advance_width := width; special_x := Py.Int 0 |}.

Definition start (f : Font) : State := {| font := f; stdout := []; saved := [] |}.

Definition cup_request : Request := request "boxed.svg" "cup" "222A" 0.

Definition cup_twice : list Request :=
  [cup_request; request "plain.svg" "cup" "222a" 600].

Definition bad_hex_request : Request := request "boxed.svg" "x" "zz" 600.

(** The transform of [boxed_svg] at 1000 units per em and width 600. *)
Definition seven : Transform :=
  {| xx := 7; xy := 0; yx := 0; yy := (-7)%float; dx := 1750; dy := 650 |}.

(** Two elements with a [viewBox]. *)
Definition two_boxes_svg : string :=
  "<svg viewBox='0 0 100 100'><svg viewBox='1 2 3 4'/></svg>".

End Sample.

(** ** Vocabulary of the statements *)

(** [m] times [2^e] is at least [2^t], for a positive mantissa [m]. *)
Definition reaches (t m e : Z) : Prop := 0 < m /\ 2 ^ (t - e) <= m.

(** The number is positive, infinite or at least [2^t]. *)
Definition SFreaches (t : Z) (x : spec_float) : Prop :=
  match x with
  | S754_infinity false => True
  | S754_finite false m e => 2 ^ (t - e) <= Z.pos m
  | _ => False
  end.

Fixpoint quote_free (g : string) : bool :=
  match g with
  | EmptyString => true
  | String c g' => negb (is_quote c) && quote_free g'
  end.

(** The text opens with a [viewBox] attribute of value [g]: the name, the
    equals sign, a quote character, the non-empty quote-free [g] and a
    quote character. *)
Definition attribute_at (text g : string) : Prop :=
  exists q1 q2 tail,
    is_quote q1 = true /\ is_quote q2 = true /\ g <> EmptyString /\ quote_free g = true
    /\ text = "viewBox=" +:+ String q1 (g +:+ String q2 tail).

(** [g] is the value of the first [viewBox] attribute of [svg]. *)
Definition first_attribute (svg g : string) : Prop :=
  exists pre rest,
    svg = pre +:+ rest /\ attribute_at rest g
    /\ forall pre' rest' g', svg = pre' +:+ rest' ->
         (String.length pre' < String.length pre)%nat -> ~ attribute_at rest' g'.

(** The advance width the transform centres in: the caller's, or the em
    size for a width of [0]. *)
Definition centering_width (units_per_em advance_width : Z) : Z :=
  if advance_width =? 0 then units_per_em else advance_width.

(** [int(units_per_em * 0.6)], the default advance width. *)
Definition default_advance_width (units_per_em : Z) : result Z :=
  em ← Py.float_of_int units_per_em; Py.int_of_float (em * 0.6)%float.

(** How often a glyph name occurs in a glyph order. *)
Definition occurrences (name : string) (order : list string) : nat :=
  length (filter (fun n => n = name) order).

(** The glyph order is the initial one followed by names that were not in
    it, each once, and every glyph reported as added is listed. *)
Definition appended_once `{Externals} (initial : list string) (s : State) : Prop :=
  exists added,
    glyphOrder (font s) = initial ++ added
    /\ NoDup added
    /\ (forall name, name ∈ added -> name ∉ initial)
    /\ (forall name width, AddedGlyph name width ∈ stdout s -> name ∈ glyphOrder (font s)).

(** [f] holds of the [2^depth] integers from [lo] on. *)
Fixpoint all_from (depth : nat) (lo : Z) (f : Z -> bool) : bool :=
  match depth with
  | O => f lo
  | S d => all_from d lo f && all_from d (lo + 2 ^ Z.of_nat d) f
  end.

(** [default_advance_width] gives three fifths, rounded down. *)
Definition default_is_floor (units_per_em : Z) : bool :=
  match default_advance_width units_per_em with
  | Ok w => w =? 3 * units_per_em / 5
  | Raise _ => false
  end.

(** *** Texts *)

(** Every character of [g] satisfies [p]. *)
Fixpoint all_chars (p : ascii -> bool) (g : string) : bool :=
  match g with
  | EmptyString => true
  | String c g' => p c && all_chars p g'
  end.

(** [needle] occurs in [text]. *)
Definition occurs_in (needle text : string) : Prop :=
  exists pre rest, text = pre +:+ needle +:+ rest.

(** The characters of a text, in order. *)
Definition chars (s : string) : list ascii := list_ascii_of_string s.

(** *** Numbers *)

(** The float is a number other than zero and the infinities. *)
Definition finite_nonzero (w : float) : bool :=
  ((w <? infinity) && (neg_infinity <? w) && negb (w =? 0))%float.

(** The float is at least [2^t]. *)
Definition far (t : Z) (a : float) : Prop := SFreaches t (Prim2SF a).

(** The float is at most [- 2^t]. *)
Definition far_below (t : Z) (a : float) : Prop := SFreaches t (Prim2SF (- a)).

(** *** Runs of the driver *)

Section Run_vocabulary.

Context `{Externals}.

(** The state with nothing printed. *)
Definition quiet (s : State) : State :=
  {| font := font s; stdout := []; saved := saved s |}.

(** The state [x], with its lines printed after those of [s]. *)
Definition after (s x : State) : State :=
  {| font := font x; stdout := stdout s ++ stdout x; saved := saved x |}.

(** The action does not read what has been printed: in any state it does
    what it does in the quiet one, its lines added to those there. *)
Definition framed {A : Type} (m : M A) : Prop :=
  forall s, m s = (after s (fst (m (quiet s))), snd (m (quiet s))).

(** The action keeps the relation [R] between the font it finds and the
    font it leaves, whatever its result. *)
Definition keeps {A : Type} (R : Font -> Font -> Prop) (m : M A) : Prop :=
  forall s s' res, m s = (s', res) -> R (font s) (font s').

(** Every glyph of the glyph order has an outline and a metrics entry. *)
Definition complete (f : Font) : Prop :=
  forall name, name ∈ glyphOrder f ->
    is_Some (glyf f ≫= (.!! name)) /\ is_Some (hmtx f ≫= (.!! name)).

(** The requests announced in the output, in order. *)
Definition attempted (lines : list message) : list (string * string * string) :=
  omap (fun line =>
          match line with
          | Processing path name hex => Some (path, name, hex)
          | _ => None
          end) lines.

Definition announced (r : Request) : string * string * string :=
  (svg_file_path r, glyph_name r, unicode_hex r).


(** What may differ between a subtable [t] of the character map and its
    later state [t']: the entries of a Unicode subtable at the code points
    [codes], which are set and never removed. *)
Definition subtable_kept (codes : Z -> Prop) (t t' : CmapSubtable) : Prop :=
  isUnicode t' = isUnicode t
  /\ (isUnicode t = false -> cmap t' = cmap t)
  /\ (forall code, ~ codes code -> cmap t' !! code = cmap t !! code)
  /\ (forall code, is_Some (cmap t !! code) -> is_Some (cmap t' !! code)).

(** What may differ between a font [f] and its later state [f']: the
    outlines, metrics and glyph order entries of the glyph names [names],
    and the character map entries at [codes]; nothing is removed. *)
Definition kept (names : string -> Prop) (codes : Z -> Prop) (f f' : Font) : Prop :=
  unitsPerEm f' = unitsPerEm f /\ sxHeight f' = sxHeight f
  /\ numGlyphs f' = numGlyphs f /\ flavor f' = flavor f
  /\ recalcBBoxes f' = recalcBBoxes f
  /\ (forall name, ~ names name ->
        glyf f' ≫= (.!! name) = glyf f ≫= (.!! name)
        /\ hmtx f' ≫= (.!! name) = hmtx f ≫= (.!! name)
        /\ (name ∈ glyphOrder f' -> name ∈ glyphOrder f))
  /\ (forall name,
        (is_Some (glyf f ≫= (.!! name)) -> is_Some (glyf f' ≫= (.!! name)))
        /\ (is_Some (hmtx f ≫= (.!! name)) -> is_Some (hmtx f' ≫= (.!! name)))
        /\ (name ∈ glyphOrder f -> name ∈ glyphOrder f'))
  /\ option_Forall2 (Forall2 (subtable_kept codes)) (cmap_tables f) (cmap_tables f').

(** The code points of the requests that have one. *)
Definition code_of (rs : list Request) (code : Z) : Prop :=
  exists r, r ∈ rs /\ int_of_hex (unicode_hex r) = Some code.

(** The glyph names of the requests. *)
Definition name_of (rs : list Request) (name : string) : Prop :=
  name ∈ map glyph_name rs.

(** What an inserted request writes: an outline and a width under a glyph
    name, and the name under a code point. *)
Record Write : Type := {
  w_name : string;
  w_glyph : Glyph;
  w_width : Z;
  w_code : Z
}.

Definition add_name (order : list string) (name : string) : list string :=
  if in_order name order then order else order ++ [name].

Definition write_subtable (t : CmapSubtable) (w : Write) : CmapSubtable :=
  if isUnicode t then cmap_setitem (w_code w) (w_name w) t else t.

(** The font after the writes of lines 141 to 154, where its three tables
    exist. *)
Definition written (f : Font) (w : Write) : Font :=
  {| unitsPerEm := unitsPerEm f;
     glyf := (fun glyphs => <[w_name w := w_glyph w]> glyphs) <$> glyf f;
     glyf_has_glyphOrder := glyf_has_glyphOrder f;
     hmtx := (fun entries => <[w_name w := (w_width w, 0)]> entries) <$> hmtx f;
     cmap_tables := (fun tables => map (fun t => write_subtable t w) tables) <$> cmap_tables f;
     sxHeight := sxHeight f;
     glyphOrder := add_name (glyphOrder f) (w_name w);
     numGlyphs := numGlyphs f;
     flavor := flavor f;
     recalcBBoxes := recalcBBoxes f |}.

Definition tables_exist (f : Font) : Prop :=
  is_Some (glyf f) /\ is_Some (hmtx f) /\ is_Some (cmap_tables f).

(** The font can take the writes of lines 141 to 154: its three tables
    exist, and the outline table has its glyph order. *)
Definition writable (f : Font) : Prop :=
  tables_exist f /\ glyf_has_glyphOrder f = true.

(** What the lines after the loop make of the font [f]: the font [f'], of
    no flavor, flagged for the recalculation of bounding boxes, and with
    the glyph count set where the font has one. *)
Definition finished (f f' : Font) : Prop :=
  unitsPerEm f' = unitsPerEm f /\ glyf f' = glyf f
  /\ glyf_has_glyphOrder f' = glyf_has_glyphOrder f
  /\ hmtx f' = hmtx f /\ cmap_tables f' = cmap_tables f
  /\ sxHeight f' = sxHeight f /\ glyphOrder f' = glyphOrder f
  /\ flavor f' = None /\ recalcBBoxes f' = true
  /\ numGlyphs f' = (if numGlyphs f is Some _
                     then Some (Z.of_nat (length (glyphOrder f))) else None).

(** A request that nothing stops: its file exists and is read, its
    transform is computed, its SVG is parsed, its outline is drawn whatever
    the font, and its code point parses. *)
Definition valid (units_per_em : Z) (r : Request) : Prop :=
  path_exists (svg_file_path r) = true
  /\ is_Some (int_of_hex (unicode_hex r))
  /\ exists width data t svg_path,
       (if advance_width r =? 0 then default_advance_width units_per_em = Ok width
        else width = advance_width r)
       /\ read_binary (svg_file_path r) = Ok data
       /\ calculate_transform (decode_utf8 data) units_per_em width (special_x r) = Ok t
       /\ SVGPath_fromstring (encode_utf8 (clean_svg_content (decode_utf8 data))) t
          = Ok svg_path
       /\ forall f, exists glyph, draw_glyph f svg_path = Ok glyph.

(** The glyph of the request is in the font: in its glyph order, with an
    outline and a metrics entry. *)
Definition present (r : Request) (f : Font) : Prop :=
  glyph_name r ∈ glyphOrder f
  /\ is_Some (glyf f ≫= (.!! glyph_name r))
  /\ is_Some (hmtx f ≫= (.!! glyph_name r)).

End Run_vocabulary.

(** *** An environment whose pen draws nothing

    The sample environment, with outlines that have no points. *)

Definition hollow_collaborators : Externals :=
  let base := Sample.collaborators in
  {| Glyph := @Glyph base;
     SVGPath := @SVGPath base;
     float_of_str := @float_of_str base;
     int_of_hex := @int_of_hex base;
     path_exists := @path_exists base;
     read_binary := @read_binary base;
     decode_utf8 := @decode_utf8 base;
     encode_utf8 := @encode_utf8 base;
     SVGPath_fromstring := @SVGPath_fromstring base;
     draw_glyph := @draw_glyph base;
     has_points := fun _ => false;
     font_compile := @font_compile base |}.

(** *** An environment that reads signed numbers

    The sample environment, with a [float] that also reads a minus sign
    in front of the digits. *)

Definition signed_float_of_str (s : string) : option float :=
  match s with
  | String "-" digits => x ← Sample.plain_float_of_str digits; Some (- x)%float
  | _ => Sample.plain_float_of_str s
  end.

Definition signed_collaborators : Externals :=
  let base := Sample.collaborators in
  {| Glyph := @Glyph base;
     SVGPath := @SVGPath base;
     float_of_str := signed_float_of_str;
     int_of_hex := @int_of_hex base;
     path_exists := @path_exists base;
     read_binary := @read_binary base;
     decode_utf8 := @decode_utf8 base;
     encode_utf8 := @encode_utf8 base;
     SVGPath_fromstring := @SVGPath_fromstring base;
     draw_glyph := @draw_glyph base;
     has_points := @has_points base;
     font_compile := @font_compile base |}.

(** * Properties *)

(** ** Binary64 arithmetic

    Facts about the rounding of products and quotients, proved from the
    specification of the primitive operations. *)

Module FloatFacts.

Lemma binary_round_aux_opp s m e l :
  binary_round_aux prec emax (negb s) m e l
  = SFopp (binary_round_aux prec emax s m e l).
Proof.
  unfold binary_round_aux.
  destruct (shr_fexp prec emax m e l) as [mrs' e'].
  destruct (shr_fexp prec emax _ e' loc_Exact) as [mrs'' e''].
  destruct (shr_m mrs''); [reflexivity | | reflexivity].
  destruct (e'' <=? emax - prec)%Z; reflexivity.
Qed.

Lemma SFmul_opp_r x y :
  SFmul prec emax x (SFopp y) = SFopp (SFmul prec emax x y).
Proof.
  destruct x as [sx | sx | | sx mx ex], y as [sy | sy | | sy my ey]; simpl;
    try reflexivity; try (destruct sx, sy; reflexivity).
  rewrite <- binary_round_aux_opp. destruct sx, sy; reflexivity.
Qed.

Lemma SFsub_opp_r x y :
  SFsub prec emax x (SFopp y) = SFadd prec emax x y.
Proof.
  destruct x as [sx | sx | | sx mx ex], y as [sy | sy | | sy my ey]; simpl;
    try reflexivity; destruct sx, sy; reflexivity.
Qed.

Lemma mul_opp_r (a b : float) : (a * - b = - (a * b))%float.
Proof.
  apply Prim2SF_inj.
  rewrite FloatAxioms.mul_spec, !FloatAxioms.opp_spec, FloatAxioms.mul_spec. apply SFmul_opp_r.
Qed.

Lemma sub_opp_r (a b : float) : (a - - b = a + b)%float.
Proof.
  apply Prim2SF_inj.
  rewrite FloatAxioms.sub_spec, FloatAxioms.opp_spec, FloatAxioms.add_spec. apply SFsub_opp_r.
Qed.

Lemma sub_mul_opp (a b s : float) : (a - b * - s = a + b * s)%float.
Proof. rewrite mul_opp_r. apply sub_opp_r. Qed.

Lemma digits2_pos_size p : digits2_pos p = Pos.size p.
Proof. induction p; simpl; congruence. Qed.

Lemma digits2_bounds p :
  2 ^ (Z.pos (digits2_pos p) - 1) <= Z.pos p < 2 ^ Z.pos (digits2_pos p).
Proof.
  rewrite digits2_pos_size. split.
  - pose proof (Pos.size_le p) as Hle.
    assert (Hpow : Z.pos (2 ^ Pos.size p) = 2 ^ Z.pos (Pos.size p))
      by apply Pos2Z.inj_pow.
    assert (2 ^ Z.pos (Pos.size p) = 2 * 2 ^ (Z.pos (Pos.size p) - 1)).
    { rewrite <- Z.pow_succ_r by lia. f_equal. lia. }
    lia.
  - pose proof (Pos.size_gt p) as Hgt.
    assert (Hpow : Z.pos (2 ^ Pos.size p) = 2 ^ Z.pos (Pos.size p))
      by apply Pos2Z.inj_pow.
    lia.
Qed.

Lemma shr_1_m mrs : 0 <= shr_m mrs -> shr_m (shr_1 mrs) = shr_m mrs / 2.
Proof.
  destruct mrs as [m r s]; simpl. intros Hm.
  destruct m as [| [p | p |] | p]; simpl shr_m; try reflexivity; try lia.
  - apply Z.div_unique with 1; lia.
  - apply Z.div_unique with 0; lia.
Qed.

Lemma shr_1_nonneg mrs : 0 <= shr_m mrs -> 0 <= shr_m (shr_1 mrs).
Proof. intros Hm. rewrite shr_1_m by done. apply Z.div_pos; lia. Qed.

Lemma pow2_xI p : 2 ^ Z.pos p~1 = 2 * (2 ^ Z.pos p * 2 ^ Z.pos p).
Proof.
  rewrite Pos2Z.inj_xI, <- Z.pow_add_r, <- Z.pow_succ_r by lia. f_equal. lia.
Qed.

Lemma pow2_xO p : 2 ^ Z.pos p~0 = 2 ^ Z.pos p * 2 ^ Z.pos p.
Proof. rewrite Pos2Z.inj_xO, <- Z.pow_add_r by lia. f_equal. lia. Qed.

Lemma iter_shr_1_m p : forall mrs,
  0 <= shr_m mrs ->
  shr_m (SpecFloat.iter_pos shr_1 p mrs) = shr_m mrs / 2 ^ Z.pos p.
Proof.
  induction p as [p IH | p IH |]; intros mrs Hm; simpl SpecFloat.iter_pos.
  - assert (H1 : 0 <= shr_m (shr_1 mrs)) by (by apply shr_1_nonneg).
    assert (H2 : 0 <= shr_m (SpecFloat.iter_pos shr_1 p (shr_1 mrs))).
    { rewrite IH by done. apply Z.div_pos; lia. }
    rewrite IH, IH, shr_1_m by done.
    rewrite !Z.div_div by lia. by rewrite pow2_xI.
  - assert (H2 : 0 <= shr_m (SpecFloat.iter_pos shr_1 p mrs)).
    { rewrite IH by done. apply Z.div_pos; lia. }
    rewrite IH, IH by done.
    rewrite !Z.div_div by lia. by rewrite pow2_xO.
  - rewrite shr_1_m by done. reflexivity.
Qed.

Lemma shr_record_of_loc_m m l : shr_m (shr_record_of_loc m l) = m.
Proof. destruct l as [| []]; reflexivity. Qed.

Lemma shr_fexp_reaches t m e l :
  emin <= t -> reaches t m e ->
  reaches t (shr_m (fst (shr_fexp prec emax m e l))) (snd (shr_fexp prec emax m e l)).
Proof.
  intros Ht [Hm Hle]. unfold shr_fexp, shr.
  destruct m as [| p |]; try lia.
  simpl Zdigits2.
  pose proof (digits2_bounds p) as [Hlo Hhi].
  set (d := Z.pos (digits2_pos p)) in *.
  destruct (fexp prec emax (d + e) - e) as [| n | n] eqn:Hn; simpl fst; simpl snd;
    rewrite ?shr_record_of_loc_m; try (split; done).
  rewrite iter_shr_1_m by (rewrite shr_record_of_loc_m; lia).
  rewrite shr_record_of_loc_m.
  unfold fexp, SpecFloat.emin, prec, emax in *.
  assert (Hpow : 2 ^ Z.pos n <= Z.pos p).
  { destruct (Z.max_spec (d + e - 53) (3 - 1024 - 53)) as [[_ Hmax] | [_ Hmax]].
    - etrans; [| exact Hle]. apply Z.pow_le_mono_r; lia.
    - etrans; [| exact Hlo]. apply Z.pow_le_mono_r; lia. }
  split.
  - apply Z.div_str_pos. lia.
  - destruct (Z.le_gt_cases 0 (t - (e + Z.pos n))) as [Hge | Hlt].
    + apply Z.div_le_lower_bound; [lia |].
      rewrite <- Z.pow_add_r by lia.
      replace (Z.pos n + (t - (e + Z.pos n))) with (t - e) by lia. done.
    + rewrite Z.pow_neg_r by lia. apply Z.div_pos; lia.
Qed.

Lemma round_nearest_even_ge m l : m <= round_nearest_even m l.
Proof. destruct l as [| []]; simpl; try lia. destruct (Z.even m); lia. Qed.

Lemma binary_round_aux_reaches t m e l :
  emin <= t -> reaches t m e ->
  SFreaches t (binary_round_aux prec emax false m e l).
Proof.
  intros Ht Hm. unfold binary_round_aux.
  pose proof (shr_fexp_reaches t m e l Ht Hm) as H1.
  destruct (shr_fexp prec emax m e l) as [mrs' e']. simpl in H1.
  set (m2 := round_nearest_even (shr_m mrs') (loc_of_shr_record mrs')).
  assert (H2 : reaches t m2 e').
  { pose proof (round_nearest_even_ge (shr_m mrs') (loc_of_shr_record mrs')).
    destruct H1. split; fold m2 in H; lia. }
  pose proof (shr_fexp_reaches t m2 e' loc_Exact Ht H2) as H3.
  destruct (shr_fexp prec emax m2 e' loc_Exact) as [mrs'' e'']. simpl in H3.
  destruct H3 as [H3 H4].
  destruct (shr_m mrs'') as [| p |]; try lia.
  destruct (e'' <=? emax - prec); simpl; done.
Qed.

Lemma SFmul_reaches t u x y :
  emin <= t + u -> SFreaches t x -> SFreaches u y ->
  SFreaches (t + u) (SFmul prec emax x y).
Proof.
  intros Hmin Hx Hy.
  destruct x as [sx | [] | | [] mx ex], y as [sy | [] | | [] my ey]; simpl in *; try done.
  apply binary_round_aux_reaches; [done |]. split; [lia |].
  destruct (Z.le_gt_cases 0 (t - ex)) as [Ht | Ht], (Z.le_gt_cases 0 (u - ey)) as [Hu | Hu].
  - replace (t + u - (ex + ey)) with ((t - ex) + (u - ey)) by lia.
    rewrite Z.pow_add_r, Pos2Z.inj_mul by lia.
    apply Z.mul_le_mono_nonneg; lia.
  - destruct (Z.le_gt_cases 0 (t + u - (ex + ey))); [| rewrite Z.pow_neg_r; lia].
    assert (2 ^ (t + u - (ex + ey)) <= 2 ^ (t - ex)) by (apply Z.pow_le_mono_r; lia).
    nia.
  - destruct (Z.le_gt_cases 0 (t + u - (ex + ey))); [| rewrite Z.pow_neg_r; lia].
    assert (2 ^ (t + u - (ex + ey)) <= 2 ^ (u - ey)) by (apply Z.pow_le_mono_r; lia).
    nia.
  - rewrite Z.pow_neg_r; lia.
Qed.

(** The quotient of a value of at least [2^a] by a positive value below
    [2^b]. *)
Lemma SFdiv_reaches a b x my ey :
  emin <= a - b -> SFreaches a x -> 0 <= b - ey -> Z.pos my < 2 ^ (b - ey) ->
  SFreaches (a - b) (SFdiv prec emax x (S754_finite false my ey)).
Proof.
  intros Hmin Hx Hb Hy.
  destruct x as [sx | [] | | [] mx ex]; simpl in *; try done.
  unfold SFdiv_core_binary. simpl Zdigits2.
  pose proof (digits2_bounds mx) as [Hlo1 Hhi1].
  pose proof (digits2_bounds my) as [Hlo2 Hhi2].
  set (d1 := Z.pos (digits2_pos mx)) in *.
  set (d2 := Z.pos (digits2_pos my)) in *.
  set (e' := Z.min (fexp prec emax (d1 + ex - (d2 + ey))) (ex - ey)).
  set (s := ex - ey - e').
  assert (Hs : 0 <= s) by (unfold s, e'; lia).
  set (m' := match s with Z.pos _ => Z.shiftl (Z.pos mx) s | 0 => Z.pos mx | Z.neg _ => 0 end).
  assert (Hm' : m' = Z.pos mx * 2 ^ s).
  { unfold m'. destruct s eqn:Es; [rewrite Z.pow_0_r; lia | | lia].
    apply Z.shiftl_mul_pow2. lia. }
  clearbody m'.
  destruct (Z.div_eucl m' (Z.pos my)) as [q r] eqn:Hdiv.
  assert (Hq : q = m' / Z.pos my) by (unfold Z.div; by rewrite Hdiv).
  apply binary_round_aux_reaches; [done |].
  assert (Hpos2s : 0 < 2 ^ s) by (apply Z.pow_pos_nonneg; lia).
  (* the bound [2^(a-b-e') * my <= mx * 2^s] whenever [e' <= a - b] *)
  assert (Hbound : 0 <= a - b - e' -> 2 ^ (a - b - e') <= q).
  { intros He. rewrite Hq, Hm'. apply Z.div_le_lower_bound; [lia |].
    assert (H1 : Z.pos my * 2 ^ (a - b - e') <= 2 ^ (b - ey) * 2 ^ (a - b - e')).
    { apply Z.mul_le_mono_nonneg_r; [apply Z.pow_nonneg |]; lia. }
    rewrite <- Z.pow_add_r in H1 by lia.
    assert (H2 : 2 ^ (b - ey + (a - b - e')) <= Z.pos mx * 2 ^ s).
    { destruct (Z.le_gt_cases 0 (a - ex)) as [Ha | Ha].
      - replace (b - ey + (a - b - e')) with ((a - ex) + s) by (unfold s; lia).
        rewrite Z.pow_add_r by lia. apply Z.mul_le_mono_nonneg_r; lia.
      - assert (2 ^ (b - ey + (a - b - e')) <= 2 ^ s)
          by (apply Z.pow_le_mono_r; unfold s; lia).
        nia. }
    lia. }
  assert (Hq1 : 0 < q).
  { unfold fexp, SpecFloat.emin, prec, emax in *.
    destruct (Z.le_gt_cases e' (a - b)) as [He | He].
    - assert (0 < 2 ^ (a - b - e')) by (apply Z.pow_pos_nonneg; lia).
      specialize (Hbound ltac:(lia)). lia.
    - assert (He' : e' <= d1 + ex - (d2 + ey) - 53) by (unfold e' in *; lia).
      rewrite Hq, Hm'. apply Z.div_str_pos. split; [lia |].
      assert (2 ^ d2 <= 2 ^ (d1 - 1) * 2 ^ s).
      { rewrite <- Z.pow_add_r by lia. apply Z.pow_le_mono_r; unfold s; lia. }
      assert (2 ^ (d1 - 1) * 2 ^ s <= Z.pos mx * 2 ^ s)
        by (apply Z.mul_le_mono_nonneg_r; lia).
      lia. }
  split; [done |].
  destruct (Z.le_gt_cases 0 (a - b - e')); [by apply Hbound |].
  rewrite Z.pow_neg_r; lia.
Qed.

Lemma pos_iter_xO p n : Z.pos (Pos.iter xO p n) = Z.pos p * 2 ^ Z.pos n.
Proof.
  revert p. induction n as [| n IH] using Pos.peano_ind; intros p.
  - simpl. lia.
  - rewrite Pos.iter_succ, Pos2Z.inj_xO, IH, Pos2Z.inj_succ, Z.pow_succ_r by lia. lia.
Qed.

Lemma binary_normalize_reaches z :
  1 <= z -> SFreaches 0 (binary_normalize prec emax z 0 false).
Proof.
  intros Hz. destruct z as [| p |]; try lia.
  unfold binary_normalize, binary_round, shl_align.
  set (e' := fexp prec emax (Z.pos (digits2_pos p) + 0)).
  destruct (e' - 0) as [| d | d] eqn:Hd;
    apply binary_round_aux_reaches; try done; split; try lia.
  rewrite pos_iter_xO. replace (0 - e') with (Z.pos d) by lia.
  assert (0 < 2 ^ Z.pos d) by (apply Z.pow_pos_nonneg; lia). nia.
Qed.

Lemma float_of_int_reaches z :
  1 <= z < 2 ^ 63 ->
  exists em, Py.float_of_int z = Ok em /\ SFreaches 0 (Prim2SF em).
Proof.
  intros Hz. unfold Py.float_of_int.
  assert (Habs : (Z.abs z <? 2 ^ 63) = true) by (apply Z.ltb_lt; lia).
  assert (Hneg : (z <? 0) = false) by (apply Z.ltb_ge; lia).
  rewrite Habs, Hneg. eexists; split; [reflexivity |].
  rewrite FloatAxioms.of_uint63_spec, Uint63.of_Z_spec, Z.mod_small.
  - apply binary_normalize_reaches. lia.
  - change wB with (2 ^ 63). lia.
Qed.

(** The rounding of a positive mantissa reaches what the mantissa does. *)
Lemma binary_round_reaches t m e :
  emin <= t -> reaches t (Z.pos m) e ->
  SFreaches t (binary_round prec emax false m e).
Proof.
  intros Ht [_ Hle]. unfold binary_round, shl_align.
  set (e' := fexp prec emax (Z.pos (digits2_pos m) + e)).
  destruct (e' - e) as [| d | d] eqn:Hd;
    apply binary_round_aux_reaches; try done; split; try lia.
  rewrite pos_iter_xO.
  assert (Hpos : 0 < 2 ^ Z.pos d) by (apply Z.pow_pos_nonneg; lia).
  destruct (Z.le_gt_cases 0 (t - e)) as [Hge | Hlt].
  - replace (t - e') with ((t - e) + Z.pos d) by lia.
    rewrite Z.pow_add_r by lia. nia.
  - destruct (Z.le_gt_cases 0 (t - e')) as [Hge' | Hlt'];
      [| rewrite Z.pow_neg_r by lia; lia].
    assert (2 ^ (t - e') <= 2 ^ Z.pos d) by (apply Z.pow_le_mono_r; lia).
    nia.
Qed.

Lemma binary_normalize_reaches_pow t z :
  0 <= t -> 2 ^ t <= z -> SFreaches t (binary_normalize prec emax z 0 false).
Proof.
  intros Ht Hz.
  assert (0 < 2 ^ t) by (apply Z.pow_pos_nonneg; lia).
  destruct z as [| p |]; try lia.
  apply binary_round_reaches; [unfold SpecFloat.emin, prec, emax; lia |].
  split; [lia |]. by rewrite Z.sub_0_r.
Qed.

(** The mantissa that [shr_fexp] leaves has at most [prec] digits. *)
Lemma shr_fexp_below m e l :
  0 <= m -> shr_m (fst (shr_fexp prec emax m e l)) < 2 ^ prec.
Proof.
  intros Hm. unfold shr_fexp, shr.
  destruct m as [| p |]; try lia.
  - simpl Zdigits2.
    destruct (fexp prec emax (0 + e) - e) as [| n | n]; simpl fst;
      rewrite ?iter_shr_1_m; rewrite ?shr_record_of_loc_m; try done.
  - simpl Zdigits2.
    pose proof (digits2_bounds p) as [Hlo Hhi].
    set (d := Z.pos (digits2_pos p)) in *.
    assert (Hd : 0 < d) by (unfold d; lia).
    destruct (fexp prec emax (d + e) - e) as [| n | n] eqn:Hn; simpl fst;
      rewrite ?iter_shr_1_m; rewrite ?shr_record_of_loc_m; try lia;
      unfold fexp, SpecFloat.emin, prec, emax in *.
    + eapply Z.lt_le_trans; [exact Hhi |]. apply Z.pow_le_mono_r; lia.
    + apply Z.div_lt_upper_bound; [apply Z.pow_pos_nonneg; lia |].
      rewrite <- Z.pow_add_r by lia.
      eapply Z.lt_le_trans; [exact Hhi |]. apply Z.pow_le_mono_r; lia.
    + eapply Z.lt_le_trans; [exact Hhi |]. apply Z.pow_le_mono_r; lia.
Qed.

Lemma binary_round_aux_below s m e l s' m' e' :
  0 <= m ->
  binary_round_aux prec emax s m e l = S754_finite s' m' e' ->
  Z.pos m' < 2 ^ prec.
Proof.
  intros Hm. unfold binary_round_aux.
  destruct (shr_fexp prec emax m e l) as [mrs' e1] eqn:H1.
  set (m2 := round_nearest_even (shr_m mrs') (loc_of_shr_record mrs')).
  assert (H2 : 0 <= m2).
  { pose proof (round_nearest_even_ge (shr_m mrs') (loc_of_shr_record mrs')).
    assert (0 <= shr_m mrs'); [| fold m2 in H; lia].
    replace mrs' with (fst (shr_fexp prec emax m e l)) by (by rewrite H1).
    unfold shr_fexp, shr.
    destruct (fexp prec emax (Zdigits2 m + e) - e) as [| n | n]; simpl fst;
      rewrite ?iter_shr_1_m; rewrite ?shr_record_of_loc_m; try done.
    apply Z.div_pos; lia. }
  pose proof (shr_fexp_below m2 e1 loc_Exact H2) as H3.
  destruct (shr_fexp prec emax m2 e1 loc_Exact) as [mrs'' e'']. simpl in H3.
  destruct (shr_m mrs'') as [| p |]; try done.
  destruct (e'' <=? emax - prec); [| done]. by intros [= _ <- _].
Qed.

Lemma binary_normalize_below z s m e :
  binary_normalize prec emax z 0 false = S754_finite s m e -> Z.pos m < 2 ^ prec.
Proof.
  destruct z as [| p | p]; [done | |]; unfold binary_normalize, binary_round;
    destruct (shl_align p 0 _) as [mz ez];
    by apply binary_round_aux_below.
Qed.

(** The float of a positive int is at least 1, whatever the size of the
    int: above [2^63], the rounded mantissa has at most [prec] digits and
    a positive exponent, and the float made of the two is at least 1. *)
Lemma float_of_int_positive z em :
  1 <= z -> Py.float_of_int z = Ok em -> SFreaches 0 (Prim2SF em).
Proof.
  intros Hz. destruct (Z.lt_ge_cases z (2 ^ 63)) as [Hsmall | Hbig].
  - destruct (float_of_int_reaches z) as (em' & -> & Hr); [done |]. by intros [= <-].
  - unfold Py.float_of_int.
    assert (Habs : (Z.abs z <? 2 ^ 63) = false) by (apply Z.ltb_ge; lia).
    rewrite Habs.
    pose proof (binary_normalize_reaches_pow 63 z ltac:(lia) Hbig) as Hr.
    destruct (binary_normalize prec emax z 0 false) as [s | s | | s m e] eqn:Hsf;
      try done. destruct s; [done |]. intros [= <-].
    pose proof (binary_normalize_below _ _ _ _ Hsf) as Hm.
    cbn [SFreaches] in Hr.
    assert (He : 10 < e).
    { destruct (Z.le_gt_cases e 10) as [Hle | Hgt]; [| done].
      assert (2 ^ prec <= 2 ^ (63 - e)); [| lia].
      apply Z.pow_le_mono_r; unfold prec; lia. }
    unfold SF2Prim, Z.ldexp.
    rewrite FloatAxioms.ldshiftexp_spec, FloatAxioms.of_uint63_spec.
    rewrite !Uint63.of_Z_spec.
    assert (H63 : 2 ^ prec < wB) by (by vm_compute).
    change (of_pos m) with (Uint63.of_Z (Z.pos m)).
    rewrite Uint63.of_Z_spec, (Z.mod_small (Z.pos m)) by lia.
    set (e' := Z.max (Z.min e (emax - emin)) (emin - emax - 1)).
    assert (He' : 0 <= e' <= 2098) by (unfold e', SpecFloat.emin, prec, emax; lia).
    rewrite Z.mod_small by (change wB with 9223372036854775808; unfold FloatOps.shift; lia).
    replace (e' + FloatOps.shift - FloatOps.shift) with e' by lia.
    pose proof (binary_normalize_reaches (Z.pos m) ltac:(lia)) as Hpm.
    destruct (binary_normalize prec emax (Z.pos m) 0 false) as [sp | sp | | sp mp ep];
      try done. destruct sp; [done |]. cbn [SFreaches] in Hpm. cbn [SFldexp].
    apply binary_round_reaches; [done |]. split; [lia |].
    etrans; [| exact Hpm]. apply Z.pow_le_mono_r; lia.
Qed.

(** A float strictly between zero and infinity is a valid finite
    positive number, hence below [2^1024]. *)
Lemma positive_finite (w : float) :
  (0 <? w)%float = true -> (w <? infinity)%float = true ->
  exists m e, Prim2SF w = S754_finite false m e
              /\ 0 <= 1024 - e /\ Z.pos m < 2 ^ (1024 - e).
Proof.
  intros Hpos Hfin. rewrite FloatAxioms.ltb_spec in Hpos, Hfin.
  pose proof (Prim2SF_valid w) as Hvalid.
  change (Prim2SF 0) with (S754_zero false) in Hpos.
  change (Prim2SF infinity) with (S754_infinity false) in Hfin.
  destruct (Prim2SF w) as [s | s | | s m e]; try done.
  - destruct s; done.
  - destruct s; [done |]. exists m, e. split; [done |].
    simpl in Hvalid. unfold bounded, canonical_mantissa in Hvalid.
    apply andb_prop in Hvalid as [Hcanon Hle].
    apply Z.eqb_eq in Hcanon. apply Z.leb_le in Hle.
    unfold fexp, SpecFloat.emin, prec, emax in *.
    pose proof (digits2_bounds m) as [_ Hhi].
    split; [lia |].
    eapply Z.lt_le_trans; [exact Hhi |]. apply Z.pow_le_mono_r; lia.
Qed.

Lemma SFreaches_positive t (x : float) :
  SFreaches t (Prim2SF x) -> (0 <? x)%float = true.
Proof.
  intros Hx. rewrite FloatAxioms.ltb_spec. change (Prim2SF 0) with (S754_zero false).
  destruct (Prim2SF x) as [s | [] | | [] m e]; done.
Qed.

Lemma float_div_reaches (em w : float) :
  SFreaches 0 (Prim2SF em) ->
  (0 <? w)%float = true -> (w <? infinity)%float = true ->
  Py.float_div em w = Ok (em / w)%float /\ SFreaches (-1024) (Prim2SF (em / w)).
Proof.
  intros Hem Hpos Hfin.
  destruct (positive_finite w Hpos Hfin) as (m & e & Hw & He & Hm).
  split.
  - unfold Py.float_div. rewrite FloatAxioms.eqb_spec, Hw.
    change (Prim2SF 0) with (S754_zero false). reflexivity.
  - rewrite FloatAxioms.div_spec, Hw. apply (SFdiv_reaches 0 1024); try done.
Qed.

Lemma min_cases (a b : float) : Py.min a b = a \/ Py.min a b = b.
Proof. unfold Py.min. destruct (b <? a)%float; auto. Qed.

(** The scale factor of a finite positive viewBox is strictly positive. *)
Lemma scale_factor_positive (em width height : float) :
  SFreaches 0 (Prim2SF em) ->
  (0 <? width)%float = true -> (width <? infinity)%float = true ->
  (0 <? height)%float = true -> (height <? infinity)%float = true ->
  (0 <? Py.min (em / width) (em / height) * 0.7)%float = true.
Proof.
  intros Hem Hw Hwf Hh Hhf.
  destruct (float_div_reaches em width Hem Hw Hwf) as [_ H1].
  destruct (float_div_reaches em height Hem Hh Hhf) as [_ H2].
  apply (SFreaches_positive (-1024 + -1)).
  rewrite FloatAxioms.mul_spec. apply SFmul_reaches.
  - by vm_compute.
  - destruct (min_cases (em / width) (em / height)) as [-> | ->]; done.
  - by vm_compute.
Qed.

End FloatFacts.

(** ** The matcher *)

Module ReFacts.
Import Re.

Lemma append_nil_l (s : string) : "" +:+ s = s.
Proof. reflexivity. Qed.

Lemma append_cons c (a b : string) : String c a +:+ b = String c (a +:+ b).
Proof. reflexivity. Qed.

Lemma match_lit_cons c its s :
  match_here (Lit c :: its) s =
  match s with
  | String c' s' =>
      if Ascii.eqb c c' then
        h ← match_here its s'; Some {| group1 := group1 h; span := S (span h) |}
      else None
  | EmptyString => None
  end.
Proof. reflexivity. Qed.

Lemma match_one_cons cls its s :
  match_here (One cls :: its) s =
  match s with
  | String c s' =>
      if cls c then
        h ← match_here its s'; Some {| group1 := group1 h; span := S (span h) |}
      else None
  | EmptyString => None
  end.
Proof. reflexivity. Qed.

Lemma match_plus_cons capture cls its s :
  match_here (Plus capture cls :: its) s =
  match s with
  | String c s' =>
      if cls c then
        h ← more capture cls (match_here its) s';
        Some {| group1 := if capture then String c (group1 h) else group1 h;
                span := S (span h) |}
      else None
  | EmptyString => None
  end.
Proof. reflexivity. Qed.

(** What the tail [[QA]] of the pattern accepts. *)
Lemma closing_quote s h :
  match_here [One is_quote] s = Some h <->
  exists q tail, s = String q tail /\ is_quote q = true /\ h = {| group1 := ""; span := 1 |}.
Proof.
  simpl. destruct s as [| c s']; [split; [done | intros (? & ? & ? & _); done] |].
  destruct (is_quote c) eqn:Hc; simpl; split.
  - intros [= <-]. by exists c, s'.
  - intros (q & tail & [= <- <-] & _ & ->). done.
  - done.
  - intros (q & tail & [= <- <-] & Hq & _). congruence.
Qed.

(** The greedy run before the closing quote is the whole quote-free run. *)
Lemma more_until_quote s h :
  more true (fun c => negb (is_quote c)) (match_here [One is_quote]) s = Some h <->
  exists g q tail,
    s = g +:+ String q tail /\ quote_free g = true /\ is_quote q = true
    /\ h = {| group1 := g; span := S (String.length g) |}.
Proof.
  revert h. induction s as [| c s' IH]; intros h.
  - simpl. split; [done |]. intros (g & q & tail & Hs & _). by destruct g.
  - cbn [more]. destruct (is_quote c) eqn:Hc; cbn [negb].
    + rewrite closing_quote. split.
      * intros (q & tail & [= <- <-] & _ & ->). by exists "", c, s'.
      * intros (g & q & tail & Hs & Hg & Hq & ->).
        destruct g as [| c' g']; simpl in *.
        -- injection Hs as <- <-. by exists c, s'.
        -- injection Hs as <- _. rewrite Hc in Hg. done.
    + destruct (more true _ _ s') as [h0 |] eqn:Hmore.
      * destruct (proj1 (IH h0) eq_refl) as (g & q & tail & -> & Hg & Hq & ->). split.
        -- intros [= <-]. exists (String c g), q, tail. simpl. by rewrite Hc, Hg.
        -- intros (g1 & q1 & tail1 & Hs & Hg1 & Hq1 & ->).
           destruct g1 as [| c1 g1']; simpl in Hs.
           ++ injection Hs as -> _. congruence.
           ++ injection Hs as <- Hs. simpl in Hg1.
              apply andb_prop in Hg1 as [_ Hg1].
              assert (Some {| group1 := g; span := S (String.length g) |}
                      = Some {| group1 := g1'; span := S (String.length g1') |}) as [= -> ].
              { apply IH. by exists g1', q1, tail1. }
              done.
      * rewrite closing_quote. split.
        -- intros (q & tail & [= <- <-] & Hq & _). congruence.
        -- intros (g & q & tail & Hs & Hg & Hq & ->).
           destruct g as [| c1 g1]; simpl in Hs.
           ++ injection Hs as -> _. congruence.
           ++ injection Hs as <- Hs. simpl in Hg. apply andb_prop in Hg as [_ Hg].
              assert (None = Some {| group1 := g1; span := S (String.length g1) |}) as Hsome.
              { apply IH. by exists g1, q, tail. }
              done.
Qed.

Lemma match_lit_app p its rest :
  match_here (map Lit p ++ its) (string_of_list_ascii p +:+ rest) =
  h ← match_here its rest; Some {| group1 := group1 h; span := length p + span h |}.
Proof.
  induction p as [| c p IH].
  - change (match_here its rest = h ← match_here its rest;
              Some {| group1 := group1 h; span := span h |}).
    by destruct (match_here its rest) as [[] |].
  - change (match_here (map Lit (c :: p) ++ its) (string_of_list_ascii (c :: p) +:+ rest))
      with (if Ascii.eqb c c then
              h ← match_here (map Lit p ++ its) (string_of_list_ascii p +:+ rest);
              Some {| group1 := group1 h; span := S (span h) |}
            else None).
    rewrite Ascii.eqb_refl, IH. by destruct (match_here its rest) as [[] |].
Qed.

Lemma match_lit_inv p its text h :
  match_here (map Lit p ++ its) text = Some h ->
  exists rest, text = string_of_list_ascii p +:+ rest.
Proof.
  revert text h. induction p as [| c p IH]; intros text h; simpl.
  - by exists text.
  - destruct text as [| c' text]; [done |].
    destruct (Ascii.eqb_spec c c') as [<- |]; [| done].
    destruct (match_here _ text) as [h' |] eqn:Hm; [| done].
    intros _. apply IH in Hm as [rest ->]. by exists rest.
Qed.

Lemma match_attribute_value rest h :
  match_here [One is_quote; Plus true (fun c => negb (is_quote c)); One is_quote] rest
    = Some h <->
  exists q1 q2 g tail,
    is_quote q1 = true /\ is_quote q2 = true /\ g <> EmptyString /\ quote_free g = true
    /\ rest = String q1 (g +:+ String q2 tail)
    /\ h = {| group1 := g; span := S (S (String.length g)) |}.
Proof.
  rewrite match_one_cons. destruct rest as [| q1 rest].
  { split; [done | by intros (? & ? & ? & ? & _ & _ & _ & _ & ? & _)]. }
  destruct (is_quote q1) eqn:Hq1; cycle 1.
  { split; [done |]. intros (? & ? & ? & ? & Hq & _ & _ & _ & [= <- _] & _). congruence. }
  rewrite match_plus_cons.
  destruct rest as [| c rest]; cbn [mbind option_bind].
  { split; [done |]. intros (? & ? & g & ? & _ & _ & ? & _ & [= _ Hs] & _). by destruct g. }
  destruct (is_quote c) eqn:Hc; cbn [negb mbind option_bind].
  { split; [done |]. intros (? & ? & g & ? & _ & _ & Hne & Hg & [= _ Hs] & _).
    destruct g as [| c' g]; [done |]. injection Hs as <- _. simpl in Hg.
    rewrite Hc in Hg. done. }
  destruct (more true _ _ rest) as [h0 |] eqn:Hmore; cbn [mbind option_bind option_map].
  - apply more_until_quote in Hmore as (g & q2 & tail & -> & Hg & Hq2 & ->). split.
    + intros [= <-]. exists q1, q2, (String c g), tail. simpl. rewrite Hc, Hg. done.
    + intros (q1' & q2' & g' & tail' & _ & Hq2' & Hne & Hg' & [= <- Hs] & ->).
      destruct g' as [| c' g']; [done |]. injection Hs as <- Hs. simpl in Hg'.
      apply andb_prop in Hg' as [_ Hg'].
      assert (more true (fun c => negb (is_quote c)) (match_here [One is_quote])
                (g +:+ String q2 tail)
              = Some {| group1 := g; span := S (String.length g) |}) as H1.
      { apply more_until_quote. by exists g, q2, tail. }
      assert (more true (fun c => negb (is_quote c)) (match_here [One is_quote])
                (g +:+ String q2 tail)
              = Some {| group1 := g'; span := S (String.length g') |}) as H2.
      { apply more_until_quote. by exists g', q2', tail'. }
      rewrite H1 in H2. injection H2 as ->. done.
  - split; [done |].
    intros (q1' & q2' & g' & tail' & _ & Hq2' & Hne & Hg' & [= <- Hs] & ->).
    destruct g' as [| c' g']; [done |]. injection Hs as <- Hs. simpl in Hg'.
    apply andb_prop in Hg' as [_ Hg'].
    assert (more true (fun c => negb (is_quote c)) (match_here [One is_quote]) rest
            = Some {| group1 := g'; span := S (String.length g') |}) as H2.
    { apply more_until_quote. by exists g', q2', tail'. }
    congruence.
Qed.

Lemma match_viewBox text h :
  match_here viewBox_re text = Some h -> attribute_at text (group1 h).
Proof.
  intros Hm. destruct (match_lit_inv _ _ _ _ Hm) as [rest ->].
  unfold viewBox_re, lit in Hm. rewrite match_lit_app in Hm.
  destruct (match_here _ rest) as [h' |] eqn:Hrest; [| done].
  injection Hm as <-.
  apply match_attribute_value in Hrest
    as (q1 & q2 & g & tail & Hq1 & Hq2 & Hne & Hg & -> & ->).
  by exists q1, q2, tail.
Qed.

Lemma viewBox_matches text g :
  attribute_at text g -> exists h, match_here viewBox_re text = Some h /\ group1 h = g.
Proof.
  intros (q1 & q2 & tail & Hq1 & Hq2 & Hne & Hg & ->).
  unfold viewBox_re, lit.
  change "viewBox=" with (string_of_list_ascii (list_ascii_of_string "viewBox=")).
  rewrite match_lit_app.
  rewrite (proj2 (match_attribute_value _ {| group1 := g; span := S (S (String.length g)) |})).
  - by eexists.
  - by exists q1, q2, g, tail.
Qed.

Lemma search_some its s h :
  search its s = Some h ->
  exists pre rest,
    s = pre +:+ rest /\ match_here its rest = Some h
    /\ forall pre' rest', s = pre' +:+ rest' ->
         (String.length pre' < String.length pre)%nat -> match_here its rest' = None.
Proof.
  induction s as [| c s IH]; cbn [search].
  - destruct (match_here its "") as [h0 |] eqn:Hm; [| done].
    intros [= ->]. exists "", "". repeat split; [done |]. simpl. lia.
  - destruct (match_here its (String c s)) as [h0 |] eqn:Hm.
    + intros [= ->]. exists "", (String c s). repeat split; [done |]. simpl. lia.
    + intros (pre & rest & -> & Hrest & Hfirst)%IH.
      exists (String c pre), rest. repeat split; [done |].
      intros [| c' pre'] rest' Heq Hlen.
      * rewrite append_nil_l in Heq. by subst rest'.
      * rewrite append_cons in Heq. injection Heq as <- Heq.
        apply (Hfirst pre'); [done | simpl in Hlen; lia].
Qed.

Lemma search_none its s :
  search its s = None ->
  forall pre rest, s = pre +:+ rest -> match_here its rest = None.
Proof.
  induction s as [| c s IH]; cbn [search].
  - destruct (match_here its "") as [h0 |] eqn:Hm; [done |].
    intros _ [| ? ?] rest Heq.
    + rewrite append_nil_l in Heq. by subst rest.
    + by rewrite append_cons in Heq.
  - destruct (match_here its (String c s)) as [h0 |] eqn:Hm; [done |].
    intros Hs [| c' pre] rest Heq.
    + rewrite append_nil_l in Heq. by subst rest.
    + rewrite append_cons in Heq. injection Heq as <- ->. by apply (IH Hs pre).
Qed.

Lemma search_first its pre rest h :
  match_here its rest = Some h ->
  (forall pre' rest', pre +:+ rest = pre' +:+ rest' ->
     (String.length pre' < String.length pre)%nat -> match_here its rest' = None) ->
  search its (pre +:+ rest) = Some h.
Proof.
  intros Hm. induction pre as [| c pre IH]; intros Hfirst.
  - rewrite append_nil_l. destruct rest; cbn [search]; by rewrite Hm.
  - rewrite append_cons. cbn [search].
    rewrite (Hfirst "" (String c (pre +:+ rest))); [| done | simpl; lia].
    apply IH. intros pre' rest' Heq Hlen.
    apply (Hfirst (String c pre')); [by rewrite !append_cons, Heq | simpl; lia].
Qed.

End ReFacts.

(** ** The transform calculator *)

Section Transform_properties.

Context `{Externals}.

Lemma calculate_transform_viewbox_eq svg_content units_per_em advance_width special_x
    x y width height :
  get_svg_viewbox svg_content = Some [x; y; width; height] ->
  calculate_transform svg_content units_per_em advance_width special_x =
    (em ← Py.float_of_int units_per_em;
     by_width ← Py.float_div em width;
     by_height ← Py.float_div em height;
     advance ← Py.float_of_int (centering_width units_per_em advance_width);
     offset ← Py.as_float special_x;
     let s := (Py.min by_width by_height * 0.7)%float in
     Ok {| xx := s; xy := 0; yx := 0; yy := (- s)%float;
           dx := (((advance - width) / 2 - x + offset) * s)%float;
           dy := (em * 0.3 + (y + height / 2) * s)%float |}).
Proof.
  intros Hbox. unfold calculate_transform. rewrite Hbox.
  destruct (Py.float_of_int units_per_em) as [em |]; [| done]. cbn [mbind result_bind].
  destruct (Py.float_div em width) as [bw |]; [| done]. cbn [mbind result_bind].
  destruct (Py.float_div em height) as [bh |]; [| done]. cbn [mbind result_bind].
  fold (centering_width units_per_em advance_width).
  destruct (Py.float_of_int (centering_width _ _)) as [adv |]; [| done].
  cbn [mbind result_bind].
  destruct (Py.as_float special_x) as [off |]; [| done]. cbn [mbind result_bind].
  by rewrite FloatFacts.sub_mul_opp.
Qed.

Lemma calculate_transform_fallback_eq svg_content units_per_em advance_width special_x :
  get_svg_viewbox svg_content = None \/ get_svg_viewbox svg_content = Some [] ->
  calculate_transform svg_content units_per_em advance_width special_x =
    (em ← Py.float_of_int units_per_em;
     translate_x ← Py.int_true_div (advance_width - 700) 2;
     Ok {| xx := (0.7 * em / 1000)%float; xy := 0; yx := 0;
           yy := (- (0.7 * em / 1000))%float;
           dx := translate_x; dy := (em * 0.45)%float |}).
Proof. intros [Hbox | Hbox]; unfold calculate_transform; by rewrite Hbox. Qed.

(** C6. Whatever the SVG text, the units per em, the advance width and
    the x-offset, a transform that [calculate_transform] returns has its
    Y-scale equal to the negation of its X-scale and both skew components
    equal to [0]. *)
Theorem transform_is_a_flip svg_content units_per_em advance_width special_x t :
  calculate_transform svg_content units_per_em advance_width special_x = Ok t ->
  yy t = (- xx t)%float /\ xy t = 0 /\ yx t = 0.
Proof.
  unfold calculate_transform.
  destruct (get_svg_viewbox svg_content) as [[| x [| y [| width [| height [| ? ?]]]]] |];
    try done.
  all: destruct (Py.float_of_int units_per_em) as [em |]; [| done]; cbn [mbind result_bind].
  2: { destruct (Py.float_div em width) as [bw |]; [| done]. cbn [mbind result_bind].
       destruct (Py.float_div em height) as [bh |]; [| done]. cbn [mbind result_bind].
       destruct (Py.float_of_int _) as [adv |]; [| done]. cbn [mbind result_bind].
       destruct (Py.as_float special_x) as [off |]; [| done]. cbn [mbind result_bind].
       by intros [= <-]. }
  all: destruct (Py.int_true_div _ 2) as [tx |]; [| done]; cbn [mbind result_bind].
  all: by intros [= <-].
Qed.

(** C5. For an SVG in which no viewBox is found, and int arguments that
    fit a float, [calculate_transform] returns [(s, 0, 0, -s, tx, ty)] with
    [s = 0.7 * unitsPerEm / 1000], [tx = (advanceWidth - 700) / 2] (no
    x-offset, not scaled by [s]) and [ty = unitsPerEm * 0.45]. *)
Theorem fallback_transform svg_content units_per_em advance_width special_x em tx :
  get_svg_viewbox svg_content = None ->
  Py.float_of_int units_per_em = Ok em ->
  Py.int_true_div (advance_width - 700) 2 = Ok tx ->
  calculate_transform svg_content units_per_em advance_width special_x =
    Ok {| xx := (0.7 * em / 1000)%float; xy := 0; yx := 0;
          yy := (- (0.7 * em / 1000))%float;
          dx := tx; dy := (em * 0.45)%float |}.
Proof.
  intros Hbox Hem Htx. rewrite calculate_transform_fallback_eq by auto.
  by rewrite Hem, Htx.
Qed.

(** C4, amended. For a viewBox [(x, y, width, height)] with positive
    width and height, [calculate_transform] returns [(s, 0, 0, -s, tx, ty)]
    with [s = min(unitsPerEm/width, unitsPerEm/height) * 0.7],
    [tx = ((A - width)/2 - x + xOffset) * s] and
    [ty = unitsPerEm * 0.3 + (y + height/2) * s], where [A] is the advance
    width, or the units per em when the advance width is [0]; and [s] is
    strictly positive when the units per em are at least 1, whatever their
    size, and the width and height are finite. *)
Theorem viewbox_transform svg_content units_per_em advance_width special_x
    x y width height em advance offset :
  get_svg_viewbox svg_content = Some [x; y; width; height] ->
  (0 <? width)%float = true -> (0 <? height)%float = true ->
  Py.float_of_int units_per_em = Ok em ->
  Py.float_of_int (centering_width units_per_em advance_width) = Ok advance ->
  Py.as_float special_x = Ok offset ->
  let s := (Py.min (em / width) (em / height) * 0.7)%float in
  calculate_transform svg_content units_per_em advance_width special_x =
    Ok {| xx := s; xy := 0; yx := 0; yy := (- s)%float;
          dx := (((advance - width) / 2 - x + offset) * s)%float;
          dy := (em * 0.3 + (y + height / 2) * s)%float |}
  /\ (1 <= units_per_em ->
      (width <? infinity)%float = true -> (height <? infinity)%float = true ->
      (0 <? s)%float = true).
Proof.
  intros Hbox Hw Hh Hem Hadv Hoff s. split.
  - rewrite (calculate_transform_viewbox_eq _ _ _ _ _ _ _ _ Hbox), Hem.
    cbn [mbind result_bind].
    assert (Hdiv : forall w, (0 <? w)%float = true -> Py.float_div em w = Ok (em / w)%float).
    { intros w Hpos. unfold Py.float_div.
      destruct (w =? 0)%float eqn:Hz; [| done].
      rewrite FloatAxioms.eqb_spec in Hz. rewrite FloatAxioms.ltb_spec in Hpos.
      change (Prim2SF 0) with (S754_zero false) in *.
      destruct (Prim2SF w) as [[] | [] | | [] ? ?]; done. }
    rewrite !Hdiv by done. cbn [mbind result_bind].
    by rewrite Hadv, Hoff.
  - intros Hupm Hwf Hhf.
    pose proof (FloatFacts.float_of_int_positive units_per_em em Hupm Hem) as Hreach.
    by apply FloatFacts.scale_factor_positive.
Qed.

End Transform_properties.

(** ** The viewBox scanner *)

Section Viewbox_properties.

Context `{Externals}.

Lemma search_finds_first_attribute svg h :
  Re.search viewBox_re svg = Some h -> first_attribute svg (Re.group1 h).
Proof.
  intros (pre & rest & -> & Hm & Hfirst)%ReFacts.search_some.
  exists pre, rest. repeat split; [by apply ReFacts.match_viewBox |].
  intros pre' rest' g' Heq Hlen (h' & Hm' & _)%ReFacts.viewBox_matches.
  rewrite (Hfirst pre' rest' Heq Hlen) in Hm'. done.
Qed.

Lemma first_attribute_is_found svg g :
  first_attribute svg g ->
  exists h, Re.search viewBox_re svg = Some h /\ Re.group1 h = g.
Proof.
  intros (pre & rest & -> & (h & Hm & Hg)%ReFacts.viewBox_matches & Hfirst).
  exists h. split; [| done]. apply ReFacts.search_first; [done |].
  intros pre' rest' Heq Hlen.
  destruct (Re.match_here viewBox_re rest') as [h' |] eqn:Hm'; [| done].
  apply ReFacts.match_viewBox in Hm'.
  by destruct (Hfirst pre' rest' (Re.group1 h') Heq Hlen).
Qed.

Lemma no_attribute_is_not_found svg :
  (forall pre rest g, svg = pre +:+ rest -> ~ attribute_at rest g) ->
  Re.search viewBox_re svg = None.
Proof.
  intros Hnone. destruct (Re.search viewBox_re svg) as [h |] eqn:Hs; [| done].
  apply search_finds_first_attribute in Hs as (pre & rest & Heq & Hat & _).
  by destruct (Hnone pre rest (Re.group1 h) Heq).
Qed.

(** C8. [get_svg_viewbox] never raises. When the text holds no viewBox
    attribute the result is not-found; otherwise, with [g] the value of the
    first attribute in the text, the result is the list of the floats of
    the whitespace-separated tokens of [g]: the four numbers, in order,
    when there are four tokens that all parse, and not-found as soon as
    one token does not parse. *)
Theorem viewbox_extraction svg_content :
  ((forall pre rest g, svg_content = pre +:+ rest -> ~ attribute_at rest g) ->
     get_svg_viewbox svg_content = None)
  /\ forall g, first_attribute svg_content g ->
       get_svg_viewbox svg_content = mapM float_of_str (Py.split g)
       /\ (forall a b c d x y width height,
             Py.split g = [a; b; c; d] ->
             float_of_str a = Some x -> float_of_str b = Some y ->
             float_of_str c = Some width -> float_of_str d = Some height ->
             get_svg_viewbox svg_content = Some [x; y; width; height])
       /\ (forall token,
             token ∈ Py.split g -> float_of_str token = None ->
             get_svg_viewbox svg_content = None).
Proof.
  split.
  - intros Hnone%no_attribute_is_not_found. unfold get_svg_viewbox. by rewrite Hnone.
  - intros g (h & Hs & <-)%first_attribute_is_found.
    assert (Hget : get_svg_viewbox svg_content
                   = mapM float_of_str (Py.split (Re.group1 h))).
    { unfold get_svg_viewbox, parse_floats. rewrite Hs. by destruct (mapM _ _). }
    split; [done |]. rewrite Hget. split.
    + intros a b c d x y width height -> Ha Hb Hc Hd.
      cbn. by rewrite Ha, Hb, Hc, Hd.
    + intros token Hin Hfail. apply mapM_None. apply Exists_exists. by exists token.
Qed.

End Viewbox_properties.

(** ** The batch driver *)

Section Driver_properties.

Context `{Externals}.

(** Unfolds the monad's operations in the goal and the hypotheses. *)
Ltac unfold_M :=
  cbv [mbind mret M_bind M_ret lift raise print get_font set_font table
       try_except save write_font glyf_setitem hmtx_setitem cmap_update] in *.

Ltac step_M :=
  repeat (simplify_eq/=; try case_match).

Lemma outline_of_request_state units_per_em r s s' res :
  outline_of_request units_per_em r s = (s', res) ->
  font s' = font s /\ saved s' = saved s
  /\ exists lines, stdout s' = stdout s ++ lines
       /\ forall name width, AddedGlyph name width ∉ lines.
Proof.
  unfold outline_of_request. unfold_M. intros Hrun.
  assert (Hnot : forall l : list message,
    Forall (fun m => forall name width, m <> AddedGlyph name width) l ->
    forall name width, AddedGlyph name width ∉ l).
  { intros l Hl name width Hin. rewrite Forall_forall in Hl. by eapply Hl. }
  step_M; (split; [done |]; split; [done |]);
    rewrite <- ?app_assoc; eexists; (split; [reflexivity |]);
    apply Hnot; repeat constructor; done.
Qed.

Lemma insert_glyph_state r width glyph s s' res :
  insert_glyph r width glyph s = (s', res) ->
  saved s' = saved s
  /\ (glyphOrder (font s') = glyphOrder (font s)
      \/ ((glyph_name r ∉ glyphOrder (font s))
          /\ glyphOrder (font s') = glyphOrder (font s) ++ [glyph_name r]))
  /\ ((stdout s' = stdout s /\ exists e, res = Raise e)
      \/ (stdout s' = stdout s ++ [AddedGlyph (glyph_name r) width]
          /\ res = Ok tt
          /\ glyph_name r ∈ glyphOrder (font s')
          /\ hmtx (font s') ≫= (.!! glyph_name r) = Some (width, 0)
          /\ is_Some (int_of_hex (unicode_hex r)))).
Proof.
  unfold insert_glyph, in_order. unfold_M. intros Hrun.
  step_M;
    repeat match goal with
           | H : bool_decide _ = true |- _ => apply bool_decide_eq_true in H
           | H : bool_decide _ = false |- _ => apply bool_decide_eq_false in H
           end;
    (split; [done |]); (split; [by auto |]);
    try (left; split; [done | by eexists]).
  all: right; repeat split; try done; try (by rewrite lookup_insert_eq).
  all: set_solver.
Qed.

Lemma process_request_saved units_per_em r s s' res :
  process_request units_per_em r s = (s', res) -> saved s' = saved s.
Proof.
  unfold process_request. cbv [mbind M_bind mret M_ret].
  destruct (outline_of_request units_per_em r s) as [s1 [[[width glyph] |] |]] eqn:Hout;
    apply outline_of_request_state in Hout as (_ & Hsaved & _).
  - intros (Hs & _)%insert_glyph_state. congruence.
  - intros [= <- _]. done.
  - intros [= <- _]. done.
Qed.

Lemma for_each_saved units_per_em rs : forall s s' res,
  for_each (process_request units_per_em) rs s = (s', res) -> saved s' = saved s.
Proof.
  induction rs as [| r rs IH]; intros s s' res; cbn [for_each].
  - by intros [= <- _].
  - cbv [mbind M_bind].
    destruct (process_request units_per_em r s) as [s1 [[] |]] eqn:Hr;
      apply process_request_saved in Hr.
    + intros Hrest%IH. congruence.
    + intros [= <- _]. done.
Qed.

Lemma prepare_state s s' res :
  prepare s = (s', res) ->
  saved s' = saved s
  /\ stdout s' = stdout s ++ [FontUnitsPerEm (unitsPerEm (font s))]
  /\ glyphOrder (font s') = glyphOrder (font s)
  /\ cmap_tables (font s') = cmap_tables (font s)
  /\ glyf (font s') = Some (default ∅ (glyf (font s)))
  /\ hmtx (font s') = Some (default ∅ (hmtx (font s)))
  /\ (forall units_per_em, res = Ok units_per_em -> units_per_em = unitsPerEm (font s))
  /\ (cmap_tables (font s) = None -> res = Raise (KeyError "cmap"))
  /\ (forall tables, cmap_tables (font s) = Some tables ->
        filter (fun t => isUnicode t = true) tables = [] ->
        res = Raise (ValueError "Font doesn't have Unicode cmap tables")).
Proof.
  unfold prepare. unfold_M. intros Hrun.
  step_M; repeat split; try done;
    try (intros ? [= <-]; done);
    try (intros; simplify_eq/=; congruence);
    repeat match goal with
           | E : hmtx _ = _ |- _ => rewrite E
           | E : glyf _ = _ |- _ => rewrite E
           end; done.
Qed.

(** The end of a run: the save either raises, and nothing is written or
    printed, or writes the font in memory to the one file. *)
Lemma finish_state output_font_path s s' res :
  finish output_font_path s = (s', res) ->
  glyphOrder (font s') = glyphOrder (font s)
  /\ ((res = Ok tt
       /\ stdout s' = stdout s ++ [FontSaved output_font_path]
       /\ saved s' = saved s ++ [(output_font_path, font s')])
      \/ ((exists e, res = Raise e) /\ stdout s' = stdout s /\ saved s' = saved s)).
Proof.
  unfold finish. unfold_M. intros Hrun.
  step_M; (split; [done |]); try (left; by repeat split);
    right; (split; [by eexists | done]).
Qed.

(** A run that ends in an error has saved nothing. *)
Lemma run_raise_saves_nothing output_font_path svg_data_list s s' e :
  run output_font_path svg_data_list s = (s', Raise e) -> saved s' = saved s.
Proof.
  unfold run. cbv [mbind M_bind].
  destruct (prepare s) as [s1 [units_per_em |]] eqn:Hprep;
    apply prepare_state in Hprep as (Hsaved1 & _).
  - destruct (for_each _ svg_data_list s1) as [s2 [[] |]] eqn:Hloop;
      apply for_each_saved in Hloop.
    + intros (_ & [([=] & _) | (_ & _ & Hsaved3)])%finish_state. congruence.
    + intros [= <- _]. congruence.
  - intros [= <- _]. done.
Qed.

Lemma occurrences_app name (l1 l2 : list string) :
  occurrences name (l1 ++ l2) = (occurrences name l1 + occurrences name l2)%nat.
Proof. unfold occurrences. by rewrite filter_app, length_app. Qed.

Lemma occurrences_absent name (l : list string) :
  name ∉ l -> occurrences name l = 0%nat.
Proof.
  unfold occurrences. induction l as [| n l IH]; [done |].
  intros Hnot. rewrite filter_cons. destruct (decide (n = name)) as [-> | _].
  - set_solver.
  - apply IH. set_solver.
Qed.

Lemma occurrences_NoDup name (l : list string) :
  NoDup l -> name ∈ l -> occurrences name l = 1%nat.
Proof.
  induction 1 as [| n l Hn Hl IH]; [set_solver |].
  intros Hin. change (n :: l) with ([n] ++ l). rewrite occurrences_app.
  destruct (decide (n = name)) as [-> | Hne].
  - rewrite (occurrences_absent name l Hn). unfold occurrences.
    rewrite filter_cons. by rewrite decide_True.
  - apply elem_of_cons in Hin as [-> | Hin]; [done |].
    rewrite IH by done. unfold occurrences.
    rewrite filter_cons. by rewrite decide_False.
Qed.

Lemma process_request_appended_once initial units_per_em r s s' res :
  process_request units_per_em r s = (s', res) ->
  appended_once initial s -> appended_once initial s'.
Proof.
  unfold process_request. cbv [mbind M_bind mret M_ret].
  intros Hrun (added & Horder & Hnodup & Hfresh & Hlisted).
  destruct (outline_of_request units_per_em r s) as [s1 [[[width glyph] |] |]] eqn:Hout;
    apply outline_of_request_state in Hout as (Hfont & _ & lines & Hlines & Hnone).
  2, 3: injection Hrun as <- _; exists added; rewrite Hfont; repeat split; try done;
        intros name width; rewrite Hlines, elem_of_app; intros [Hin | Hin];
        [by eapply Hlisted | by apply Hnone in Hin].
  apply insert_glyph_state in Hrun as (_ & Horder' & Hout').
  rewrite Hfont in Horder'.
  assert (Hold : forall name w,
    AddedGlyph name w ∈ stdout s1 -> name ∈ glyphOrder (font s')).
  { intros name w. rewrite Hlines, elem_of_app. intros [Hin | Hin].
    - apply Hlisted in Hin.
      destruct Horder' as [-> | [_ ->]]; [done | apply elem_of_app; by left].
    - by apply Hnone in Hin. }
  assert (Hnew : forall name w,
    AddedGlyph name w ∈ stdout s' -> name ∈ glyphOrder (font s')).
  { destruct Hout' as [[-> _] | (-> & _ & Hin & _)]; [done |].
    intros name w. rewrite elem_of_app, list_elem_of_singleton.
    intros [Hin' | [= -> _]]; [by eapply Hold | done]. }
  destruct Horder' as [Hsame | [Hnot Happ]].
  - exists added. repeat split; try done. by rewrite Hsame.
  - exists (added ++ [glyph_name r]).
    repeat split; try done.
    + by rewrite Happ, Horder, <- app_assoc.
    + apply NoDup_app. repeat split; [done | | apply NoDup_singleton].
      intros name Hin. rewrite list_elem_of_singleton. intros ->.
      apply Hnot. rewrite Horder. apply elem_of_app. by right.
    + intros name. rewrite elem_of_app, list_elem_of_singleton.
      intros [Hin | ->]; [by apply Hfresh |].
      intros Hin. apply Hnot. rewrite Horder. apply elem_of_app. by left.
Qed.

Lemma for_each_appended_once initial units_per_em rs : forall s s' res,
  for_each (process_request units_per_em) rs s = (s', res) ->
  appended_once initial s -> appended_once initial s'.
Proof.
  induction rs as [| r rs IH]; intros s s' res; cbn [for_each].
  - by intros [= <- _].
  - cbv [mbind M_bind].
    destruct (process_request units_per_em r s) as [s1 [[] |]] eqn:Hr; intros Hrun Hinv;
      apply (process_request_appended_once initial) in Hr; try done.
    + by eapply IH.
    + by injection Hrun as <- _.
Qed.

Lemma run_appended_once output_font_path svg_data_list s s' res :
  stdout s = [] ->
  run output_font_path svg_data_list s = (s', res) ->
  appended_once (glyphOrder (font s)) s'.
Proof.
  intros Hquiet. unfold run. cbv [mbind M_bind].
  destruct (prepare s) as [s1 [units_per_em |]] eqn:Hprep;
    apply prepare_state in Hprep as (_ & Hout1 & Horder1 & _).
  all: assert (Hinv1 : appended_once (glyphOrder (font s)) s1)
    by (exists []; rewrite Horder1, Hout1, Hquiet, app_nil_r;
        repeat split; [apply NoDup_nil_2 | set_solver | ];
        intros name width [= ]%list_elem_of_singleton).
  - destruct (for_each _ svg_data_list s1) as [s2 [[] |]] eqn:Hloop;
      apply (for_each_appended_once (glyphOrder (font s))) in Hloop; try done.
    + intros (Hf & Hend)%finish_state.
      destruct Hloop as (added & Horder & Hnodup & Hfresh & Hlisted).
      exists added. rewrite Hf. repeat split; try done.
      intros name width.
      destruct Hend as [(_ & -> & _) | (_ & -> & _)]; [| by eapply Hlisted].
      rewrite elem_of_app, list_elem_of_singleton.
      intros [Hin | [= ]]. by eapply Hlisted.
    + by intros [= <- _].
  - by intros [= <- _].
Qed.

(** What a run has saved: nothing, or the font it ends with. *)
Lemma run_saved output_font_path svg_data_list s s' res :
  saved s = [] ->
  run output_font_path svg_data_list s = (s', res) ->
  (saved s' = [] /\ exists e, res = Raise e)
  \/ (saved s' = [(output_font_path, font s')] /\ res = Ok tt).
Proof.
  intros Hnone. destruct res as [[] | e].
  - unfold run. cbv [mbind M_bind].
    destruct (prepare s) as [s1 [units_per_em |]] eqn:Hprep; [| done].
    apply prepare_state in Hprep as (Hsaved1 & _).
    destruct (for_each _ svg_data_list s1) as [s2 [[] |]] eqn:Hloop; [| done].
    apply for_each_saved in Hloop.
    intros (_ & [(_ & _ & Hsaved3) | ([e [=]] & _)])%finish_state.
    right. by rewrite Hsaved3, Hloop, Hsaved1, Hnone.
  - intros Hrun%run_raise_saves_nothing. left. split; [congruence | by eexists].
Qed.

Lemma no_unicode_subtable (tables : list CmapSubtable) :
  Forall (fun t => isUnicode t = false) tables ->
  filter (fun t => isUnicode t = true) tables = [].
Proof.
  induction 1 as [| t l Ht Hl IH]; [done |].
  by rewrite filter_cons, decide_False by congruence.
Qed.

Lemma glyph_order_appended_once input_font output_font_path svg_data_list :
  appended_once (glyphOrder input_font)
    (fst (add_svg_glyphs_to_font input_font output_font_path svg_data_list)).
Proof.
  unfold add_svg_glyphs_to_font.
  destruct (run _ _ _) as [s' res] eqn:Hrun.
  by apply run_appended_once in Hrun.
Qed.

Lemma listed_at_most_once input_font output_font_path svg_data_list name :
  (occurrences name (glyphOrder input_font) <= 1)%nat ->
  (occurrences name
     (glyphOrder (font (fst (add_svg_glyphs_to_font input_font output_font_path
                               svg_data_list)))) <= 1)%nat
  /\ (name ∈ glyphOrder (font (fst (add_svg_glyphs_to_font input_font output_font_path
                                     svg_data_list))) ->
      occurrences name
        (glyphOrder (font (fst (add_svg_glyphs_to_font input_font output_font_path
                                  svg_data_list)))) = 1%nat).
Proof.
  intros Hle.
  destruct (glyph_order_appended_once input_font output_font_path svg_data_list)
    as (added & Horder & Hnodup & Hfresh & _).
  rewrite Horder, occurrences_app, elem_of_app.
  destruct (decide (name ∈ glyphOrder input_font)) as [Hin | Hnot].
  - rewrite (occurrences_absent name added)
      by (intros Hadded; by apply Hfresh in Hadded).
    split; [lia |]. intros _.
    assert (0 < occurrences name (glyphOrder input_font))%nat; [| lia].
    unfold occurrences.
    assert (Hin' : name ∈ filter (fun n => n = name) (glyphOrder input_font))
      by (by apply list_elem_of_filter).
    destruct (filter _ _); [by apply not_elem_of_nil in Hin' | simpl; lia].
  - rewrite (occurrences_absent _ _ Hnot).
    destruct (decide (name ∈ added)) as [Hin | Hnot'].
    + rewrite (occurrences_NoDup _ _ Hnodup Hin). split; [lia | done].
    + rewrite (occurrences_absent _ _ Hnot'). split; [lia |]. by intros [? | ?].
Qed.

(** C9. After a run, whatever its requests and however it ends, the
    glyph order is the initial one followed by names that were not in it,
    each appended once, and every glyph reported as added is in it; so a
    name that occurred at most once in the initial order occurs exactly
    once in the final order if it occurs at all, also when the same name
    is inserted several times in the run, and also after a further run, on
    the font this one has saved. *)
Theorem glyph_order_is_idempotent input_font output_font_path svg_data_list :
  let s := fst (add_svg_glyphs_to_font input_font output_font_path svg_data_list) in
  appended_once (glyphOrder input_font) s
  /\ (forall name,
        (occurrences name (glyphOrder input_font) <= 1)%nat ->
        name ∈ glyphOrder (font s) ->
        occurrences name (glyphOrder (font s)) = 1%nat)
  /\ (forall path saved_font second_path second_list name,
        (path, saved_font) ∈ saved s ->
        (occurrences name (glyphOrder input_font) <= 1)%nat ->
        let s2 := fst (add_svg_glyphs_to_font saved_font second_path second_list) in
        name ∈ glyphOrder (font s2) ->
        occurrences name (glyphOrder (font s2)) = 1%nat).
Proof.
  intros s. split; [apply glyph_order_appended_once |]. split.
  - intros name Hle. by apply listed_at_most_once.
  - intros path saved_font second_path second_list name Hsaved Hle s2.
    assert (saved_font = font s) as ->.
    { unfold s, add_svg_glyphs_to_font in *.
      destruct (run _ _ _) as [s' res] eqn:Hrun. cbn [fst] in *.
      apply run_saved in Hrun; [| done].
      destruct Hrun as [[Hs _] | [Hs _]]; rewrite Hs in Hsaved.
      - by apply not_elem_of_nil in Hsaved.
      - apply list_elem_of_singleton in Hsaved. by injection Hsaved. }
    apply listed_at_most_once.
    by apply (listed_at_most_once input_font output_font_path svg_data_list).
Qed.

(** C7. If the font has no character map, or none of its subtables is a
    Unicode one, the run ends in an error whatever the requests are: only
    the units-per-em line has been printed, no request has been looked at,
    nothing is saved, and the font in memory differs from the input only
    by the empty outline and metrics tables created when missing. *)
Theorem missing_unicode_cmap_is_fatal input_font output_font_path svg_data_list :
  (forall tables, cmap_tables input_font = Some tables ->
     Forall (fun t => isUnicode t = false) tables) ->
  let s := fst (add_svg_glyphs_to_font input_font output_font_path svg_data_list) in
  snd (add_svg_glyphs_to_font input_font output_font_path svg_data_list) =
    Raise (if cmap_tables input_font is Some _
           then ValueError "Font doesn't have Unicode cmap tables"
           else KeyError "cmap")
  /\ stdout s = [FontUnitsPerEm (unitsPerEm input_font)]
  /\ saved s = []
  /\ glyphOrder (font s) = glyphOrder input_font
  /\ cmap_tables (font s) = cmap_tables input_font
  /\ glyf (font s) = Some (default ∅ (glyf input_font))
  /\ hmtx (font s) = Some (default ∅ (hmtx input_font)).
Proof.
  intros Hnone s. subst s. unfold add_svg_glyphs_to_font, run.
  cbv [mbind M_bind].
  destruct (prepare _) as [s1 res] eqn:Hprep.
  apply prepare_state in Hprep
    as (Hs & Hout & Horder & Hcmap & Hglyf & Hhmtx & _ & Hkey & Hvalue).
  cbn [font stdout saved] in *.
  assert (Hres : res = Raise (if cmap_tables input_font is Some _
                              then ValueError "Font doesn't have Unicode cmap tables"
                              else KeyError "cmap")).
  { destruct (cmap_tables input_font) as [tables |] eqn:Htables; [| by apply Hkey].
    apply (Hvalue tables eq_refl), no_unicode_subtable, Hnone, eq_refl. }
  subst res. cbn [fst snd]. repeat split; done.
Qed.

(** X1. A request whose SVG file is missing is skipped: the two lines are
    printed, the font is untouched and the loop goes on. *)
Theorem missing_file_skips_request units_per_em r s :
  path_exists (svg_file_path r) = false ->
  process_request units_per_em r s =
    ({| font := font s;
        stdout := stdout s ++ [Processing (svg_file_path r) (glyph_name r) (unicode_hex r);
                               FileNotFound (svg_file_path r)];
        saved := saved s |}, Ok tt).
Proof.
  intros Hmissing. unfold process_request, outline_of_request. unfold_M.
  rewrite Hmissing. cbn. by rewrite <- app_assoc.
Qed.

(** X2. An exception raised inside the try block (reading the file,
    computing the transform, reading the SVG) is caught: it is printed, the
    request is skipped with the font untouched, and the loop goes on. *)
Theorem svg_failure_skips_request units_per_em r s width e :
  path_exists (svg_file_path r) = true ->
  (if advance_width r =? 0 then default_advance_width units_per_em = Ok width
   else width = advance_width r) ->
  (read_binary (svg_file_path r) = Raise e
   \/ (exists data,
         read_binary (svg_file_path r) = Ok data
         /\ (calculate_transform (decode_utf8 data) units_per_em width (special_x r)
               = Raise e
             \/ exists t,
                  calculate_transform (decode_utf8 data) units_per_em width (special_x r)
                    = Ok t
                  /\ SVGPath_fromstring
                       (encode_utf8 (clean_svg_content (decode_utf8 data))) t = Raise e))) ->
  exists s',
    process_request units_per_em r s = (s', Ok tt)
    /\ font s' = font s /\ saved s' = saved s
    /\ last (stdout s') = Some (ErrorProcessing e).
Proof.
  intros Hexists Hwidth Hfail.
  unfold process_request, outline_of_request, default_advance_width in *.
  cbv [mbind mret M_bind M_ret lift raise print get_font set_font try_except] in *.
  rewrite Hexists. cbn [negb].
  destruct (advance_width r =? 0); [rewrite Hwidth | subst width];
    cbn [font stdout saved];
    (destruct Hfail as [Hread | (data & Hread & [Hcalc | (t & Hcalc & Hsvg)])];
     rewrite Hread; cbn [font stdout saved]; rewrite ?Hcalc; cbn [font stdout saved];
     rewrite ?Hsvg; cbn [font stdout saved];
     (eexists; split; [reflexivity |]); cbn [font stdout saved];
     repeat split; by rewrite last_snoc).
Qed.

(** C2. What the claim says does not hold of an exception raised while the
    outline is produced: when a request has passed the try block (its file
    is read, its transform computed, its SVG read) and drawing its outline
    raises, the exception is not caught: the loop ends there with that
    exception, the requests after it are never looked at, and nothing is
    saved. *)
Theorem outline_failure_is_not_caught units_per_em r later s width data t svg_path e :
  path_exists (svg_file_path r) = true ->
  (if advance_width r =? 0 then default_advance_width units_per_em = Ok width
   else width = advance_width r) ->
  read_binary (svg_file_path r) = Ok data ->
  calculate_transform (decode_utf8 data) units_per_em width (special_x r) = Ok t ->
  SVGPath_fromstring (encode_utf8 (clean_svg_content (decode_utf8 data))) t = Ok svg_path ->
  draw_glyph (font s) svg_path = Raise e ->
  for_each (process_request units_per_em) (r :: later) s =
    ({| font := font s;
        stdout := stdout s ++ [Processing (svg_file_path r) (glyph_name r) (unicode_hex r);
                               UsingTransform t];
        saved := saved s |}, Raise e).
Proof.
  intros Hexists Hwidth Hread Hcalc Hsvg Hdraw.
  cbn [for_each].
  unfold process_request, outline_of_request, default_advance_width in *.
  cbv [mbind mret M_bind M_ret lift raise print get_font set_font try_except] in *.
  rewrite Hexists. cbn [negb].
  destruct (advance_width r =? 0); [rewrite Hwidth | subst width];
    cbn [font stdout saved]; rewrite Hread; cbn [font stdout saved];
    rewrite Hcalc; cbn [font stdout saved]; rewrite Hsvg; cbn [font stdout saved];
    rewrite Hdraw; by rewrite <- app_assoc.
Qed.

Lemma insert_glyph_malformed_hex r width glyph s :
  int_of_hex (unicode_hex r) = None ->
  exists e, snd (insert_glyph r width glyph s) = Raise e.
Proof.
  intros Hhex. destruct (insert_glyph r width glyph s) as [s' res] eqn:Hrun.
  apply insert_glyph_state in Hrun as (_ & _ & [[_ He] | (_ & _ & _ & _ & Hsome)]).
  - done.
  - rewrite Hhex in Hsome. by destruct Hsome.
Qed.

Lemma for_each_raises units_per_em bad rs :
  bad ∈ rs ->
  (forall s, exists e, snd (process_request units_per_em bad s) = Raise e) ->
  forall s, exists e, snd (for_each (process_request units_per_em) rs s) = Raise e.
Proof.
  intros Hin Hbad. induction rs as [| r rs IH]; [set_solver |].
  intros s. cbn [for_each]. cbv [mbind M_bind].
  apply elem_of_cons in Hin as [<- | Hin].
  - destruct (Hbad s) as [e He].
    destruct (process_request units_per_em bad s) as [s1 [[] |]]; [done | by eexists].
  - destruct (process_request units_per_em r s) as [s1 [[] |]]; [by apply IH | by eexists].
Qed.

(** A request whose file, transform, SVG and outline all succeed gets as
    far as the writes to the font, in every state. *)
Lemma outline_of_request_reached units_per_em r width data t svg_path glyph :
  path_exists (svg_file_path r) = true ->
  (if advance_width r =? 0 then default_advance_width units_per_em = Ok width
   else width = advance_width r) ->
  read_binary (svg_file_path r) = Ok data ->
  calculate_transform (decode_utf8 data) units_per_em width (special_x r) = Ok t ->
  SVGPath_fromstring (encode_utf8 (clean_svg_content (decode_utf8 data))) t = Ok svg_path ->
  (forall f, draw_glyph f svg_path = Ok glyph) ->
  forall s, exists s' outline,
    outline_of_request units_per_em r s = (s', Ok (Some outline)).
Proof.
  intros Hexists Hwidth Hread Hcalc Hsvg Hdraw s.
  unfold outline_of_request, default_advance_width in *.
  cbv [mbind mret M_bind M_ret lift raise print get_font set_font try_except] in *.
  rewrite Hexists. cbn [negb].
  destruct (advance_width r =? 0).
  - rewrite Hwidth, Hread. cbn [font stdout saved]. rewrite Hcalc.
    cbn [font stdout saved]. rewrite Hsvg. cbn [font stdout saved]. rewrite Hdraw.
    destruct (has_points glyph); by eexists _, _.
  - subst width. rewrite Hread. cbn [font stdout saved]. rewrite Hcalc.
    cbn [font stdout saved]. rewrite Hsvg. cbn [font stdout saved]. rewrite Hdraw.
    destruct (has_points glyph); by eexists _, _.
Qed.

(** C10, amended. If some request of the batch has a malformed hex string
    and is one that gets as far as the writes to the font (its file
    exists, and its transform, its SVG and its outline are produced), the
    run ends in an uncaught error and no font is saved. *)
Theorem malformed_hex_aborts_the_run input_font output_font_path svg_data_list bad :
  bad ∈ svg_data_list ->
  int_of_hex (unicode_hex bad) = None ->
  (forall s, exists s' outline,
     outline_of_request (unitsPerEm input_font) bad s = (s', Ok (Some outline))) ->
  exists e,
    snd (add_svg_glyphs_to_font input_font output_font_path svg_data_list) = Raise e
    /\ saved (fst (add_svg_glyphs_to_font input_font output_font_path svg_data_list)) = [].
Proof.
  intros Hin Hhex Hreach.
  assert (Hraise : exists e,
    snd (add_svg_glyphs_to_font input_font output_font_path svg_data_list) = Raise e).
  { unfold add_svg_glyphs_to_font, run. cbv [mbind M_bind].
    destruct (prepare _) as [s1 [units_per_em |]] eqn:Hprep; [| by eexists].
    apply prepare_state in Hprep as (_ & _ & _ & _ & _ & _ & Hupm & _).
    rewrite (Hupm units_per_em eq_refl). cbn [font].
    destruct (for_each_raises (unitsPerEm input_font) bad svg_data_list Hin) with (s := s1)
      as [e He].
    - intros s. unfold process_request. cbv [mbind M_bind].
      destruct (Hreach s) as (s' & [width glyph] & ->).
      apply insert_glyph_malformed_hex, Hhex.
    - destruct (for_each _ svg_data_list s1) as [s2 [[] |]]; [done | by eexists]. }
  destruct Hraise as [e He]. exists e. split; [done |].
  unfold add_svg_glyphs_to_font in *.
  destruct (run _ _ _) as [s' res] eqn:Hrun. cbn [fst snd] in *. subst res.
  by apply run_raise_saves_nothing in Hrun.
Qed.

Lemma outline_of_request_success units_per_em r s s' width glyph :
  outline_of_request units_per_em r s = (s', Ok (Some (width, glyph))) ->
  path_exists (svg_file_path r) = true
  /\ (if advance_width r =? 0 then default_advance_width units_per_em = Ok width
      else width = advance_width r)
  /\ exists data t svg_path,
       read_binary (svg_file_path r) = Ok data
       /\ calculate_transform (decode_utf8 data) units_per_em width (special_x r) = Ok t
       /\ SVGPath_fromstring (encode_utf8 (clean_svg_content (decode_utf8 data))) t
          = Ok svg_path
       /\ draw_glyph (font s) svg_path = Ok glyph
       /\ stdout s' =
            stdout s ++ [Processing (svg_file_path r) (glyph_name r) (unicode_hex r);
                         UsingTransform t]
            ++ (if has_points glyph then [] else [NoPointsWarning (svg_file_path r)]).
Proof.
  unfold outline_of_request, default_advance_width. unfold_M. intros Hrun.
  step_M;
    repeat match goal with
           | E : negb _ = false |- _ => apply negb_false_iff in E
           | E : (_ =? _) = true |- _ => rewrite E
           | E : (_ =? _) = false |- _ => rewrite E
           | E : has_points _ = _ |- _ => rewrite E
           end;
    (split; [done |]); (split; [done |]);
    do 3 eexists; repeat split; try done;
    rewrite <- ?app_assoc, ?app_nil_r; done.
Qed.

Lemma all_from_spec depth f : forall lo u,
  all_from depth lo f = true ->
  lo <= u < lo + 2 ^ Z.of_nat depth -> f u = true.
Proof.
  induction depth as [| d IH]; intros lo u; cbn [all_from].
  - intros Hf Hu. change (2 ^ Z.of_nat 0) with 1 in Hu.
    by replace u with lo by lia.
  - intros [Hlow Hhigh]%andb_prop Hu.
    rewrite Nat2Z.inj_succ, Z.pow_succ_r in Hu by lia.
    destruct (Z.lt_ge_cases u (lo + 2 ^ Z.of_nat d)).
    + apply (IH lo); [done | lia].
    + apply (IH (lo + 2 ^ Z.of_nat d)); [done | lia].
Qed.

(** The default advance width over the range of the [head] table's
    16-bit units-per-em field: three fifths, rounded down. *)
Lemma default_advance_width_floor units_per_em :
  0 <= units_per_em <= 65535 ->
  default_advance_width units_per_em = Ok (3 * units_per_em / 5).
Proof.
  intros Hrange.
  assert (Hall : all_from 16 0 default_is_floor = true) by (vm_compute; reflexivity).
  apply (all_from_spec 16 _ 0 units_per_em) in Hall; [| simpl; lia].
  unfold default_is_floor in Hall.
  destruct (default_advance_width units_per_em) as [w |]; [| done].
  apply Z.eqb_eq in Hall. by subst w.
Qed.

(** C3, amended. For a request with advance width [0] whose glyph is
    inserted, the advance width stored in the metrics table is
    [int(unitsPerEm * 0.6)], the product truncated toward zero; for units
    per em between 0 and 65535 that is three fifths of the units per em
    rounded down. *)
Theorem stored_default_width_is_truncated units_per_em r s s1 s2 width glyph :
  advance_width r = 0 ->
  outline_of_request units_per_em r s = (s1, Ok (Some (width, glyph))) ->
  insert_glyph r width glyph s1 = (s2, Ok tt) ->
  hmtx (font s2) ≫= (.!! glyph_name r) = Some (width, 0)
  /\ default_advance_width units_per_em = Ok width
  /\ (0 <= units_per_em <= 65535 -> width = 3 * units_per_em / 5).
Proof.
  intros Hzero Hout Hins.
  apply outline_of_request_success in Hout as (_ & Hwidth & _).
  rewrite Hzero in Hwidth. cbn in Hwidth.
  apply insert_glyph_state in Hins as (_ & _ & [[_ [e [=]]] | (_ & _ & _ & Hhmtx & _)]).
  repeat split; [done | done |].
  intros Hrange%default_advance_width_floor. congruence.
Qed.

(** C1, amended. For a request with advance width [0] that gets as far
    as an outline, the loop has replaced the width by
    [W = int(unitsPerEm * 0.6)] before the transform is computed: the
    transform printed is [calculate_transform] at [W], its [tx] centres in
    [W] (in the units per em only if [W] itself is [0], which it is not for
    units per em from 2 to 65535), and [W] is also the width the metrics
    table gets. *)
Theorem default_width_is_also_centred_in units_per_em r s s1 width glyph :
  advance_width r = 0 ->
  outline_of_request units_per_em r s = (s1, Ok (Some (width, glyph))) ->
  default_advance_width units_per_em = Ok width
  /\ (2 <= units_per_em <= 65535 -> centering_width units_per_em width = width)
  /\ (forall s2, insert_glyph r width glyph s1 = (s2, Ok tt) ->
        hmtx (font s2) ≫= (.!! glyph_name r) = Some (width, 0))
  /\ exists data t,
       read_binary (svg_file_path r) = Ok data
       /\ calculate_transform (decode_utf8 data) units_per_em width (special_x r) = Ok t
       /\ UsingTransform t ∈ stdout s1
       /\ forall x y w h,
            get_svg_viewbox (decode_utf8 data) = Some [x; y; w; h] ->
            exists centre offset,
              Py.float_of_int (centering_width units_per_em width) = Ok centre
              /\ Py.as_float (special_x r) = Ok offset
              /\ dx t = (((centre - w) / 2 - x + offset) * xx t)%float.
Proof.
  intros Hzero Hout.
  apply outline_of_request_success in Hout
    as (_ & Hwidth & data & t & svg_path & Hread & Hcalc & _ & _ & Hlines).
  rewrite Hzero in Hwidth. cbn in Hwidth.
  split; [done |]. split; [| split].
  - intros Hrange. unfold centering_width.
    rewrite default_advance_width_floor in Hwidth by lia.
    injection Hwidth as <-.
    assert (1 <= 3 * units_per_em / 5) by (apply Z.div_le_lower_bound; lia).
    destruct (3 * units_per_em / 5 =? 0) eqn:E; [lia | done].
  - intros s2 Hins.
    by apply insert_glyph_state in Hins
      as (_ & _ & [[_ [e [=]]] | (_ & _ & _ & Hhmtx & _)]).
  - exists data, t. repeat split; [done | done | rewrite Hlines; set_solver |].
    intros x y w h Hbox.
    rewrite (calculate_transform_viewbox_eq _ _ _ _ _ _ _ _ Hbox) in Hcalc.
    destruct (Py.float_of_int units_per_em) as [em |]; [| done].
    cbn [mbind result_bind] in Hcalc.
    destruct (Py.float_div em w) as [bw |]; [| done]. cbn [mbind result_bind] in Hcalc.
    destruct (Py.float_div em h) as [bh |]; [| done]. cbn [mbind result_bind] in Hcalc.
    destruct (Py.float_of_int (centering_width _ _)) as [centre |]; [| done].
    cbn [mbind result_bind] in Hcalc.
    destruct (Py.as_float (special_x r)) as [offset |]; [| done].
    cbn [mbind result_bind] in Hcalc. injection Hcalc as <-.
    by exists centre, offset.
Qed.

End Driver_properties.

(** ** More on the preprocessor, the calculator and the driver *)

(** Unfolds the monad's operations in the goal and the hypotheses. *)
Ltac unfold_M :=
  cbv [mbind mret M_bind M_ret lift raise print get_font set_font table
       try_except save write_font glyf_setitem hmtx_setitem cmap_update] in *.

Ltac step_M :=
  repeat (simplify_eq/=; try case_match).

(** *** Substitution by the empty text *)

Module SubFacts.
Import Re ReFacts.

Lemma append_assoc (a b c : string) : (a +:+ b) +:+ c = a +:+ (b +:+ c).
Proof. induction a as [| x a IH]; [done |]. by rewrite !append_cons, IH. Qed.

Lemma sub_from_sublist its s : forall skip,
  sublist (chars (sub_from its skip s)) (chars s).
Proof.
  induction s as [| c s IH]; intros skip; cbn [sub_from chars list_ascii_of_string].
  - constructor.
  - destruct skip as [| n].
    + destruct (match_here its (String c s)) as [[g [| n]] |];
        try (apply sublist_skip, IH). apply sublist_cons, IH.
    + apply sublist_cons, IH.
Qed.

(** Where no match starts, nothing is dropped. *)
Lemma sub_from_no_match its s :
  (forall pre rest, s = pre +:+ rest -> match_here its rest = None) ->
  sub_from its 0 s = s.
Proof.
  induction s as [| c s IH]; intros Hnone; cbn [sub_from]; [done |].
  rewrite (Hnone "" (String c s) eq_refl). f_equal. apply IH.
  intros pre rest ->. apply (Hnone (String c pre)). by rewrite append_cons.
Qed.

Lemma match_lit_occurs p its text pre rest h :
  text = pre +:+ rest ->
  match_here (map Lit (list_ascii_of_string p) ++ its) rest = Some h ->
  occurs_in p text.
Proof.
  intros -> Hm. apply match_lit_inv in Hm as [tail ->].
  rewrite string_of_list_ascii_of_string. by exists pre, tail.
Qed.

Lemma search_lit_none p text :
  search (lit p) text = None -> ~ occurs_in p text.
Proof.
  intros Hs (pre & rest & ->).
  pose proof (search_none _ _ Hs pre (p +:+ rest) eq_refl) as Hm.
  unfold lit in Hm.
  rewrite <- (app_nil_r (map Lit _)) in Hm.
  rewrite <- (string_of_list_ascii_of_string p) in Hm at 2.
  rewrite match_lit_app in Hm. done.
Qed.

(** After a match, the rest of it is skipped. *)
Lemma sub_from_skip its x y :
  sub_from its (String.length x) (x +:+ y) = sub_from its 0 y.
Proof.
  induction x as [| c x IH]; [| by rewrite append_cons].
  rewrite append_nil_l. by destruct y.
Qed.

(** A text in which no match can start is kept, and the scan goes on
    behind it. *)
Lemma sub_from_keep its (first : ascii) its' pre y :
  its = Lit first :: its' ->
  all_chars (other_than first) pre = true ->
  sub_from its 0 (pre +:+ y) = pre +:+ sub_from its 0 y.
Proof.
  intros -> Hpre. induction pre as [| c pre IH]; [done |].
  cbn [all_chars] in Hpre. apply andb_prop in Hpre as [Hc Hpre].
  rewrite !append_cons. cbn [sub_from]. rewrite match_lit_cons.
  unfold other_than in Hc. rewrite Ascii.eqb_sym in Hc.
  destruct (Ascii.eqb first c); [done |]. by rewrite IH.
Qed.

(** The greedy run of the XML declaration ends before the first [?>]
    when there is no [>] up to there. *)
Lemma more_until_close attrs body :
  all_chars (other_than ">") attrs = true ->
  more false (other_than ">") (match_here (lit "?>")) (attrs +:+ "?>" +:+ body)
  = Some {| group1 := ""; span := String.length attrs + 2 |}.
Proof.
  intros Hfree. induction attrs as [| c attrs IH].
  - rewrite append_nil_l. reflexivity.
  - cbn [all_chars] in Hfree. apply andb_prop in Hfree as [Hc Hfree].
    rewrite append_cons. cbn [more]. rewrite Hc, IH by done. reflexivity.
Qed.

Lemma match_xml_declaration attrs body :
  attrs <> "" -> all_chars (other_than ">") attrs = true ->
  match_here xml_declaration_re ("<?xml" +:+ attrs +:+ "?>" +:+ body)
  = Some {| group1 := ""; span := String.length ("<?xml" +:+ attrs +:+ "?>") |}.
Proof.
  intros Hne Hfree. destruct attrs as [| c attrs]; [done |].
  cbn [all_chars] in Hfree. apply andb_prop in Hfree as [Hc Hfree].
  unfold xml_declaration_re, lit.
  change "<?xml" with (string_of_list_ascii (list_ascii_of_string "<?xml")) at 1.
  rewrite match_lit_app. cbn [app]. rewrite append_cons, match_plus_cons, Hc.
  change (map Lit (list_ascii_of_string "?>")) with (lit "?>").
  rewrite more_until_close by done. cbn [mbind option_bind group1 span].
  do 2 f_equal.
  assert (Hlen : forall a b, String.length (a +:+ b) = (String.length a + String.length b)%nat).
  { intros a b. induction a as [| x a IH]; [done |]. rewrite append_cons. simpl. by rewrite IH. }
  rewrite !Hlen. simpl. lia.
Qed.

End SubFacts.

(** *** The preprocessor *)

Section Preprocessor_properties.
Import Re ReFacts SubFacts.

(** X3. Cleaning only deletes: the characters of the cleaned text are a
    subsequence of those of the text given, so the cleaned text is never
    longer and holds no character that was added, changed or moved. *)
Theorem cleaning_only_deletes svg_content :
  sublist (chars (clean_svg_content svg_content)) (chars svg_content)
  /\ (String.length (clean_svg_content svg_content) <= String.length svg_content)%nat.
Proof.
  assert (Hsub : sublist (chars (clean_svg_content svg_content)) (chars svg_content)).
  { unfold clean_svg_content, sub_empty.
    etrans; apply sub_from_sublist. }
  split; [done |].
  apply sublist_length in Hsub. unfold chars in Hsub.
  assert (Hlen : forall s, length (list_ascii_of_string s) = String.length s).
  { induction s as [| c s IH]; simpl; congruence. }
  by rewrite !Hlen in Hsub.
Qed.

(** X4. An XML declaration, that is [<?xml], one or more characters other
    than [>], and [?>], with no [<] before it in the text, is removed: the
    text is cleaned to what the text without the declaration is cleaned
    to. *)
Theorem xml_declaration_is_removed pre attrs body :
  all_chars (other_than "<") pre = true ->
  attrs <> "" -> all_chars (other_than ">") attrs = true ->
  clean_svg_content (pre +:+ "<?xml" +:+ attrs +:+ "?>" +:+ body)
  = clean_svg_content (pre +:+ body).
Proof.
  intros Hpre Hne Hfree. unfold clean_svg_content, sub_empty. f_equal.
  rewrite !(sub_from_keep xml_declaration_re "<" _ pre) by done.
  f_equal.
  pose proof (match_xml_declaration attrs body Hne Hfree) as Hm.
  remember (String.length _) as n eqn:Hn in Hm.
  change ("<?xml" +:+ attrs +:+ "?>" +:+ body)
    with (String "<" ("?xml" +:+ attrs +:+ "?>" +:+ body)) in *.
  cbn [sub_from]. rewrite Hm.
  change ("<?xml" +:+ attrs +:+ "?>") with (String "<" ("?xml" +:+ attrs +:+ "?>")) in Hn.
  cbn [String.length] in Hn. subst n.
  replace ("?xml" +:+ attrs +:+ "?>" +:+ body) with (("?xml" +:+ attrs +:+ "?>") +:+ body).
  - apply sub_from_skip.
  - by rewrite !append_assoc.
Qed.

(** X5. A text in which neither [<?xml] occurs nor [encoding=] followed
    by a double quote is returned as it is; an encoding attribute in single
    quotes, for one, stays. *)
Theorem unmarked_text_is_unchanged svg_content :
  ~ occurs_in "<?xml" svg_content ->
  ~ occurs_in ("encoding=" +:+ String dquote "") svg_content ->
  clean_svg_content svg_content = svg_content.
Proof.
  intros Hxml Henc. unfold clean_svg_content, sub_empty.
  rewrite (sub_from_no_match xml_declaration_re).
  - apply sub_from_no_match. intros pre rest Heq.
    destruct (match_here encoding_re rest) as [h |] eqn:Hm; [| done].
    destruct Henc.
    by apply (match_lit_occurs _ [Plus false (other_than dquote); Lit dquote] _ pre rest h).
  - intros pre rest Heq.
    destruct (match_here xml_declaration_re rest) as [h |] eqn:Hm; [| done].
    destruct Hxml.
    by apply (match_lit_occurs _ ([Plus false (other_than ">")] ++ lit "?>") _ pre rest h).
Qed.

End Preprocessor_properties.

(** *** The encoding attribute *)

Module EncodingFacts.
Import Re ReFacts SubFacts.

Lemma all_chars_app p (a b : string) :
  all_chars p (a +:+ b) = all_chars p a && all_chars p b.
Proof.
  induction a as [| c a IH]; [done |]. rewrite append_cons. cbn [all_chars].
  by rewrite IH, andb_assoc.
Qed.

(** A stretch of text in which no match starts is kept, and the scan goes
    on behind it. *)
Lemma sub_from_keep_stretch its stretch y :
  (forall a b, stretch = a +:+ b -> b <> "" -> match_here its (b +:+ y) = None) ->
  sub_from its 0 (stretch +:+ y) = stretch +:+ sub_from its 0 y.
Proof.
  induction stretch as [| c stretch IH]; intros Hnone; [done |].
  rewrite !append_cons. cbn [sub_from].
  rewrite <- append_cons, (Hnone "" (String c stretch)) by done.
  rewrite IH; [done |]. intros a b -> Hb. by apply (Hnone (String c a)).
Qed.

(** No XML declaration starts in a stretch without question mark that
    ends in a double quote. *)
Lemma no_declaration_starts stretch y a b :
  all_chars (other_than "?") stretch = true ->
  stretch +:+ String dquote "" = a +:+ b -> b <> "" ->
  match_here xml_declaration_re (b +:+ y) = None.
Proof.
  intros Hfree Heq Hb.
  assert (Hchars : all_chars (other_than "?") (a +:+ b) = true).
  { rewrite <- Heq, all_chars_app, Hfree. reflexivity. }
  rewrite all_chars_app in Hchars. apply andb_prop in Hchars as [_ Hchars].
  destruct b as [| c1 [| c2 b]]; [done | |].
  - assert (c1 = dquote) as ->.
    { clear - Heq. revert a Heq. induction stretch as [| c s IH]; intros [| x a] Heq;
        cbn in Heq; simplify_eq; try done.
      - by destruct a.
      - by destruct s.
      - by eapply IH. }
    reflexivity.
  - cbn [all_chars] in Hchars. apply andb_prop in Hchars as [_ [Hc2 _]%andb_prop].
    rewrite !append_cons. unfold xml_declaration_re.
    change (lit "<?xml") with (Lit "<" :: Lit "?" :: lit "xml").
    cbn [app]. rewrite match_lit_cons.
    destruct (Ascii.eqb "<" c1); [| done]. rewrite match_lit_cons.
    unfold other_than in Hc2. rewrite Ascii.eqb_sym in Hc2.
    by destruct (Ascii.eqb "?" c2).
Qed.

(** The greedy run of the encoding attribute ends at the first double
    quote. *)
Lemma more_until_dquote value rest :
  all_chars (other_than dquote) value = true ->
  more false (other_than dquote) (match_here [Lit dquote]) (value +:+ String dquote rest)
  = Some {| group1 := ""; span := String.length value + 1 |}.
Proof.
  intros Hfree. induction value as [| c value IH].
  - rewrite append_nil_l. reflexivity.
  - cbn [all_chars] in Hfree. apply andb_prop in Hfree as [Hc Hfree].
    rewrite append_cons. cbn [more]. rewrite Hc, IH by done. reflexivity.
Qed.

Lemma length_append (a b : string) :
  String.length (a +:+ b) = (String.length a + String.length b)%nat.
Proof. induction a as [| x a IH]; [done |]. rewrite append_cons. simpl. by rewrite IH. Qed.

Lemma match_encoding value rest :
  value <> "" -> all_chars (other_than dquote) value = true ->
  match_here encoding_re ("encoding=" +:+ String dquote (value +:+ String dquote rest))
  = Some {| group1 := "";
            span := String.length ("encoding=" +:+ String dquote (value +:+ String dquote "")) |}.
Proof.
  intros Hne Hfree. destruct value as [| c value]; [done |].
  cbn [all_chars] in Hfree. apply andb_prop in Hfree as [Hc Hfree].
  unfold encoding_re, lit.
  change "encoding=" with (string_of_list_ascii (list_ascii_of_string "encoding=")) at 1.
  rewrite match_lit_app, match_lit_cons, Ascii.eqb_refl.
  rewrite append_cons, match_plus_cons, Hc, more_until_dquote by done.
  cbn [mbind option_bind group1 span]. do 2 f_equal.
  rewrite !length_append. simpl. rewrite length_append. simpl. lia.
Qed.

End EncodingFacts.

Section Encoding_attribute.
Import Re ReFacts SubFacts EncodingFacts.

(** X21. An encoding attribute in double quotes, with a value that is
    not empty and holds no double quote, is removed, and the text before
    it is kept, when neither that text nor the value holds a question mark
    and that text holds no [e]: the text is cleaned to the text before the
    attribute followed by the cleaned rest. *)
Theorem encoding_attribute_is_removed pre value rest :
  all_chars (fun c => other_than "e" c && other_than "?" c) pre = true ->
  value <> "" ->
  all_chars (fun c => other_than dquote c && other_than "?" c) value = true ->
  clean_svg_content (pre +:+ "encoding=" +:+ String dquote (value +:+ String dquote rest))
  = pre +:+ clean_svg_content rest.
Proof.
  intros Hpre Hne Hvalue.
  assert (Hsplit : forall p q s, all_chars (fun c => p c && q c) s = true ->
            all_chars p s = true /\ all_chars q s = true).
  { intros p q s. induction s as [| c s IH]; [done |]. cbn [all_chars].
    intros [[Hp Hq]%andb_prop [Hps Hqs]%IH]%andb_prop. by rewrite Hp, Hq, Hps, Hqs. }
  apply Hsplit in Hpre as [Hpre_e Hpre_q]. apply Hsplit in Hvalue as [Hvalue_d Hvalue_q].
  unfold clean_svg_content, sub_empty.
  set (stretch := pre +:+ "encoding=" +:+ String dquote value).
  assert (Htext : forall tail,
            pre +:+ "encoding=" +:+ String dquote (value +:+ String dquote tail)
            = (stretch +:+ String dquote "") +:+ tail).
  { intros tail. unfold stretch. by rewrite !append_assoc. }
  rewrite Htext, sub_from_keep_stretch.
  2: { intros a b Heq Hb. apply (no_declaration_starts stretch rest a b); [| done | done].
       unfold stretch. rewrite !all_chars_app. cbn [all_chars].
       by rewrite Hpre_q, Hvalue_q. }
  rewrite <- Htext.
  rewrite (sub_from_keep encoding_re "e" _ pre _ eq_refl Hpre_e). f_equal.
  set (tail := sub_from xml_declaration_re 0 rest).
  pose proof (match_encoding value tail Hne Hvalue_d) as Hm.
  remember (String.length _) as n eqn:Hn in Hm.
  change ("encoding=" +:+ String dquote (value +:+ String dquote tail))
    with (String "e" ("ncoding=" +:+ String dquote (value +:+ String dquote tail))) in *.
  cbn [sub_from]. rewrite Hm.
  change ("encoding=" +:+ String dquote (value +:+ String dquote ""))
    with (String "e" ("ncoding=" +:+ String dquote (value +:+ String dquote ""))) in Hn.
  cbn [String.length] in Hn. subst n.
  replace ("ncoding=" +:+ String dquote (value +:+ String dquote tail))
    with (("ncoding=" +:+ String dquote (value +:+ String dquote "")) +:+ tail).
  - apply sub_from_skip.
  - rewrite !append_assoc. f_equal. rewrite !append_cons. f_equal.
    by rewrite append_assoc.
Qed.

End Encoding_attribute.

(** *** What the calculator reads *)

Section Viewbox_only.
Context `{Externals}.

(** X22. The calculator reads nothing of the SVG but the value of its
    first viewBox attribute: two texts with the same value there, or both
    without such an attribute, get the same transform, or the same error,
    whatever else they hold. *)
Theorem transform_reads_the_viewbox_only svg_a svg_b units_per_em advance_width special_x :
  (exists g, first_attribute svg_a g /\ first_attribute svg_b g)
  \/ ((forall pre rest g, svg_a = pre +:+ rest -> ~ attribute_at rest g)
      /\ (forall pre rest g, svg_b = pre +:+ rest -> ~ attribute_at rest g)) ->
  calculate_transform svg_a units_per_em advance_width special_x
  = calculate_transform svg_b units_per_em advance_width special_x.
Proof.
  intros Hsame.
  assert (Hbox : get_svg_viewbox svg_a = get_svg_viewbox svg_b).
  { unfold get_svg_viewbox.
    destruct Hsame as [(g & (ha & -> & Ha)%first_attribute_is_found
                          & (hb & -> & Hb)%first_attribute_is_found)
                      | [Ha%no_attribute_is_not_found Hb%no_attribute_is_not_found]].
    - by rewrite Ha, Hb.
    - by rewrite Ha, Hb. }
  unfold calculate_transform. by rewrite Hbox.
Qed.

End Viewbox_only.

(** *** Edges of the calculator *)

Section Transform_edges.

Context `{Externals}.

Lemma split_blank g : forall cur,
  all_chars Py.isspace g = true ->
  Py.split_from cur g =
    match cur with [] => [] | _ => [string_of_list_ascii (rev cur)] end.
Proof.
  induction g as [| c g IH]; intros cur Hblank; cbn [Py.split_from]; [done |].
  cbn [all_chars] in Hblank. apply andb_prop in Hblank as [-> Hblank].
  by rewrite (IH [] Hblank).
Qed.

(** X6. A viewBox attribute whose value holds whitespace only gives the
    empty list of numbers, which the calculator takes for a missing
    viewBox: the transform is that of the fallback branch. *)
Theorem blank_viewbox_uses_fallback svg_content g units_per_em advance_width special_x :
  first_attribute svg_content g ->
  all_chars Py.isspace g = true ->
  calculate_transform svg_content units_per_em advance_width special_x =
    (em ← Py.float_of_int units_per_em;
     translate_x ← Py.int_true_div (advance_width - 700) 2;
     Ok {| xx := (0.7 * em / 1000)%float; xy := 0; yx := 0;
           yy := (- (0.7 * em / 1000))%float;
           dx := translate_x; dy := (em * 0.45)%float |}).
Proof.
  intros (h & Hs & <-)%first_attribute_is_found Hblank.
  apply calculate_transform_fallback_eq. right.
  unfold get_svg_viewbox, parse_floats, Py.split. rewrite Hs.
  by rewrite (split_blank _ [] Hblank).
Qed.

(** X7. A viewBox of four numbers whose width is zero, or whose height
    is zero, makes [calculate_transform] raise [ZeroDivisionError], whatever
    the advance width and the x-offset are. *)
Theorem zero_extent_raises svg_content units_per_em advance_width special_x
    x y width height em :
  get_svg_viewbox svg_content = Some [x; y; width; height] ->
  Py.float_of_int units_per_em = Ok em ->
  (width =? 0)%float = true \/ (height =? 0)%float = true ->
  calculate_transform svg_content units_per_em advance_width special_x
  = Raise ZeroDivisionError.
Proof.
  intros Hbox Hem Hzero. unfold calculate_transform. rewrite Hbox, Hem.
  cbn [mbind result_bind]. unfold Py.float_div.
  destruct (width =? 0)%float; [done |]. cbn [mbind result_bind].
  destruct Hzero as [[=] | ->]. done.
Qed.

(** X8. A viewBox with one, two, three, or more than four numbers makes
    [calculate_transform] raise [ValueError], the error of the unpacking
    into [x], [y], [width] and [height]. *)
Theorem wrong_count_raises svg_content units_per_em advance_width special_x viewbox :
  get_svg_viewbox svg_content = Some viewbox ->
  viewbox <> [] -> length viewbox <> 4%nat ->
  exists msg,
    calculate_transform svg_content units_per_em advance_width special_x
    = Raise (ValueError msg).
Proof.
  intros Hbox Hne Hlen. unfold calculate_transform. rewrite Hbox.
  destruct viewbox as [| x [| y [| width [| height [| ? ?]]]]]; try done; by eexists.
Qed.

(** X9. Without a viewBox, [calculate_transform] returns a transform for
    all units per em below [2^63] in size and every advance width within
    [2^53] of 700, and its scale is strictly positive when the units per em
    are at least 1. *)
Theorem fallback_never_fails svg_content units_per_em advance_width special_x :
  get_svg_viewbox svg_content = None ->
  Z.abs units_per_em < 2 ^ 63 -> Z.abs (advance_width - 700) < 2 ^ 53 ->
  exists t,
    calculate_transform svg_content units_per_em advance_width special_x = Ok t
    /\ (1 <= units_per_em -> (0 <? xx t)%float = true).
Proof.
  intros Hbox Hupm Hadv. rewrite calculate_transform_fallback_eq by auto.
  assert (Hem : exists em, Py.float_of_int units_per_em = Ok em
                  /\ (1 <= units_per_em -> SFreaches 0 (Prim2SF em))).
  { destruct (Z.le_gt_cases 1 units_per_em) as [Hpos | Hneg].
    - destruct (FloatFacts.float_of_int_reaches units_per_em) as (em & Hem & Hr); [lia |].
      by exists em.
    - unfold Py.float_of_int. apply Z.ltb_lt in Hupm. rewrite Hupm.
      eexists. split; [reflexivity | lia]. }
  destruct Hem as (em & -> & Hreach). cbn [mbind result_bind].
  assert (Htx : exists tx, Py.int_true_div (advance_width - 700) 2 = Ok tx).
  { unfold Py.int_true_div, Py.float_of_int.
    assert (Z.abs (advance_width - 700) < 2 ^ 63) by lia.
    change (2 =? 0) with false. change (Z.abs 2 <? 2 ^ 53) with true.
    change (Z.abs 2 <? 2 ^ 63) with true.
    rewrite (proj2 (Z.ltb_lt _ _) Hadv), (proj2 (Z.ltb_lt _ _) H0).
    by eexists. }
  destruct Htx as (tx & ->). cbn [mbind result_bind].
  eexists. split; [reflexivity |]. cbn [xx].
  intros Hpos. specialize (Hreach Hpos).
  apply (FloatFacts.SFreaches_positive (-1 + 0 - 10)).
  rewrite FloatAxioms.div_spec.
  change (Prim2SF 1000) with (S754_finite false 8796093022208000 (-43)).
  apply (FloatFacts.SFdiv_reaches (-1 + 0) 10); [by vm_compute | | lia | by vm_compute].
  rewrite FloatAxioms.mul_spec. apply FloatFacts.SFmul_reaches; [by vm_compute | | done].
  by vm_compute.
Qed.

End Transform_edges.

(** *** Negative extents *)

Module SignFacts.
Import FloatFacts.

Lemma SFdiv_opp_r x y :
  SFdiv prec emax x (SFopp y) = SFopp (SFdiv prec emax x y).
Proof.
  destruct x as [sx | sx | | sx mx ex], y as [sy | sy | | sy my ey]; simpl;
    try reflexivity; try (destruct sx, sy; reflexivity).
  destruct (SFdiv_core_binary _ _ _ _ _ _) as [[mz ez] lz].
  rewrite <- binary_round_aux_opp. destruct sx, sy; reflexivity.
Qed.

Lemma SFmul_opp_l x y :
  SFmul prec emax (SFopp x) y = SFopp (SFmul prec emax x y).
Proof.
  destruct x as [sx | sx | | sx mx ex], y as [sy | sy | | sy my ey]; simpl;
    try reflexivity; try (destruct sx, sy; reflexivity).
  rewrite <- binary_round_aux_opp. destruct sx, sy; reflexivity.
Qed.

Lemma div_opp_r (a b : float) : (a / - b = - (a / b))%float.
Proof.
  apply Prim2SF_inj.
  rewrite FloatAxioms.div_spec, !FloatAxioms.opp_spec, FloatAxioms.div_spec.
  apply SFdiv_opp_r.
Qed.

Lemma mul_opp_l (a b : float) : (- a * b = - (a * b))%float.
Proof.
  apply Prim2SF_inj.
  rewrite FloatAxioms.mul_spec, !FloatAxioms.opp_spec, FloatAxioms.mul_spec.
  apply SFmul_opp_l.
Qed.

Lemma opp_opp (a : float) : (- - a = a)%float.
Proof.
  apply Prim2SF_inj. rewrite !FloatAxioms.opp_spec.
  destruct (Prim2SF a) as [[] | [] | | [] m e]; reflexivity.
Qed.

(** A finite number other than zero is positive, or the opposite of a
    positive one. *)
Lemma sign_cases (w : float) :
  finite_nonzero w = true ->
  ((0 <? w)%float = true /\ (w <? infinity)%float = true)
  \/ ((w <? 0)%float = true
      /\ exists p, w = (- p)%float /\ (0 <? p)%float = true /\ (p <? infinity)%float = true).
Proof.
  unfold finite_nonzero. intros [[Hfin Hinf]%andb_prop Hnz%negb_true_iff]%andb_prop.
  assert (Hcase : exists s m e, Prim2SF w = S754_finite s m e).
  { rewrite FloatAxioms.ltb_spec in Hfin, Hinf. rewrite FloatAxioms.eqb_spec in Hnz.
    change (Prim2SF infinity) with (S754_infinity false) in Hfin.
    change (Prim2SF neg_infinity) with (S754_infinity true) in Hinf.
    change (Prim2SF 0) with (S754_zero false) in Hnz.
    destruct (Prim2SF w) as [[] | [] | | s m e]; try done. by exists s, m, e. }
  destruct Hcase as (s & m & e & Hw). destruct s.
  - right. split.
    + rewrite FloatAxioms.ltb_spec, Hw. reflexivity.
    + exists (- w)%float. rewrite opp_opp. split; [done |].
      rewrite !FloatAxioms.ltb_spec, FloatAxioms.opp_spec, Hw. by split.
  - left. rewrite !FloatAxioms.ltb_spec, Hw. by split.
Qed.

Lemma far_below_negative t a : far_below t a -> (a <? 0)%float = true.
Proof.
  unfold far_below. rewrite FloatAxioms.ltb_spec, FloatAxioms.opp_spec.
  change (Prim2SF 0) with (S754_zero false).
  destruct (Prim2SF a) as [[] | [] | | [] m e]; done.
Qed.

Lemma min_far_below t a b :
  far t a \/ far_below t a -> far t b \/ far_below t b ->
  far_below t a \/ far_below t b ->
  far_below t (Py.min a b).
Proof.
  unfold far, far_below, Py.min. rewrite FloatAxioms.ltb_spec, !FloatAxioms.opp_spec.
  intros Ha Hb Hneg.
  destruct (Prim2SF a) as [[] | [] | | [] ma ea] eqn:Ea,
           (Prim2SF b) as [[] | [] | | [] mb eb] eqn:Eb;
    simpl in *; try (destruct Ha, Hb, Hneg; done);
    try (destruct (SFltb _ _)); rewrite ?FloatAxioms.opp_spec, ?Ea, ?Eb; simpl;
    try (by destruct Ha); try (by destruct Hb); try (by destruct Hneg).
Qed.

(** The quotient of the units per em by a finite extent other than zero. *)
Lemma quotient_far (em w : float) :
  SFreaches 0 (Prim2SF em) -> finite_nonzero w = true ->
  Py.float_div em w = Ok (em / w)%float
  /\ (far (-1024) (em / w) \/ far_below (-1024) (em / w))
  /\ ((w <? 0)%float = true -> far_below (-1024) (em / w)).
Proof.
  intros Hem Hw.
  assert (Hdiv : Py.float_div em w = Ok (em / w)%float).
  { unfold Py.float_div. unfold finite_nonzero in Hw.
    apply andb_prop in Hw as [_ Hnz%negb_true_iff]. by rewrite Hnz. }
  split; [done |].
  destruct (sign_cases w Hw) as [[Hpos Hfin] | (Hneg & p & -> & Hpos & Hfin)].
  - destruct (float_div_reaches em w Hem Hpos Hfin) as [_ Hfar].
    split; [by left |]. intros Hneg.
    rewrite FloatAxioms.ltb_spec in Hpos, Hneg.
    change (Prim2SF 0) with (S754_zero false) in *.
    destruct (Prim2SF w) as [[] | [] | | [] m e]; done.
  - destruct (float_div_reaches em p Hem Hpos Hfin) as [_ Hfar].
    assert (far_below (-1024) (em / - p)) by (unfold far_below; by rewrite div_opp_r, opp_opp).
    split; [by right | done].
Qed.

(** The scale factor of a viewBox with a negative extent is strictly
    negative. *)
Lemma scale_factor_negative (em width height : float) :
  SFreaches 0 (Prim2SF em) ->
  finite_nonzero width = true -> finite_nonzero height = true ->
  (width <? 0)%float = true \/ (height <? 0)%float = true ->
  let s := (Py.min (em / width) (em / height) * 0.7)%float in
  (s <? 0)%float = true /\ (0 <? - s)%float = true.
Proof.
  intros Hem Hw Hh Hneg s.
  destruct (quotient_far em width Hem Hw) as (_ & Hw1 & Hw2).
  destruct (quotient_far em height Hem Hh) as (_ & Hh1 & Hh2).
  assert (Hmin : far_below (-1024) (Py.min (em / width) (em / height))).
  { apply min_far_below; try done. destruct Hneg; auto. }
  assert (Hs : far_below (-1024 + -1) s).
  { unfold far_below, s in *. rewrite <- mul_opp_l, FloatAxioms.mul_spec.
    apply SFmul_reaches; [by vm_compute | done | by vm_compute]. }
  split; [by eapply far_below_negative |].
  by apply (SFreaches_positive (-1024 + -1)).
Qed.

End SignFacts.

Section Negative_extent.
Context `{Externals}.

(** X20. A viewBox of finite extents other than zero of which the
    width, or the height, is negative gives a strictly negative scale, for
    units per em from 1 on: the X-scale of the transform is negative and
    its Y-scale positive, so the outline is mirrored and not flipped. *)
Theorem negative_extent_mirrors svg_content units_per_em advance_width special_x
    x y width height t :
  get_svg_viewbox svg_content = Some [x; y; width; height] ->
  finite_nonzero width = true -> finite_nonzero height = true ->
  (width <? 0)%float = true \/ (height <? 0)%float = true ->
  1 <= units_per_em < 2 ^ 63 ->
  calculate_transform svg_content units_per_em advance_width special_x = Ok t ->
  (xx t <? 0)%float = true /\ (0 <? yy t)%float = true.
Proof.
  intros Hbox Hw Hh Hneg Hupm Hcalc.
  rewrite (calculate_transform_viewbox_eq _ _ _ _ _ _ _ _ Hbox) in Hcalc.
  destruct (FloatFacts.float_of_int_reaches units_per_em Hupm) as (em & Hem & Hreach).
  rewrite Hem in Hcalc. cbn [mbind result_bind] in Hcalc.
  destruct (SignFacts.quotient_far em width Hreach Hw) as (Hdw & _).
  destruct (SignFacts.quotient_far em height Hreach Hh) as (Hdh & _).
  rewrite Hdw, Hdh in Hcalc. cbn [mbind result_bind] in Hcalc.
  destruct (Py.float_of_int (centering_width _ _)) as [adv |]; [| done].
  cbn [mbind result_bind] in Hcalc.
  destruct (Py.as_float special_x) as [off |]; [| done].
  cbn [mbind result_bind] in Hcalc. injection Hcalc as <-. cbn [xx yy].
  by apply SignFacts.scale_factor_negative.
Qed.

End Negative_extent.

(** *** The output does not steer a run *)

Section Output_frame.
Context `{Externals}.

Lemma framed_ret {A} (a : A) : framed (mret a).
Proof. intros s. cbv [mret M_ret after quiet fst snd]. cbn. by rewrite app_nil_r; destruct s. Qed.

Lemma framed_lift {A} (r : result A) : framed (lift r).
Proof. intros s. cbv [lift after quiet fst snd]. cbn. by rewrite app_nil_r; destruct s. Qed.

Lemma framed_raise {A} (e : exn) : framed (raise (A := A) e).
Proof. apply framed_lift. Qed.

Lemma framed_print line : framed (print line).
Proof. intros s. reflexivity. Qed.

Lemma framed_get_font : framed get_font.
Proof. intros s. cbv [get_font after quiet fst snd]. cbn. by rewrite app_nil_r; destruct s. Qed.

Lemma framed_set_font f : framed (set_font f).
Proof. intros s. cbv [set_font after quiet fst snd]. cbn. by rewrite app_nil_r. Qed.

Lemma framed_write_font path : framed (write_font path).
Proof. intros s. cbv [write_font after quiet fst snd]. cbn. by rewrite app_nil_r. Qed.

Lemma after_assoc s x y : after (after s x) y = after s (after x y).
Proof. unfold after. cbn. by rewrite app_assoc. Qed.

Lemma quiet_after s x : quiet (after s x) = quiet x.
Proof. reflexivity. Qed.

Lemma framed_bind {A B} (m : M A) (k : A -> M B) :
  framed m -> (forall a, framed (k a)) -> framed (m ≫= k).
Proof.
  intros Hm Hk s. cbv [mbind M_bind].
  rewrite (Hm s). destruct (m (quiet s)) as [s1 [a | e]]; cbn [fst snd]; [| done].
  rewrite (Hk a (after s s1)), quiet_after, (Hk a s1).
  destruct (k a (quiet s1)) as [s2 res]. cbn [fst snd]. by rewrite after_assoc.
Qed.

Lemma framed_save path : framed (save path).
Proof.
  unfold save. apply framed_bind; [apply framed_get_font | intros f].
  apply framed_bind; [apply framed_lift | intros; apply framed_write_font].
Qed.

Lemma framed_try_except {A} (body : M A) handler :
  framed body -> (forall e, framed (handler e)) -> framed (try_except body handler).
Proof.
  intros Hm Hk s. unfold try_except.
  rewrite (Hm s). destruct (body (quiet s)) as [s1 [a | e]]; cbn [fst snd]; [done |].
  rewrite (Hk e (after s s1)), quiet_after, (Hk e s1).
  destruct (handler e (quiet s1)) as [s2 res]. cbn [fst snd]. by rewrite after_assoc.
Qed.

Lemma framed_table {T} tag (t : option T) : framed (table tag t).
Proof. destruct t; [apply framed_ret | apply framed_raise]. Qed.

Lemma framed_for_each {A} (body : A -> M unit) xs :
  (forall x, framed (body x)) -> framed (for_each body xs).
Proof.
  intros Hbody. induction xs as [| x xs IH]; cbn [for_each]; [apply framed_ret |].
  apply framed_bind; [apply Hbody | intros; apply IH].
Qed.

Ltac solve_framed :=
  repeat first
    [ apply framed_save | apply framed_bind | apply framed_try_except | apply framed_ret
    | apply framed_lift | apply framed_raise | apply framed_print | apply framed_get_font
    | apply framed_set_font | apply framed_table
    | match goal with
      | |- forall _, _ => intro
      | |- framed (match ?x with _ => _ end) => destruct x
      | |- framed (if ?b then _ else _) => destruct b
      end ].

Lemma framed_outline_of_request units_per_em r : framed (outline_of_request units_per_em r).
Proof. unfold outline_of_request. cbv zeta. solve_framed. Qed.

Lemma framed_insert_glyph r width glyph : framed (insert_glyph r width glyph).
Proof.
  unfold insert_glyph, glyf_setitem, hmtx_setitem, cmap_update. cbv zeta. solve_framed.
Qed.

Lemma framed_process_request units_per_em r : framed (process_request units_per_em r).
Proof.
  unfold process_request.
  apply framed_bind; [apply framed_outline_of_request |].
  intros [[width glyph] |]; [apply framed_insert_glyph | apply framed_ret].
Qed.

Lemma framed_finish output_font_path : framed (finish output_font_path).
Proof. unfold finish. solve_framed. Qed.

Lemma framed_prepare : framed prepare.
Proof. unfold prepare. cbv zeta. solve_framed. Qed.

Lemma framed_run output_font_path svg_data_list : framed (run output_font_path svg_data_list).
Proof.
  unfold run. apply framed_bind; [apply framed_prepare | intros units_per_em].
  apply framed_bind; [| intros; apply framed_finish].
  apply framed_for_each. intros r. apply framed_process_request.
Qed.

(** Two states with the same font and the same saved files are taken to
    two such states, with the same result. *)
Lemma framed_agree {A} (m : M A) s t :
  framed m -> font s = font t -> saved s = saved t ->
  snd (m s) = snd (m t)
  /\ font (fst (m s)) = font (fst (m t))
  /\ saved (fst (m s)) = saved (fst (m t)).
Proof.
  intros Hm Hfont Hsaved. rewrite (Hm s), (Hm t).
  assert (quiet s = quiet t) as -> by (unfold quiet; congruence).
  done.
Qed.

Lemma for_each_app {A} (body : A -> M unit) xs ys s :
  for_each body (xs ++ ys) s = (for_each body xs ;; for_each body ys) s.
Proof.
  revert s. induction xs as [| x xs IH]; intros s; cbn [for_each app].
  - reflexivity.
  - cbv [mbind M_bind] in *. destruct (body x s) as [s1 [[] | e]]; [| done]. apply IH.
Qed.

(** X11. A request whose SVG file is missing does not change what the
    batch does to the font: with the request or without it, the run ends
    with the same result, the same font in memory and the same saved
    file. *)
Theorem missing_file_request_is_inert input_font output_font_path before r later :
  path_exists (svg_file_path r) = false ->
  let with_it := add_svg_glyphs_to_font input_font output_font_path (before ++ r :: later) in
  let without := add_svg_glyphs_to_font input_font output_font_path (before ++ later) in
  snd with_it = snd without
  /\ font (fst with_it) = font (fst without)
  /\ saved (fst with_it) = saved (fst without).
Proof.
  intros Hmissing with_it without. subst with_it without.
  unfold add_svg_glyphs_to_font, run. cbv [mbind M_bind].
  destruct (prepare _) as [s1 [units_per_em | e]]; [| done].
  rewrite !for_each_app. cbv [mbind M_bind].
  destruct (for_each _ before s1) as [s2 [[] | e]]; [| done].
  cbn [for_each]. cbv [mbind M_bind].
  assert (Hskip : exists s3, process_request units_per_em r s2 = (s3, Ok tt)
                    /\ font s3 = font s2 /\ saved s3 = saved s2).
  { unfold process_request, outline_of_request.
    cbv [mbind mret M_bind M_ret print]. rewrite Hmissing. cbn. by eexists. }
  destruct Hskip as (s3 & -> & Hfont & Hsaved).
  assert (Hrest : framed (for_each (process_request units_per_em) later ;;
                          finish output_font_path)).
  { apply framed_bind; [| intros; apply framed_finish].
    apply framed_for_each. intros x. apply framed_process_request. }
  pose proof (framed_agree _ s3 s2 Hrest Hfont Hsaved) as Hagree.
  cbv [mbind M_bind] in Hagree. exact Hagree.
Qed.

End Output_frame.

(** *** The writes of a request *)

Section Table_updater.
Context `{Externals}.

(** The font after the writes of a request. *)
Lemma insert_glyph_font r width glyph s s' :
  insert_glyph r width glyph s = (s', Ok tt) ->
  exists code glyphs entries tables,
    int_of_hex (unicode_hex r) = Some code
    /\ glyf (font s) = Some glyphs /\ glyf_has_glyphOrder (font s) = true
    /\ hmtx (font s) = Some entries
    /\ cmap_tables (font s) = Some tables
    /\ font s' =
         {| unitsPerEm := unitsPerEm (font s);
            glyf := Some (<[glyph_name r := glyph]> glyphs);
            glyf_has_glyphOrder := glyf_has_glyphOrder (font s);
            hmtx := Some (<[glyph_name r := (width, 0)]> entries);
            cmap_tables := Some (map (fun t => if isUnicode t
                                               then cmap_setitem code (glyph_name r) t
                                               else t) tables);
            sxHeight := sxHeight (font s);
            glyphOrder := if in_order (glyph_name r) (glyphOrder (font s))
                          then glyphOrder (font s)
                          else glyphOrder (font s) ++ [glyph_name r];
            numGlyphs := numGlyphs (font s);
            flavor := flavor (font s);
            recalcBBoxes := recalcBBoxes (font s) |}
    /\ stdout s' = stdout s ++ [AddedGlyph (glyph_name r) width]
    /\ saved s' = saved s.
Proof.
  unfold insert_glyph. unfold_M. intros Hrun.
  step_M; do 4 eexists; repeat split; try done.
  all: unfold with_hmtx, with_cmap_tables, with_glyf, setGlyphOrder; cbn.
  all: by match goal with E : glyf_has_glyphOrder _ = true |- _ => rewrite E end.
Qed.

(** Conversely: with the three tables present, an outline table that has
    its glyph order and a code point that parses, the writes succeed. *)
Lemma insert_glyph_succeeds r width glyph s code glyphs entries tables :
  int_of_hex (unicode_hex r) = Some code ->
  glyf (font s) = Some glyphs -> glyf_has_glyphOrder (font s) = true ->
  hmtx (font s) = Some entries ->
  cmap_tables (font s) = Some tables ->
  exists s', insert_glyph r width glyph s = (s', Ok tt).
Proof.
  intros Hcode Hglyf Hloaded Hhmtx Hcmap. unfold insert_glyph. unfold_M.
  rewrite Hglyf. cbn. rewrite Hloaded. cbn. destruct (in_order _ _); cbn; rewrite Hcode; cbn;
    rewrite Hcmap; cbn; rewrite Hhmtx; cbn; by eexists.
Qed.

(** The first half of the loop body, for a request whose file, transform,
    SVG and outline are in order. *)
Lemma request_outline units_per_em r s width data t svg_path glyph :
  path_exists (svg_file_path r) = true ->
  (if advance_width r =? 0 then default_advance_width units_per_em = Ok width
   else width = advance_width r) ->
  read_binary (svg_file_path r) = Ok data ->
  calculate_transform (decode_utf8 data) units_per_em width (special_x r) = Ok t ->
  SVGPath_fromstring (encode_utf8 (clean_svg_content (decode_utf8 data))) t = Ok svg_path ->
  draw_glyph (font s) svg_path = Ok glyph ->
  exists s1,
    outline_of_request units_per_em r s = (s1, Ok (Some (width, glyph)))
    /\ font s1 = font s
    /\ stdout s1 =
         stdout s ++ [Processing (svg_file_path r) (glyph_name r) (unicode_hex r);
                      UsingTransform t]
         ++ (if has_points glyph then [] else [NoPointsWarning (svg_file_path r)]).
Proof.
  intros Hexists Hwidth Hread Hcalc Hsvg Hdraw.
  unfold outline_of_request, default_advance_width in *.
  cbv [mbind mret M_bind M_ret lift raise print get_font set_font try_except] in *.
  rewrite Hexists. cbn [negb].
  destruct (advance_width r =? 0); [rewrite Hwidth | subst width];
    cbn [font stdout saved]; rewrite Hread; cbn [font stdout saved];
    rewrite Hcalc; cbn [font stdout saved]; rewrite Hsvg; cbn [font stdout saved];
    rewrite Hdraw; destruct (has_points glyph);
    (eexists; split; [reflexivity |]; split; [reflexivity |]);
    cbn [stdout]; by rewrite <- ?app_assoc, ?app_nil_r.
Qed.

(** X10. A request is inserted when its file exists and is read, its
    transform is computed, its SVG is parsed, its outline is drawn, its code
    point parses and the font has its three tables, the outline table being
    one with its glyph order, as a table read from a font file is and the
    table that the run makes for a font without one is not: the loop body
    ends normally, having printed the request, the transform, the warning if the
    outline has no points, and the glyph added; the outline table and the
    metrics table hold the outline and [(width, 0)] under the glyph name,
    the glyph order lists the name, and every Unicode subtable maps the
    code point to the name.  An outline without points is inserted like
    any other. *)
Theorem request_is_inserted units_per_em r s width data t svg_path glyph code
    glyphs entries tables :
  path_exists (svg_file_path r) = true ->
  (if advance_width r =? 0 then default_advance_width units_per_em = Ok width
   else width = advance_width r) ->
  read_binary (svg_file_path r) = Ok data ->
  calculate_transform (decode_utf8 data) units_per_em width (special_x r) = Ok t ->
  SVGPath_fromstring (encode_utf8 (clean_svg_content (decode_utf8 data))) t = Ok svg_path ->
  draw_glyph (font s) svg_path = Ok glyph ->
  int_of_hex (unicode_hex r) = Some code ->
  glyf (font s) = Some glyphs -> glyf_has_glyphOrder (font s) = true ->
  hmtx (font s) = Some entries ->
  cmap_tables (font s) = Some tables ->
  exists s',
    process_request units_per_em r s = (s', Ok tt)
    /\ stdout s' =
         stdout s ++ [Processing (svg_file_path r) (glyph_name r) (unicode_hex r);
                      UsingTransform t]
         ++ (if has_points glyph then [] else [NoPointsWarning (svg_file_path r)])
         ++ [AddedGlyph (glyph_name r) width]
    /\ glyf (font s') ≫= (.!! glyph_name r) = Some glyph
    /\ hmtx (font s') ≫= (.!! glyph_name r) = Some (width, 0)
    /\ glyph_name r ∈ glyphOrder (font s')
    /\ exists tables',
         cmap_tables (font s') = Some tables'
         /\ length tables' = length tables
         /\ forall sub, sub ∈ tables' -> isUnicode sub = true ->
              cmap sub !! code = Some (glyph_name r).
Proof.
  intros Hexists Hwidth Hread Hcalc Hsvg Hdraw Hcode Hglyf Hloaded Hhmtx Hcmap.
  destruct (request_outline units_per_em r s width data t svg_path glyph)
    as (s1 & Hout & Hfont1 & Hlines1); try done.
  rewrite <- Hfont1 in Hglyf, Hloaded, Hhmtx, Hcmap.
  destruct (insert_glyph_succeeds r width glyph s1 code glyphs entries tables)
    as [s' Hins]; try done.
  exists s'. unfold process_request. cbv [mbind M_bind]. rewrite Hout.
  split; [done |].
  pose proof Hins as Hpost. apply insert_glyph_font in Hpost
    as (code' & glyphs' & entries' & tables' & Hcode' & Hg & _ & He & Hc & Hf & Hlines & _).
  simplify_eq. rewrite Hf, Hlines, Hlines1. cbn.
  rewrite !lookup_insert_eq, <- !app_assoc. repeat split; try done.
  - unfold in_order. case_bool_decide; [done |].
    apply elem_of_app. right. by apply list_elem_of_singleton.
  - eexists. split; [reflexivity |]. split; [by rewrite length_map |].
    intros sub' (sub & -> & _)%list_elem_of_fmap.
    destruct (isUnicode sub) eqn:Hu; [| congruence].
    intros _. unfold cmap_setitem. cbn. by rewrite lookup_insert_eq.
Qed.

End Table_updater.

(** *** What a run keeps *)

Section Kept_relation.
Context `{Externals}.

Lemma subtable_kept_refl codes t : subtable_kept codes t t.
Proof. by repeat split. Qed.

Lemma subtable_kept_trans codes t1 t2 t3 :
  subtable_kept codes t1 t2 -> subtable_kept codes t2 t3 -> subtable_kept codes t1 t3.
Proof.
  intros (Hu1 & Hn1 & Hc1 & Hs1) (Hu2 & Hn2 & Hc2 & Hs2). repeat split.
  - congruence.
  - intros Hfalse. rewrite Hn2, Hn1 by congruence. done.
  - intros code Hcode. by rewrite Hc2, Hc1.
  - intros code Hsome. by apply Hs2, Hs1.
Qed.

Lemma subtables_kept_refl codes (tables : list CmapSubtable) :
  Forall2 (subtable_kept codes) tables tables.
Proof. induction tables; constructor; [apply subtable_kept_refl | done]. Qed.

Lemma tables_kept_refl codes (tables : option (list CmapSubtable)) :
  option_Forall2 (Forall2 (subtable_kept codes)) tables tables.
Proof. destruct tables; constructor. apply subtables_kept_refl. Qed.

Lemma tables_kept_trans codes (a b c : option (list CmapSubtable)) :
  option_Forall2 (Forall2 (subtable_kept codes)) a b ->
  option_Forall2 (Forall2 (subtable_kept codes)) b c ->
  option_Forall2 (Forall2 (subtable_kept codes)) a c.
Proof.
  intros [la lb Hab |] Hbc; inversion Hbc as [? lc Hbc' |]; subst; constructor.
  revert lc Hbc' Hbc. induction Hab as [| x y l1 l2 Hxy Hl IH]; intros lc Hbc' _.
  - by inversion Hbc'.
  - inversion Hbc' as [| ? z ? l3 Hyz Hl3]; subst. constructor.
    + by eapply subtable_kept_trans.
    + apply IH; [done | by constructor].
Qed.

Lemma kept_refl names codes f : kept names codes f f.
Proof. repeat split; try done. apply tables_kept_refl. Qed.

Lemma kept_trans names codes f1 f2 f3 :
  kept names codes f1 f2 -> kept names codes f2 f3 -> kept names codes f1 f3.
Proof.
  intros (Hu1 & Hx1 & Hg1 & Hf1 & Hr1 & Hn1 & Hs1 & Hc1)
         (Hu2 & Hx2 & Hg2 & Hf2 & Hr2 & Hn2 & Hs2 & Hc2).
  do 5 (split; [congruence |]). split; [| split].
  - intros name Hname.
    destruct (Hn1 name Hname) as (Hy1 & Hh1 & Ho1), (Hn2 name Hname) as (Hy2 & Hh2 & Ho2).
    repeat split; [congruence | congruence | auto].
  - intros name. destruct (Hs1 name) as (? & ? & ?), (Hs2 name) as (? & ? & ?). auto.
  - by eapply tables_kept_trans.
Qed.

(** *** Actions that keep a relation between the font before and after *)

Section Keeps.
Context (R : Font -> Font -> Prop) (R_refl : forall f, R f f)
  (R_trans : forall f1 f2 f3, R f1 f2 -> R f2 f3 -> R f1 f3).

Lemma keeps_ret {A} (a : A) : keeps R (mret a).
Proof. intros s s' res [= <- _]. apply R_refl. Qed.

Lemma keeps_lift {A} (r : result A) : keeps R (lift r).
Proof. intros s s' res [= <- _]. apply R_refl. Qed.

Lemma keeps_print line : keeps R (print line).
Proof. intros s s' res [= <- _]. apply R_refl. Qed.

Lemma keeps_save path : keeps R (save path).
Proof.
  intros s s' res. unfold save. unfold_M.
  destruct (font_compile (font s)); intros [= <- _]; apply R_refl.
Qed.

Lemma keeps_table {T} tag (t : option T) : keeps R (table tag t).
Proof. destruct t; intros s s' res [= <- _]; apply R_refl. Qed.

Lemma keeps_bind {A B} (m : M A) (k : A -> M B) :
  keeps R m -> (forall a, keeps R (k a)) -> keeps R (m ≫= k).
Proof.
  intros Hm Hk s s' res. cbv [mbind M_bind].
  destruct (m s) as [s1 [a | e]] eqn:Hms; apply Hm in Hms.
  - intros Hks%Hk. by eapply R_trans.
  - by intros [= <- _].
Qed.

Lemma keeps_try_except {A} (body : M A) handler :
  keeps R body -> (forall e, keeps R (handler e)) -> keeps R (try_except body handler).
Proof.
  intros Hm Hk s s' res. unfold try_except.
  destruct (body s) as [s1 [a | e]] eqn:Hms; apply Hm in Hms.
  - by intros [= <- _].
  - intros Hks%Hk. by eapply R_trans.
Qed.

Lemma keeps_lift_bind {A B} (r : result A) (k : A -> M B) :
  (forall a, r = Ok a -> keeps R (k a)) -> keeps R (lift r ≫= k).
Proof.
  intros Hk s s' res. cbv [mbind M_bind lift]. destruct r as [a | e].
  - by apply Hk.
  - intros [= <- _]. apply R_refl.
Qed.

(** An action that reads the font first. *)
Lemma keeps_get_font {A} (k : Font -> M A) :
  (forall s s' res, k (font s) s = (s', res) -> R (font s) (font s')) ->
  keeps R (get_font ≫= k).
Proof. intros Hk s s' res. cbv [mbind M_bind get_font]. apply Hk. Qed.

Lemma keeps_for_each {A} (body : A -> M unit) xs :
  (forall x, x ∈ xs -> keeps R (body x)) -> keeps R (for_each body xs).
Proof.
  induction xs as [| x xs IH]; intros Hbody; cbn [for_each]; [apply keeps_ret |].
  apply keeps_bind; [apply Hbody; left | intros _; apply IH].
  intros y Hy. apply Hbody. by right.
Qed.

Lemma keeps_outline_of_request units_per_em r : keeps R (outline_of_request units_per_em r).
Proof.
  intros s s' res (-> & _)%outline_of_request_state. apply R_refl.
Qed.

End Keeps.

Section Kept_steps.
Context (names : string -> Prop) (codes : Z -> Prop).

Lemma kept_glyf_setitem name glyph :
  names name -> keeps (kept names codes) (glyf_setitem name glyph).
Proof.
  intros Hname s s' res. unfold glyf_setitem. unfold_M.
  destruct (glyf (font s)) as [glyphs |] eqn:Hglyf; [| intros [= <- _]; apply kept_refl].
  assert (Hkept : kept names codes (font s)
                    (with_glyf (font s) (Some (<[name := glyph]> glyphs)))).
  { repeat split; cbn; rewrite ?Hglyf; cbn; try done; try apply tables_kept_refl.
    - apply lookup_insert_ne. by intros <-.
    - intros Hs. destruct (decide (name = name0)) as [-> | Hne].
      + rewrite lookup_insert_eq. by eexists.
      + by rewrite lookup_insert_ne. }
  cbn. by destruct (glyf_has_glyphOrder (font s)); intros [= <- _].
Qed.

Lemma kept_hmtx_setitem name metrics :
  names name -> keeps (kept names codes) (hmtx_setitem name metrics).
Proof.
  intros Hname s s' res. unfold hmtx_setitem. unfold_M.
  destruct (hmtx (font s)) as [entries |] eqn:Hhmtx; intros [= <- _]; [| apply kept_refl].
  repeat split; cbn; rewrite ?Hhmtx; cbn; try done; try apply tables_kept_refl.
  - apply lookup_insert_ne. by intros <-.
  - intros Hs. destruct (decide (name = name0)) as [-> | Hne].
    + rewrite lookup_insert_eq. by eexists.
    + by rewrite lookup_insert_ne.
Qed.

Lemma kept_cmap_update code name :
  codes code -> keeps (kept names codes) (cmap_update code name).
Proof.
  intros Hcode s s' res. unfold cmap_update. unfold_M.
  destruct (cmap_tables (font s)) as [tables |] eqn:Hcmap; intros [= <- _];
    [| apply kept_refl].
  repeat split; cbn; rewrite ?Hcmap; try done. constructor.
  clear Hcmap. induction tables as [| t l IH]; constructor; [| done].
  destruct (isUnicode t) eqn:Hu; [| apply subtable_kept_refl].
  unfold cmap_setitem. repeat split; cbn; try congruence.
  - intros code' Hnot. apply lookup_insert_ne. by intros <-.
  - intros code' Hs. destruct (decide (code = code')) as [-> | Hne].
    + rewrite lookup_insert_eq. by eexists.
    + by rewrite lookup_insert_ne.
Qed.

Lemma kept_insert_glyph r width glyph :
  names (glyph_name r) ->
  (forall code, int_of_hex (unicode_hex r) = Some code -> codes code) ->
  keeps (kept names codes) (insert_glyph r width glyph).
Proof.
  intros Hname Hcode. unfold insert_glyph. cbv zeta.
  pose proof (kept_refl names codes) as Hrefl.
  pose proof (kept_trans names codes) as Htrans.
  assert (Hrest : keeps (kept names codes)
            (unicode_int ←
               lift (match int_of_hex (unicode_hex r) with
                     | Some n => Ok n
                     | None => Raise (ValueError "invalid literal for int() with base 16")
                     end);
             cmap_update unicode_int (glyph_name r) ;;
             hmtx_setitem (glyph_name r) (width, 0) ;;
             print (AddedGlyph (glyph_name r) width))).
  { apply keeps_lift_bind; [done |]. intros code Hhex.
    assert (Hc : codes code) by (apply Hcode; by destruct (int_of_hex _); simplify_eq).
    apply keeps_bind; [done | by apply kept_cmap_update |]. intros _.
    apply keeps_bind; [done | by apply kept_hmtx_setitem |]. intros _.
    by apply keeps_print. }
  apply keeps_bind; [done | by apply kept_glyf_setitem |]. intros _.
  apply keeps_get_font. intros s s' res. cbv [mbind M_bind] in *.
  destruct (in_order _ _) eqn:Hin.
  - cbn. apply Hrest.
  - cbn. intros Hrun%Hrest. eapply kept_trans; [| exact Hrun]. cbn.
    repeat split; cbn; try done; try apply tables_kept_refl.
    + rewrite elem_of_app, list_elem_of_singleton. by intros [? | ->].
    + rewrite elem_of_app. auto.
Qed.

Lemma kept_process_request units_per_em r :
  names (glyph_name r) ->
  (forall code, int_of_hex (unicode_hex r) = Some code -> codes code) ->
  keeps (kept names codes) (process_request units_per_em r).
Proof.
  intros Hname Hcode. unfold process_request.
  apply keeps_bind; [apply kept_trans | |].
  - apply keeps_outline_of_request, kept_refl.
  - intros [[width glyph] |]; [by apply kept_insert_glyph | apply keeps_ret, kept_refl].
Qed.

(** [prepare] changes the font only by creating the two tables, empty,
    where they are missing. *)
Lemma kept_prepare : keeps (kept names codes) prepare.
Proof.
  intros s s' res. unfold prepare. unfold_M. intros Hrun.
  step_M; repeat split; cbn;
    repeat match goal with
           | E : hmtx _ = _ |- _ => rewrite E
           | E : glyf _ = _ |- _ => rewrite E
           | E : cmap_tables _ = _ |- _ => rewrite E
           end; cbn;
    first [ done | by intros [? [=]] | apply tables_kept_refl
          | constructor; apply subtables_kept_refl ].
Qed.

End Kept_steps.

End Kept_relation.

(** *** The run as a whole *)

Section Run_properties.
Context `{Externals}.

(** The end of a run: only the flavor, the glyph count and the bounding
    box flag of the font change; the run ends as the compilation of that
    font does, and the font is written, and the save reported, when that
    raised nothing. *)
Lemma finish_font output_font_path s s' res :
  finish output_font_path s = (s', res) ->
  finished (font s) (font s')
  /\ res = font_compile (font s')
  /\ match res with
     | Ok _ =>
         stdout s' = stdout s ++ [FontSaved output_font_path]
         /\ saved s' = saved s ++ [(output_font_path, font s')]
     | Raise _ => stdout s' = stdout s /\ saved s' = saved s
     end.
Proof.
  unfold finish, finished. unfold_M. cbn.
  destruct (numGlyphs (font s)) eqn:Hn; cbn;
    destruct (font_compile _) as [[] |] eqn:Hsave; cbn; intros [= <- <-]; cbn;
    rewrite ?Hn; by repeat split.
Qed.

(** A run, in its three parts: the font [f2] the loop leaves differs from
    the input as [kept] says, and the font in memory at the end has its
    tables and its glyph order; an error saves nothing, and otherwise the
    font in memory is the finished form of [f2] and the one file saved. *)
Lemma run_parts output_font_path svg_data_list s s' res :
  run output_font_path svg_data_list s = (s', res) ->
  exists f2,
    kept (name_of svg_data_list) (code_of svg_data_list) (font s) f2
    /\ unitsPerEm (font s') = unitsPerEm f2 /\ glyf (font s') = glyf f2
    /\ hmtx (font s') = hmtx f2 /\ cmap_tables (font s') = cmap_tables f2
    /\ glyphOrder (font s') = glyphOrder f2
    /\ match res with
       | Raise _ => saved s' = saved s
       | Ok _ =>
           saved s' = saved s ++ [(output_font_path, font s')]
           /\ last (stdout s') = Some (FontSaved output_font_path)
           /\ flavor (font s') = None /\ recalcBBoxes (font s') = true
           /\ numGlyphs (font s') =
                (if numGlyphs f2 is Some _
                 then Some (Z.of_nat (length (glyphOrder f2))) else None)
       end.
Proof.
  unfold run. cbv [mbind M_bind].
  set (K := kept (name_of svg_data_list) (code_of svg_data_list)).
  destruct (prepare s) as [s1 [units_per_em | e]] eqn:Hprep.
  2: { intros [= <- <-]. exists (font s1). split; [by eapply kept_prepare |].
       do 5 (split; [done |]). by apply prepare_state in Hprep as (? & _). }
  pose proof Hprep as Hsaved1. apply prepare_state in Hsaved1 as (Hsaved1 & _).
  apply (kept_prepare (name_of svg_data_list) (code_of svg_data_list)) in Hprep.
  destruct (for_each _ svg_data_list s1) as [s2 [[] | e]] eqn:Hloop.
  all: pose proof Hloop as Hsaved2; apply for_each_saved in Hsaved2.
  all: apply (keeps_for_each K (kept_refl _ _) (kept_trans _ _)) in Hloop;
    [| intros r Hr; apply kept_process_request;
       [by apply list_elem_of_fmap_2 | intros code Hc; by exists r]].
  all: intros Hrun; exists (font s2); (split; [by eapply kept_trans |]).
  - apply finish_font in Hrun
      as ((Hu & Hg & _ & Hh & Hc & Hx & Ho & Hf & Hr & Hn) & _ & Hend).
    do 5 (split; [done |]). destruct res as [[] | e].
    + destruct Hend as [-> ->]. rewrite last_snoc. repeat split; try done. congruence.
    + destruct Hend as [_ ->]. congruence.
  - injection Hrun as <- <-. do 5 (split; [done |]). congruence.
Qed.

(** X12. Whatever the batch and however the run ends, a glyph name that
    no request of the batch carries keeps its outline and its metrics
    entry, and is in the glyph order after the run exactly if it was
    before. *)
Theorem unrequested_glyphs_are_untouched input_font output_font_path svg_data_list name :
  name ∉ map glyph_name svg_data_list ->
  let f := font (fst (add_svg_glyphs_to_font input_font output_font_path svg_data_list)) in
  glyf f ≫= (.!! name) = glyf input_font ≫= (.!! name)
  /\ hmtx f ≫= (.!! name) = hmtx input_font ≫= (.!! name)
  /\ (name ∈ glyphOrder f <-> name ∈ glyphOrder input_font).
Proof.
  intros Hname f. subst f. unfold add_svg_glyphs_to_font.
  destruct (run _ _ _) as [s' res] eqn:Hrun. cbn [fst].
  apply run_parts in Hrun
    as (f2 & (_ & _ & _ & _ & _ & Hn & Hs & _) & _ & -> & -> & _ & -> & _).
  cbn [font] in *. destruct (Hn name Hname) as (Hg & Hh & Ho), (Hs name) as (_ & _ & Ho').
  by repeat split.
Qed.

(** X13. A run removes nothing: the units per em are unchanged, every
    glyph name that had an outline, a metrics entry or a place in the glyph
    order still has one, the character map has the same number of
    subtables, and every code point a subtable mapped is still mapped. *)
Theorem run_removes_nothing input_font output_font_path svg_data_list :
  let f := font (fst (add_svg_glyphs_to_font input_font output_font_path svg_data_list)) in
  unitsPerEm f = unitsPerEm input_font
  /\ (forall name,
        (is_Some (glyf input_font ≫= (.!! name)) -> is_Some (glyf f ≫= (.!! name)))
        /\ (is_Some (hmtx input_font ≫= (.!! name)) -> is_Some (hmtx f ≫= (.!! name)))
        /\ (name ∈ glyphOrder input_font -> name ∈ glyphOrder f))
  /\ option_Forall2
       (Forall2 (fun t t' => forall code,
                   is_Some (cmap t !! code) -> is_Some (cmap t' !! code)))
       (cmap_tables input_font) (cmap_tables f).
Proof.
  intros f. subst f. unfold add_svg_glyphs_to_font.
  destruct (run _ _ _) as [s' res] eqn:Hrun. cbn [fst].
  apply run_parts in Hrun
    as (f2 & (Hu & _ & _ & _ & _ & _ & Hs & Hc) & -> & -> & -> & -> & -> & _).
  cbn [font] in *. repeat split; try apply Hs; try done.
  destruct Hc as [l l' Hc |]; constructor.
  induction Hc as [| t t' l l' (_ & _ & _ & Ht) Hl IH]; by constructor.
Qed.

(** X14. A run changes the character map only at the code points of its
    requests: every subtable keeps its kind, a subtable that is not a
    Unicode one is unchanged, and a Unicode subtable maps every code point
    that is no request's as before. *)
Theorem other_code_points_are_untouched input_font output_font_path svg_data_list :
  let f := font (fst (add_svg_glyphs_to_font input_font output_font_path svg_data_list)) in
  option_Forall2
    (Forall2 (fun t t' =>
       isUnicode t' = isUnicode t
       /\ (isUnicode t = false -> cmap t' = cmap t)
       /\ forall code,
            (forall r, r ∈ svg_data_list -> int_of_hex (unicode_hex r) <> Some code) ->
            cmap t' !! code = cmap t !! code))
    (cmap_tables input_font) (cmap_tables f).
Proof.
  intros f. subst f. unfold add_svg_glyphs_to_font.
  destruct (run _ _ _) as [s' res] eqn:Hrun. cbn [fst].
  apply run_parts in Hrun
    as (f2 & (_ & _ & _ & _ & _ & _ & _ & Hc) & _ & _ & _ & -> & _).
  cbn [font] in *. destruct Hc as [l l' Hc |]; constructor.
  induction Hc as [| t t' l l' (Hu & Hn & Ho & _) Hl IH]; constructor; [| done].
  repeat split; try done. intros code Hcode. apply Ho.
  intros (r & Hr & Hhex). by apply (Hcode r).
Qed.

(** X15. A run that ends normally has written one file, at the output
    path, holding the font as it is in memory at the end: of no flavor,
    flagged for the recalculation of bounding boxes, and with the glyph
    count, where the font has a maximum profile table, equal to the length
    of the glyph order; its last line of output reports the save.  A run
    that ends in an error has written nothing. *)
Theorem output_is_written_once input_font output_font_path svg_data_list :
  let s := fst (add_svg_glyphs_to_font input_font output_font_path svg_data_list) in
  match snd (add_svg_glyphs_to_font input_font output_font_path svg_data_list) with
  | Ok _ =>
      saved s = [(output_font_path, font s)]
      /\ last (stdout s) = Some (FontSaved output_font_path)
      /\ flavor (font s) = None /\ recalcBBoxes (font s) = true
      /\ numGlyphs (font s) =
           (if numGlyphs input_font is Some _
            then Some (Z.of_nat (length (glyphOrder (font s)))) else None)
  | Raise _ => saved s = []
  end.
Proof.
  intros s. subst s. unfold add_svg_glyphs_to_font.
  destruct (run _ _ _) as [s' res] eqn:Hrun. cbn [fst snd].
  apply run_parts in Hrun as (f2 & (_ & _ & Hn & _) & _ & _ & _ & _ & -> & Hres).
  cbn [font saved] in *. destruct res as [[] | e]; [| done].
  destruct Hres as (-> & -> & -> & -> & ->). by rewrite Hn.
Qed.

End Run_properties.

(** *** The order of the requests, and completeness *)

Section Batch_properties.
Context `{Externals}.

Lemma attempted_app l1 l2 : attempted (l1 ++ l2) = attempted l1 ++ attempted l2.
Proof. unfold attempted. apply omap_app. Qed.

Lemma outline_of_request_announces units_per_em r s s' res :
  outline_of_request units_per_em r s = (s', res) ->
  attempted (stdout s') = attempted (stdout s) ++ [announced r].
Proof.
  unfold outline_of_request. unfold_M. intros Hrun.
  step_M; rewrite ?attempted_app; cbn; rewrite <- ?app_assoc, ?app_nil_r; done.
Qed.

Lemma insert_glyph_announces r width glyph s s' res :
  insert_glyph r width glyph s = (s', res) ->
  attempted (stdout s') = attempted (stdout s).
Proof.
  unfold insert_glyph. unfold_M. intros Hrun.
  step_M; rewrite ?attempted_app; cbn; rewrite <- ?app_assoc, ?app_nil_r; done.
Qed.

Lemma process_request_announces units_per_em r s s' res :
  process_request units_per_em r s = (s', res) ->
  attempted (stdout s') = attempted (stdout s) ++ [announced r].
Proof.
  unfold process_request. cbv [mbind M_bind mret M_ret].
  destruct (outline_of_request units_per_em r s) as [s1 [[[width glyph] |] |]] eqn:Hout;
    apply outline_of_request_announces in Hout.
  - intros Hins%insert_glyph_announces. congruence.
  - by intros [= <- _].
  - by intros [= <- _].
Qed.

Lemma for_each_announces units_per_em rs : forall s s' res,
  for_each (process_request units_per_em) rs s = (s', res) ->
  exists n,
    attempted (stdout s') = attempted (stdout s) ++ map announced (take n rs)
    /\ (res = Ok tt -> take n rs = rs).
Proof.
  induction rs as [| r rs IH]; intros s s' res; cbn [for_each].
  - intros [= <- <-]. exists 0%nat. by rewrite app_nil_r.
  - cbv [mbind M_bind].
    destruct (process_request units_per_em r s) as [s1 [[] | e]] eqn:Hr;
      apply process_request_announces in Hr.
    + intros (n & Hn & Hall)%IH. exists (S n). cbn. rewrite Hn, Hr, <- app_assoc.
      split; [done |]. intros Hok. by rewrite Hall.
    + intros [= <- <-]. by exists 1%nat.
Qed.

(** X16. The requests are attempted in the order of the list, each once:
    the requests announced in the output are an initial part of the list,
    and the whole list when the run ends normally. *)
Theorem requests_are_attempted_in_order input_font output_font_path svg_data_list :
  let s := fst (add_svg_glyphs_to_font input_font output_font_path svg_data_list) in
  exists n,
    attempted (stdout s) = map announced (take n svg_data_list)
    /\ (snd (add_svg_glyphs_to_font input_font output_font_path svg_data_list) = Ok tt ->
        attempted (stdout s) = map announced svg_data_list).
Proof.
  intros s. subst s. unfold add_svg_glyphs_to_font, run. cbv [mbind M_bind].
  destruct (prepare _) as [s1 [units_per_em | e]] eqn:Hprep;
    apply prepare_state in Hprep as (_ & Hout1 & _); cbn [stdout font] in Hout1.
  2: { exists 0%nat. cbn [fst snd]. by rewrite Hout1. }
  destruct (for_each _ svg_data_list s1) as [s2 [[] | e]] eqn:Hloop;
    apply for_each_announces in Hloop as (n & Hn & Hall); rewrite Hout1 in Hn; cbn in Hn.
  - destruct (finish output_font_path s2) as [s3 res3] eqn:Hfin. cbn [fst snd].
    apply finish_font in Hfin as (_ & _ & Hend).
    exists n. destruct res3 as [[] | e]; destruct Hend as [-> _]; [| by split].
    rewrite attempted_app, Hn, app_nil_r. split; [done |].
    intros _. by rewrite Hall.
  - exists n. cbn [fst snd]. by split.
Qed.

(** *** Completeness of the saved font *)

Lemma process_request_complete units_per_em r s s' :
  process_request units_per_em r s = (s', Ok tt) ->
  complete (font s) -> complete (font s').
Proof.
  unfold process_request. cbv [mbind M_bind mret M_ret].
  destruct (outline_of_request units_per_em r s) as [s1 [[[width glyph] |] |]] eqn:Hout;
    [| | done]; apply outline_of_request_state in Hout as (<- & _).
  2: by intros [= <-].
  intros (code & glyphs & entries & tables & _ & Hg & _ & Hh & _ & -> & _)%insert_glyph_font
         Hcomplete name.
  unfold complete in Hcomplete. rewrite Hg, Hh in Hcomplete. cbn in *.
  destruct (decide (name = glyph_name r)) as [-> | Hne].
  - intros _. rewrite !lookup_insert_eq. by split; eexists.
  - rewrite !lookup_insert_ne by done. intros Hin. apply Hcomplete.
    destruct (in_order _ _); [done |].
    apply elem_of_app in Hin as [Hin | Hin%list_elem_of_singleton]; done.
Qed.

Lemma for_each_complete units_per_em rs : forall s s',
  for_each (process_request units_per_em) rs s = (s', Ok tt) ->
  complete (font s) -> complete (font s').
Proof.
  induction rs as [| r rs IH]; intros s s'; cbn [for_each].
  - by intros [= <-].
  - cbv [mbind M_bind].
    destruct (process_request units_per_em r s) as [s1 [[] | e]] eqn:Hr; [| done].
    intros Hrest Hc. eapply IH; [done |]. by eapply process_request_complete.
Qed.

(** X17. If every glyph of the glyph order of the input font has an
    outline and a metrics entry, the same holds of the font a run saves:
    no glyph name is saved in the glyph order without both. *)
Theorem saved_font_is_complete input_font output_font_path svg_data_list path f :
  complete input_font ->
  (path, f) ∈ saved (fst (add_svg_glyphs_to_font input_font output_font_path
                            svg_data_list)) ->
  complete f.
Proof.
  intros Hcomplete. unfold add_svg_glyphs_to_font, run. cbv [mbind M_bind].
  destruct (prepare _) as [s1 [units_per_em | e]] eqn:Hprep;
    apply prepare_state in Hprep as (Hsaved1 & _ & Ho1 & _ & Hg1 & Hh1 & _);
    cbn [font saved] in *.
  2: { cbn [fst]. rewrite Hsaved1. by intros ?%not_elem_of_nil. }
  assert (Hc1 : complete (font s1)).
  { intros name. rewrite Ho1, Hg1, Hh1. intros [Hg Hh]%Hcomplete.
    destruct (glyf input_font), (hmtx input_font); by destruct Hg, Hh. }
  destruct (for_each _ svg_data_list s1) as [s2 [[] | e]] eqn:Hloop.
  - pose proof (for_each_saved _ _ _ _ _ Hloop) as Hsaved2.
    apply for_each_complete in Hloop; [| done].
    destruct (finish output_font_path s2) as [s3 res3] eqn:Hfin. cbn [fst].
    apply finish_font in Hfin as ((_ & Hg & _ & Hh & _ & _ & Ho & _) & _ & Hend).
    destruct res3 as [[] | e]; destruct Hend as [_ ->]; rewrite Hsaved2, Hsaved1; cbn.
    2: by intros ?%not_elem_of_nil.
    intros [= -> ->]%list_elem_of_singleton.
    intros name. rewrite Ho, Hg, Hh. apply Hloop.
  - apply for_each_saved in Hloop. cbn [fst]. rewrite Hloop, Hsaved1.
    by intros ?%not_elem_of_nil.
Qed.

End Batch_properties.

(** *** The writes of a batch *)

Section Trace.
Context `{Externals}.

Hypothesis draw_ignores_font : forall (f f' : Font) svg_path,
  draw_glyph f svg_path = draw_glyph f' svg_path.








Lemma insert_glyph_written r width glyph s s' :
  insert_glyph r width glyph s = (s', Ok tt) ->
  exists code,
    int_of_hex (unicode_hex r) = Some code
    /\ writable (font s)
    /\ font s' = written (font s) {| w_name := glyph_name r; w_glyph := glyph;
                                     w_width := width; w_code := code |}
    /\ saved s' = saved s.
Proof.
  intros (code & glyphs & entries & tables & Hcode & Hg & Hl & Hh & Hc & Hf & _ & Hs)
         %insert_glyph_font.
  exists code. split; [done |].
  split; [unfold writable, tables_exist; rewrite Hg, Hh, Hc; by repeat split |].
  split; [| done]. rewrite Hf. unfold written, add_name, write_subtable. cbn.
  by rewrite Hg, Hh, Hc.
Qed.

Lemma written_tables_exist f w : tables_exist f -> tables_exist (written f w).
Proof.
  intros (Hg & Hh & Hc). unfold tables_exist, written. cbn.
  by rewrite !fmap_is_Some.
Qed.

Lemma written_writable f w : writable f -> writable (written f w).
Proof. intros [Ht Hl]. split; [by apply written_tables_exist | done]. Qed.





End Trace.

(** *** Writing twice *)

Section Writes_twice.
Context `{Externals}.


















End Writes_twice.

(** *** A second run *)

Section Idempotence.
Context `{Externals}.







End Idempotence.

(** *** Batches that nothing stops *)

Section Valid_batches.
Context `{Externals}.

(** [prepare] on a font read with its outline table and a Unicode
    subtable. *)
Lemma prepare_succeeds s glyphs tables em :
  glyf (font s) = Some glyphs -> glyf_has_glyphOrder (font s) = true ->
  cmap_tables (font s) = Some tables ->
  filter (fun t => isUnicode t = true) tables <> [] ->
  Py.float_of_int (unitsPerEm (font s)) = Ok em ->
  exists s1, prepare s = (s1, Ok (unitsPerEm (font s))) /\ writable (font s1).
Proof.
  intros Hg Hl Hc Hu Hem. unfold prepare, writable, tables_exist. unfold_M.
  rewrite Hg. cbn. destruct (hmtx (font s)) eqn:Hh; cbn;
    rewrite ?Hh, ?Hc; cbn; rewrite ?Hh, ?Hc; cbn;
    (destruct (filter _ tables); [done |]); cbn; rewrite Hem; cbn;
    (eexists; split; [reflexivity |]); cbn; rewrite ?Hg, ?Hh, ?Hc; by repeat split.
Qed.

Lemma valid_request_is_processed units_per_em r s :
  valid units_per_em r -> writable (font s) ->
  exists s',
    process_request units_per_em r s = (s', Ok tt)
    /\ writable (font s') /\ present r (font s').
Proof.
  intros (Hexists & [code Hcode] & width & data & t & svg_path
          & Hwidth & Hread & Hcalc & Hsvg & Hdraw)
         (([glyphs Hg] & [entries Hh] & [tables Hc]) & Hl).
  destruct (Hdraw (font s)) as [glyph Hglyph].
  destruct (request_outline units_per_em r s width data t svg_path glyph)
    as (s1 & Hout & Hfont1 & _); try done.
  rewrite <- Hfont1 in Hg, Hh, Hc, Hl.
  destruct (insert_glyph_succeeds r width glyph s1 code glyphs entries tables)
    as [s' Hins]; try done.
  exists s'. unfold process_request. cbv [mbind M_bind]. rewrite Hout.
  split; [done |].
  apply insert_glyph_written in Hins as (code' & _ & Hex & -> & _).
  split; [by apply written_writable |].
  unfold present, written, add_name, in_order. cbn. rewrite Hg, Hh. cbn.
  rewrite !lookup_insert_eq. repeat split; try done.
  case_bool_decide; [done |]. apply elem_of_app. right. by apply list_elem_of_singleton.
Qed.

Lemma present_kept names codes r f f' : kept names codes f f' -> present r f -> present r f'.
Proof.
  intros (_ & _ & _ & _ & _ & _ & Hs & _) (Ho & Hg & Hh).
  destruct (Hs (glyph_name r)) as (Hg' & Hh' & Ho'). repeat split; auto.
Qed.

Lemma valid_batch_is_processed units_per_em rs : forall s,
  writable (font s) ->
  (forall r, r ∈ rs -> path_exists (svg_file_path r) = false \/ valid units_per_em r) ->
  exists s',
    for_each (process_request units_per_em) rs s = (s', Ok tt)
    /\ forall r, r ∈ rs -> valid units_per_em r -> present r (font s').
Proof.
  induction rs as [| r rs IH]; intros s Htables Hall; cbn [for_each].
  - exists s. split; [done |]. by intros r ?%not_elem_of_nil.
  - cbv [mbind M_bind].
    assert (Hr : exists s1,
      process_request units_per_em r s = (s1, Ok tt)
      /\ writable (font s1) /\ (valid units_per_em r -> present r (font s1))).
    { destruct (Hall r) as [Hmissing | Hvalid]; [by left | |].
      - exists {| font := font s;
                  stdout := stdout s ++ [Processing (svg_file_path r) (glyph_name r)
                                           (unicode_hex r);
                                         FileNotFound (svg_file_path r)];
                  saved := saved s |}.
        split; [| split; [done |]].
        + unfold process_request, outline_of_request. unfold_M.
          rewrite Hmissing. cbn. by rewrite <- app_assoc.
        + intros (Hexists & _). congruence.
      - destruct (valid_request_is_processed units_per_em r s Hvalid Htables)
          as (s1 & Hrun & Ht1 & Hp1).
        by exists s1. }
    destruct Hr as (s1 & -> & Ht1 & Hp1).
    destruct (IH s1 Ht1) as (s' & Hloop & Hrest).
    { intros r' Hr'. apply Hall. by right. }
    exists s'. split; [done |].
    intros r' [-> | Hr']%elem_of_cons Hvalid; [| by apply Hrest].
    apply (present_kept (fun _ => True) (fun _ => True) _ (font s1)); [| by apply Hp1].
    apply (keeps_for_each (kept (fun _ => True) (fun _ => True))
             (kept_refl _ _) (kept_trans _ _)) in Hloop; [done |].
    intros x _. by apply kept_process_request.
Qed.

(** X19. On a font read with its outline table and a Unicode subtable, a
    batch in which every request either has no file or is one that nothing
    stops is taken to the save: every request is attempted, the glyph of
    every request that nothing stops is in the font in memory, in its glyph
    order, with an outline and a metrics entry, and the run ends as the
    compilation of that font ends, so that it ends normally, with that
    font written to the output path, exactly when the library can write
    the font.  Nothing is claimed of a font without an outline table, on
    which the first write of an outline raises. *)
Theorem valid_requests_are_all_inserted input_font output_font_path svg_data_list
    glyphs tables em :
  glyf input_font = Some glyphs -> glyf_has_glyphOrder input_font = true ->
  cmap_tables input_font = Some tables ->
  filter (fun t => isUnicode t = true) tables <> [] ->
  Py.float_of_int (unitsPerEm input_font) = Ok em ->
  (forall r, r ∈ svg_data_list ->
     path_exists (svg_file_path r) = false \/ valid (unitsPerEm input_font) r) ->
  let s := fst (add_svg_glyphs_to_font input_font output_font_path svg_data_list) in
  attempted (stdout s) = map announced svg_data_list
  /\ (forall r, r ∈ svg_data_list -> valid (unitsPerEm input_font) r -> present r (font s))
  /\ snd (add_svg_glyphs_to_font input_font output_font_path svg_data_list)
     = font_compile (font s)
  /\ (font_compile (font s) = Ok tt -> saved s = [(output_font_path, font s)]).
Proof.
  intros Hg Hl Hc Hu Hem Hall. unfold add_svg_glyphs_to_font, run. cbv [mbind M_bind].
  destruct (prepare_succeeds {| font := input_font; stdout := []; saved := [] |}
              glyphs tables em) as (s1 & Hprep & Ht1); try done.
  rewrite Hprep. cbn [font].
  apply prepare_state in Hprep as (Hsaved1 & Hout1 & _).
  destruct (valid_batch_is_processed (unitsPerEm input_font) svg_data_list s1 Ht1 Hall)
    as (s2 & Hloop & Hpresent).
  rewrite Hloop.
  pose proof (for_each_saved _ _ _ _ _ Hloop) as Hsaved2.
  apply for_each_announces in Hloop as (n & Hn & Htake).
  rewrite (Htake eq_refl), Hout1 in Hn. cbn in Hn.
  destruct (finish output_font_path s2) as [s3 res] eqn:Hfin. cbn [fst snd].
  apply finish_font in Hfin as ((_ & Hg' & _ & Hh' & _ & _ & Ho' & _) & Hres & Hend).
  split; [| split; [| split; [done |]]].
  - destruct res as [[] | e]; destruct Hend as [-> _]; [| done].
    by rewrite attempted_app, Hn, app_nil_r.
  - intros r Hr Hvalid. destruct (Hpresent r Hr Hvalid) as (Ho & Hg2 & Hh2).
    unfold present. by rewrite Ho', Hg', Hh'.
  - intros Hok. rewrite Hok in Hres. subst res. destruct Hend as [_ ->].
    by rewrite Hsaved2, Hsaved1.
Qed.

End Valid_batches.

(** *** A font without an outline table *)

Section New_outline_table.
Context `{Externals}.

Lemma missing_files_are_skipped units_per_em before : forall s,
  (forall x, x ∈ before -> path_exists (svg_file_path x) = false) ->
  exists s',
    for_each (process_request units_per_em) before s = (s', Ok tt)
    /\ font s' = font s /\ saved s' = saved s.
Proof.
  induction before as [| x before IH]; intros s Hmissing; cbn [for_each].
  - by exists s.
  - assert (Hx : path_exists (svg_file_path x) = false) by (apply Hmissing; by left).
    cbv [mbind M_bind].
    assert (Hskip : exists s1, process_request units_per_em x s = (s1, Ok tt)
                      /\ font s1 = font s /\ saved s1 = saved s).
    { unfold process_request, outline_of_request.
      cbv [mbind mret M_bind M_ret print]. rewrite Hx. cbn. by eexists. }
    destruct Hskip as (s1 & -> & Hfont1 & Hsaved1).
    destruct (IH s1) as (s' & Hloop & Hfont & Hsaved).
    { intros y Hy. apply Hmissing. by right. }
    exists s'. split; [done |]. split; congruence.
Qed.

(** [prepare] on a font without an outline table makes the empty one. *)
Lemma prepare_makes_outline_table s tables em :
  glyf (font s) = None ->
  cmap_tables (font s) = Some tables ->
  filter (fun t => isUnicode t = true) tables <> [] ->
  Py.float_of_int (unitsPerEm (font s)) = Ok em ->
  exists s1,
    prepare s = (s1, Ok (unitsPerEm (font s)))
    /\ glyf (font s1) = Some ∅ /\ glyf_has_glyphOrder (font s1) = false
    /\ glyphOrder (font s1) = glyphOrder (font s) /\ saved s1 = saved s.
Proof.
  intros Hg Hc Hu Hem. unfold prepare. unfold_M.
  rewrite Hg. cbn. destruct (hmtx (font s)) eqn:Hh; cbn;
    rewrite ?Hh, ?Hc; cbn; rewrite ?Hh, ?Hc; cbn;
    (destruct (filter _ tables); [done |]); cbn; rewrite Hem; cbn;
    (eexists; split; [reflexivity |]); by repeat split.
Qed.

(** The write of an outline to a table without its glyph order. *)
Lemma insert_glyph_new_table r width glyph s glyphs :
  glyf (font s) = Some glyphs -> glyf_has_glyphOrder (font s) = false ->
  exists s',
    insert_glyph r width glyph s = (s', Raise (AttributeError "glyphOrder"))
    /\ glyf (font s') = Some (<[glyph_name r := glyph]> glyphs)
    /\ glyphOrder (font s') = glyphOrder (font s) /\ saved s' = saved s.
Proof.
  intros Hg Hl. unfold insert_glyph. unfold_M. rewrite Hg. cbn. rewrite Hl. cbn.
  by eexists.
Qed.

(** X23. On a font without an outline table the run makes an empty one,
    which takes no outline: the first request that gets as far as the
    write of its outline, here after requests without a file, ends the run
    in an [AttributeError] for the glyph order that this table lacks.
    Nothing is saved; the outline is in the table by then, and the glyph
    order of the font is as it was. *)
Theorem new_outline_table_cannot_be_written input_font output_font_path before r later
    tables em :
  glyf input_font = None ->
  cmap_tables input_font = Some tables ->
  filter (fun t => isUnicode t = true) tables <> [] ->
  Py.float_of_int (unitsPerEm input_font) = Ok em ->
  (forall x, x ∈ before -> path_exists (svg_file_path x) = false) ->
  valid (unitsPerEm input_font) r ->
  let s := fst (add_svg_glyphs_to_font input_font output_font_path
                  (before ++ r :: later)) in
  snd (add_svg_glyphs_to_font input_font output_font_path (before ++ r :: later))
  = Raise (AttributeError "glyphOrder")
  /\ saved s = []
  /\ glyphOrder (font s) = glyphOrder input_font
  /\ exists glyph, glyf (font s) = Some {[glyph_name r := glyph]}.
Proof.
  intros Hg Hc Hu Hem Hmissing
         (Hexists & _ & width & data & t & svg_path & Hwidth & Hread & Hcalc & Hsvg & Hdraw).
  unfold add_svg_glyphs_to_font, run. cbv [mbind M_bind].
  destruct (prepare_makes_outline_table
              {| font := input_font; stdout := []; saved := [] |} tables em)
    as (s1 & -> & Hg1 & Hl1 & Ho1 & Hs1); try done.
  cbn [font saved] in *. rewrite for_each_app. cbv [mbind M_bind].
  destruct (missing_files_are_skipped (unitsPerEm input_font) before s1 Hmissing)
    as (s2 & -> & Hfont2 & Hsaved2).
  cbn [for_each]. cbv [mbind M_bind].
  destruct (Hdraw (font s2)) as [glyph Hglyph].
  destruct (request_outline (unitsPerEm input_font) r s2 width data t svg_path glyph)
    as (s3 & Hout & Hfont3 & _); try done.
  pose proof (outline_of_request_state _ _ _ _ _ Hout) as (_ & Hsaved3 & _).
  destruct (insert_glyph_new_table r width glyph s3 ∅)
    as (s4 & Hins & Hg4 & Ho4 & Hs4);
    [by rewrite Hfont3, Hfont2 | by rewrite Hfont3, Hfont2 |].
  assert (Hreq : process_request (unitsPerEm input_font) r s2
                 = (s4, Raise (AttributeError "glyphOrder"))).
  { unfold process_request. cbv [mbind M_bind]. by rewrite Hout. }
  rewrite Hreq. cbn [fst snd].
  split; [done |]. split; [congruence |]. split; [congruence |].
  exists glyph. by rewrite Hg4, insert_empty.
Qed.

End New_outline_table.

(** *** A font without a metrics table *)

Section New_metrics_table.
Context `{Externals}.

(** A run that ends normally has compiled the font it leaves. *)
Lemma run_result_is_compiled output_font_path svg_data_list s s' :
  run output_font_path svg_data_list s = (s', Ok tt) -> font_compile (font s') = Ok tt.
Proof.
  unfold run. cbv [mbind M_bind].
  destruct (prepare s) as [s1 [units_per_em | e]]; [| done].
  destruct (for_each _ svg_data_list s1) as [s2 [[] | e]]; [| done].
  by intros (_ & <- & _)%finish_font.
Qed.

(** X24. Where the library writes no font in which a glyph of the glyph
    order lacks its outline or its metrics, the empty metrics table that
    the run makes for a font without one cannot be saved: if the glyph
    order of such a font has a glyph that no request of the batch names,
    the run ends in an error, whatever the batch, and writes no file. *)
Theorem new_metrics_table_cannot_be_saved input_font output_font_path svg_data_list name :
  (forall f : Font, font_compile f = Ok tt -> complete f) ->
  hmtx input_font = None ->
  name ∈ glyphOrder input_font -> name ∉ map glyph_name svg_data_list ->
  let s := fst (add_svg_glyphs_to_font input_font output_font_path svg_data_list) in
  (exists e, snd (add_svg_glyphs_to_font input_font output_font_path svg_data_list)
             = Raise e)
  /\ saved s = [].
Proof.
  intros Hlibrary Hh Hin Hname s. subst s. unfold add_svg_glyphs_to_font.
  destruct (run _ _ _) as [s' res] eqn:Hrun. cbn [fst snd].
  destruct res as [[] | e].
  - exfalso. pose proof (run_result_is_compiled _ _ _ _ Hrun) as Hok.
    apply Hlibrary in Hok.
    apply run_parts in Hrun
      as (f2 & (_ & _ & _ & _ & _ & Hn & Hs & _) & _ & _ & Hh' & _ & Ho' & _).
    cbn [font] in *.
    destruct (Hn name Hname) as (_ & Hhn & _). destruct (Hs name) as (_ & _ & Hon).
    destruct (Hok name) as [_ [metrics Hm]]; [rewrite Ho'; by apply Hon |].
    rewrite Hh', Hhn, Hh in Hm. done.
  - split; [by eexists |]. by apply run_raise_saves_nothing in Hrun.
Qed.

End New_metrics_table.

(** ** Runs of the sample environment *)

Section Examples.

Import Sample.

Lemma with_result {A B : Type} (p : A * B) (b : B) : snd p = b -> p = (fst p, b).
Proof. destruct p. simpl. by intros ->. Qed.

(** C6, at the sample SVG with a viewBox, 1000 units per em and width 600. *)
Lemma transform_is_a_flip_boxed :
  calculate_transform boxed_svg 1000 600 (Py.Int 0) = Ok seven
  /\ (yy seven = (- xx seven)%float /\ xy seven = 0 /\ yx seven = 0).
Proof.
  split; [vm_compute; reflexivity |].
  apply (transform_is_a_flip boxed_svg 1000 600 (Py.Int 0) seven).
  vm_compute; reflexivity.
Defined.

(** C5, at the sample SVG without a viewBox, 1000 units per em and width
    600: scale 0.7, tx -50.0, ty 450.0. *)
Lemma fallback_transform_plain :
  calculate_transform plain_svg 1000 600 (Py.Int 0)
    = Ok {| xx := 0.7; xy := 0; yx := 0; yy := (-0.7)%float; dx := (-50)%float; dy := 450 |}.
Proof.
  apply (fallback_transform plain_svg 1000 600 (Py.Int 0) 1000%float (-50)%float);
    vm_compute; reflexivity.
Defined.

(** C4, at 1000 units per em, width 600, viewBox (0, 0, 100, 100) and
    offset 0: the transform (7.0, 0, 0, -7.0, 1750.0, 650.0). *)
Lemma viewbox_transform_boxed :
  calculate_transform boxed_svg 1000 600 (Py.Int 0) = Ok seven
  /\ (0 <? xx seven)%float = true.
Proof.
  destruct (viewbox_transform boxed_svg 1000 600 (Py.Int 0) 0 0 100 100 1000 600 0)
    as [Hcalc Hpos]; try (vm_compute; reflexivity).
  split; [exact Hcalc |].
  apply Hpos; [lia | reflexivity | reflexivity].
Defined.

(** C4 as stated fails: with advance width 0 the code centres in the 1000
    units per em (tx 3150.0), not in the width 0 of the stated formula
    (tx -350.0); with an infinite viewBox, or 0 units per em, the scale
    factor is 0 and not strictly positive. *)
Lemma viewbox_transform_not_as_claimed :
  (exists t, calculate_transform boxed_svg 1000 0 (Py.Int 0) = Ok t
             /\ dx t = 3150%float
             /\ ((0 - 100) / 2 - 0 + 0) * 7 = (-350)%float
             /\ dx t <> (((0 - 100) / 2 - 0 + 0) * 7)%float)%float
  /\ (exists t, calculate_transform "<svg viewBox='0 0 inf inf'>" 1000 600 (Py.Int 0) = Ok t
                /\ (0 <? infinity)%float = true
                /\ xx t = 0%float /\ (0 <? xx t)%float = false)
  /\ (exists t, calculate_transform boxed_svg 0 600 (Py.Int 0) = Ok t
                /\ xx t = 0%float /\ (0 <? xx t)%float = false).
Proof.
  repeat split.
  - eexists. split; [vm_compute; reflexivity |]. cbn [dx].
    repeat split; try reflexivity.
    intros Heq. apply (f_equal (fun z => (z =? 3150)%float)) in Heq.
    vm_compute in Heq. discriminate.
  - eexists. split; [vm_compute; reflexivity |]. repeat split; reflexivity.
  - eexists. split; [vm_compute; reflexivity |]. repeat split; reflexivity.
Qed.

(** C1 as stated fails: for a request with advance width 0 in a font of
    1000 units per em the transform printed has tx 1750.0, centred in the
    defaulted width 600 and not in the 1000 units per em, and the metrics
    table gets the same 600. *)
Lemma default_width_not_em_centred :
  let s := fst (add_svg_glyphs_to_font font_1000 "out.ttf" [cup_request]) in
  advance_width cup_request = 0
  /\ unitsPerEm font_1000 = 1000
  /\ get_svg_viewbox boxed_svg = Some [0; 0; 100; 100]%float
  /\ stdout s = [FontUnitsPerEm 1000; Processing "boxed.svg" "cup" "222A";
                 UsingTransform seven; AddedGlyph "cup" 600; FontSaved "out.ttf"]
  /\ dx seven = (((600 - 100) / 2 - 0 + 0) * 7)%float
  /\ dx seven <> (((1000 - 100) / 2 - 0 + 0) * 7)%float
  /\ hmtx (font s) ≫= (.!! "cup") = Some (600, 0).
Proof.
  repeat split; try (vm_compute; reflexivity).
  intros Heq. apply (f_equal (fun z => (z =? 1750)%float)) in Heq.
  vm_compute in Heq. discriminate.
Qed.

(** C1, amended, at the same request. *)
Lemma default_width_is_also_centred_in_cup :
  default_advance_width 1000 = Ok 600
  /\ (2 <= 1000 <= 65535 -> centering_width 1000 600 = 600)
  /\ exists data t,
       read_binary "boxed.svg" = Ok data
       /\ calculate_transform (decode_utf8 data) 1000 600 (Py.Int 0) = Ok t
       /\ dx t = 1750%float.
Proof.
  destruct (default_width_is_also_centred_in 1000 cup_request (start font_1000)
              (fst (outline_of_request 1000 cup_request (start font_1000)))
              600 boxed_svg)
    as (Hwidth & Hcentre & _ & data & t & Hread & Hcalc & _ & Hdx).
  - reflexivity.
  - apply with_result. vm_compute. reflexivity.
  - split; [exact Hwidth |]. split; [exact Hcentre |].
    exists data, t. split; [exact Hread |]. split; [exact Hcalc |].
    assert (Hdata : data = list_byte_of_string boxed_svg)
      by (vm_compute in Hread; by injection Hread).
    subst data.
    destruct (Hdx 0 0 100 100)%float as (centre & offset & Hc & Ho & ->).
    + vm_compute. reflexivity.
    + vm_compute in Hc, Ho. injection Hc as <-. injection Ho as <-.
      assert (Ht : t = seven) by (vm_compute in Hcalc; by injection Hcalc).
      subst t. vm_compute. reflexivity.
Defined.

(** C3 as stated fails: at 2048 units per em the stored default width is
    1228, while round(2048 * 0.6) is 1229. *)
Lemma stored_default_width_not_rounded :
  let s := fst (add_svg_glyphs_to_font font_2048 "out.ttf" [cup_request]) in
  advance_width cup_request = 0
  /\ unitsPerEm font_2048 = 2048
  /\ hmtx (font s) ≫= (.!! "cup") = Some (1228, 0)
  /\ (em ← Py.float_of_int 2048; Py.round (em * 0.6)%float) = Ok 1229.
Proof. repeat split; vm_compute; reflexivity. Qed.

(** C3, amended, at 2048 units per em. *)
Lemma stored_default_width_is_truncated_2048 :
  let s1 := fst (outline_of_request 2048 cup_request (start font_2048)) in
  let s2 := fst (insert_glyph cup_request 1228 boxed_svg s1) in
  hmtx (font s2) ≫= (.!! "cup") = Some (1228, 0)
  /\ default_advance_width 2048 = Ok 1228
  /\ (0 <= 2048 <= 65535 -> 1228 = 3 * 2048 / 5).
Proof.
  intros s1 s2.
  apply (stored_default_width_is_truncated 2048 cup_request (start font_2048) s1 s2
           1228 boxed_svg).
  - reflexivity.
  - apply with_result. vm_compute. reflexivity.
  - apply with_result. vm_compute. reflexivity.
Defined.

(** C7, at a font whose only subtable is not a Unicode one. *)
Lemma missing_unicode_cmap_is_fatal_symbol_font :
  let f := font_with 1000 (Some [symbol_subtable]) in
  let run := add_svg_glyphs_to_font f "out.ttf" [cup_request] in
  snd run = Raise (ValueError "Font doesn't have Unicode cmap tables")
  /\ stdout (fst run) = [FontUnitsPerEm 1000]
  /\ saved (fst run) = [].
Proof.
  intros f run.
  destruct (missing_unicode_cmap_is_fatal f "out.ttf" [cup_request])
    as (Hres & Hout & Hsaved & _).
  - intros tables [= <-]. repeat constructor.
  - repeat split; assumption.
Defined.

(** C8, at a text with two viewBox attributes: the first one is taken. *)
Lemma viewbox_extraction_two_boxes :
  first_attribute two_boxes_svg "0 0 100 100"
  /\ get_svg_viewbox two_boxes_svg = Some [0; 0; 100; 100]%float.
Proof.
  assert (Hfirst : first_attribute two_boxes_svg "0 0 100 100").
  { apply (search_finds_first_attribute two_boxes_svg
             {| Re.group1 := "0 0 100 100"; Re.span := 21 |}).
    vm_compute. reflexivity. }
  split; [exact Hfirst |].
  destruct (viewbox_extraction two_boxes_svg) as [_ Hfound].
  destruct (Hfound "0 0 100 100" Hfirst) as (_ & Hfour & _).
  apply (Hfour "0" "0" "100" "100"); vm_compute; reflexivity.
Defined.

(** C9, at a batch that inserts the glyph name cup twice, run once and
    then once more on the font it has saved. *)
Lemma glyph_order_is_idempotent_cup_twice :
  let s := fst (add_svg_glyphs_to_font font_1000 "out.ttf" cup_twice) in
  let s2 := fst (add_svg_glyphs_to_font (font s) "out.ttf" cup_twice) in
  glyphOrder (font s) = [".notdef"; "cup"]
  /\ occurrences "cup" (glyphOrder (font s)) = 1%nat
  /\ occurrences "cup" (glyphOrder (font s2)) = 1%nat.
Proof.
  intros s s2.
  assert (Horder : glyphOrder (font s) = [".notdef"; "cup"]) by (vm_compute; reflexivity).
  assert (Horder2 : glyphOrder (font s2) = [".notdef"; "cup"]) by (vm_compute; reflexivity).
  assert (Hsaved : ("out.ttf", font s) ∈ saved s).
  { replace (saved s) with [("out.ttf", font s)] by (vm_compute; reflexivity).
    apply list_elem_of_singleton. reflexivity. }
  assert (Hle : (occurrences "cup" (glyphOrder font_1000) <= 1)%nat) by (vm_compute; lia).
  destruct (glyph_order_is_idempotent font_1000 "out.ttf" cup_twice)
    as (_ & Honce & Htwice).
  split; [exact Horder |]. split.
  - apply Honce; [exact Hle |]. fold s. rewrite Horder.
    apply list_elem_of_In. right. left. reflexivity.
  - apply (Htwice "out.ttf" (font s) "out.ttf" cup_twice "cup" Hsaved Hle).
    fold s s2. rewrite Horder2. apply list_elem_of_In. right. left. reflexivity.
Defined.

(** C10 as stated fails: a request with the malformed hex string zz whose
    SVG file is missing is skipped, the run succeeds and the font, with the
    glyph of the other request, is saved. *)
Lemma malformed_hex_of_skipped_request_is_saved :
  let run := add_svg_glyphs_to_font font_1000 "out.ttf"
               [cup_request; request "nope.svg" "x" "zz" 600] in
  int_of_hex "zz" = None
  /\ snd run = Ok tt
  /\ (exists f, saved (fst run) = [("out.ttf", f)]
                /\ hmtx f ≫= (.!! "cup") = Some (600, 0)).
Proof.
  repeat split; try (vm_compute; reflexivity).
  eexists. split; vm_compute; reflexivity.
Qed.

(** C10, amended, at a request with the hex string zz whose SVG is fine. *)
Lemma malformed_hex_aborts_the_run_zz :
  exists e,
    snd (add_svg_glyphs_to_font font_1000 "out.ttf" [cup_request; bad_hex_request]) = Raise e
    /\ saved (fst (add_svg_glyphs_to_font font_1000 "out.ttf"
                     [cup_request; bad_hex_request])) = [].
Proof.
  apply (malformed_hex_aborts_the_run font_1000 "out.ttf"
           [cup_request; bad_hex_request] bad_hex_request).
  - apply list_elem_of_In. right. left. reflexivity.
  - reflexivity.
  - apply (outline_of_request_reached (H := collaborators) 1000 bad_hex_request 600
             (list_byte_of_string boxed_svg) seven (boxed_svg, seven) boxed_svg);
      vm_compute; reflexivity.
Defined.

(** C2, at a request whose SVG is well-formed XML with path data that
    starts with a number: the SVG reader succeeds and the pen raises; the
    run ends in that error, nothing is saved and the request after it is
    never looked at. *)
Lemma outline_failure_is_not_caught_bad_path :
  let later := [request "plain.svg" "y" "42" 600] in
  let batch := cup_request :: request "bad_path.svg" "x" "41" 600 :: later in
  for_each (process_request 1000) (request "bad_path.svg" "x" "41" 600 :: later)
    (start font_1000) =
    ({| font := font_1000;
        stdout := [Processing "bad_path.svg" "x" "41"; UsingTransform seven];
        saved := [] |}, Raise (ValueError "Unallowed implicit command"))
  /\ snd (add_svg_glyphs_to_font font_1000 "out.ttf" batch)
     = Raise (ValueError "Unallowed implicit command")
  /\ saved (fst (add_svg_glyphs_to_font font_1000 "out.ttf" batch)) = []
  /\ stdout (fst (add_svg_glyphs_to_font font_1000 "out.ttf" batch)) =
       [FontUnitsPerEm 1000; Processing "boxed.svg" "cup" "222A"; UsingTransform seven;
        AddedGlyph "cup" 600; Processing "bad_path.svg" "x" "41"; UsingTransform seven].
Proof.
  intros later batch. split.
  - apply (outline_failure_is_not_caught (H := collaborators) 1000
             (request "bad_path.svg" "x" "41" 600) later (start font_1000) 600
             (list_byte_of_string bad_path_svg) seven (bad_path_svg, seven)
             (ValueError "Unallowed implicit command"));
      vm_compute; reflexivity.
  - repeat split; vm_compute; reflexivity.
Defined.

(** X1, at a request for a file that is not in the directory. *)
Lemma missing_file_skips_request_nope :
  process_request 1000 (request "nope.svg" "x" "41" 600) (start font_1000) =
    ({| font := font_1000;
        stdout := [Processing "nope.svg" "x" "41"; FileNotFound "nope.svg"];
        saved := [] |}, Ok tt).
Proof.
  apply (missing_file_skips_request 1000 (request "nope.svg" "x" "41" 600) (start font_1000)).
  reflexivity.
Defined.

(** X2, at an empty file, which the SVG reader refuses. *)
Lemma svg_failure_skips_request_empty :
  exists s',
    process_request 1000 (request "empty.svg" "x" "41" 600) (start font_1000) = (s', Ok tt)
    /\ font s' = font_1000 /\ saved s' = []
    /\ last (stdout s') = Some (ErrorProcessing (LibraryError "ParseError")).
Proof.
  apply (svg_failure_skips_request 1000 (request "empty.svg" "x" "41" 600)
           (start font_1000) 600 (LibraryError "ParseError")).
  - reflexivity.
  - reflexivity.
  - right. exists []. split; [vm_compute; reflexivity |].
    right. eexists. split; vm_compute; reflexivity.
Defined.

(** X4, at a declaration in front of an empty [svg] element. *)
Lemma xml_declaration_is_removed_standalone :
  clean_svg_content "<?xml version='1.0' standalone='no'?><svg/>"
  = clean_svg_content "<svg/>"
  /\ clean_svg_content "<svg/>" = "<svg/>".
Proof.
  split; [| vm_compute; reflexivity].
  apply (xml_declaration_is_removed "" " version='1.0' standalone='no'" "<svg/>").
  - reflexivity.
  - discriminate.
  - reflexivity.
Defined.

(** X5, at the sample SVG with a viewBox, and at a text with an encoding
    attribute in single quotes. *)
Lemma unmarked_text_is_unchanged_boxed :
  clean_svg_content boxed_svg = boxed_svg
  /\ clean_svg_content "<svg encoding='UTF-8'/>" = "<svg encoding='UTF-8'/>".
Proof.
  split; apply unmarked_text_is_unchanged; apply SubFacts.search_lit_none;
    vm_compute; reflexivity.
Defined.

(** X6, at a viewBox of two spaces. *)
Lemma blank_viewbox_uses_fallback_spaces :
  first_attribute "<svg viewBox='  '>" "  "
  /\ calculate_transform "<svg viewBox='  '>" 1000 600 (Py.Int 0)
     = Ok {| xx := 0.7; xy := 0; yx := 0; yy := (-0.7)%float;
             dx := (-50)%float; dy := 450 |}.
Proof.
  assert (Hfirst : first_attribute "<svg viewBox='  '>" "  ").
  { apply (search_finds_first_attribute "<svg viewBox='  '>"
             {| Re.group1 := "  "; Re.span := 12 |}).
    vm_compute. reflexivity. }
  split; [exact Hfirst |].
  rewrite (blank_viewbox_uses_fallback "<svg viewBox='  '>" "  " 1000 600 (Py.Int 0) Hfirst)
    by reflexivity.
  vm_compute. reflexivity.
Defined.

(** X7, at a viewBox of width 0. *)
Lemma zero_extent_raises_flat :
  calculate_transform "<svg viewBox='0 0 0 100'>" 1000 600 (Py.Int 0)
  = Raise ZeroDivisionError.
Proof.
  apply (zero_extent_raises "<svg viewBox='0 0 0 100'>" 1000 600 (Py.Int 0) 0 0 0 100 1000).
  - vm_compute. reflexivity.
  - vm_compute. reflexivity.
  - left. reflexivity.
Defined.

(** X8, at a viewBox of three numbers. *)
Lemma wrong_count_raises_three :
  exists msg,
    calculate_transform "<svg viewBox='0 0 100'>" 1000 600 (Py.Int 0)
    = Raise (ValueError msg).
Proof.
  apply (wrong_count_raises "<svg viewBox='0 0 100'>" 1000 600 (Py.Int 0) [0; 0; 100]%float).
  - vm_compute. reflexivity.
  - discriminate.
  - simpl. lia.
Defined.

(** X9, at the sample SVG without a viewBox. *)
Lemma fallback_never_fails_plain :
  exists t,
    calculate_transform plain_svg 1000 600 (Py.Int 0) = Ok t
    /\ (1 <= 1000 -> (0 <? xx t)%float = true).
Proof.
  apply (fallback_never_fails plain_svg 1000 600 (Py.Int 0)).
  - vm_compute. reflexivity.
  - vm_compute. reflexivity.
  - vm_compute. reflexivity.
Defined.

(** X10, at the sample request, with a pen whose outlines have no points:
    the warning is printed and the glyph is inserted. *)
Lemma request_is_inserted_hollow :
  let s := @Build_State hollow_collaborators font_1000 [] [] in
  exists s',
    process_request 1000 (request "boxed.svg" "cup" "222A" 600) s = (s', Ok tt)
    /\ stdout s' =
         [] ++ [Processing "boxed.svg" "cup" "222A"; UsingTransform seven]
         ++ [NoPointsWarning "boxed.svg"] ++ [AddedGlyph "cup" 600]
    /\ glyf (font s') ≫= (.!! "cup") = Some boxed_svg
    /\ hmtx (font s') ≫= (.!! "cup") = Some (600, 0)
    /\ "cup" ∈ glyphOrder (font s')
    /\ exists tables',
         cmap_tables (font s') = Some tables'
         /\ length tables' = 2%nat
         /\ forall sub, sub ∈ tables' -> isUnicode sub = true ->
              cmap sub !! 8746 = Some "cup".
Proof.
  intros s.
  apply (request_is_inserted (H := hollow_collaborators) 1000
           (request "boxed.svg" "cup" "222A" 600) s 600
           (list_byte_of_string boxed_svg) seven (boxed_svg, seven) boxed_svg 8746
           {[".notdef" := ""]} {[".notdef" := (500, 0)]}
           [unicode_subtable; symbol_subtable]);
    vm_compute; reflexivity.
Defined.

(** X11, at a batch of three requests, the middle one for a file that is
    not in the directory. *)
Lemma missing_file_request_is_inert_nope :
  let with_it :=
    add_svg_glyphs_to_font font_1000 "out.ttf"
      ([cup_request] ++ request "nope.svg" "x" "41" 600
                     :: [request "plain.svg" "y" "42" 600]) in
  let without :=
    add_svg_glyphs_to_font font_1000 "out.ttf"
      ([cup_request] ++ [request "plain.svg" "y" "42" 600]) in
  snd with_it = snd without
  /\ font (fst with_it) = font (fst without)
  /\ saved (fst with_it) = saved (fst without).
Proof.
  apply (missing_file_request_is_inert font_1000 "out.ttf" [cup_request]
           (request "nope.svg" "x" "41" 600) [request "plain.svg" "y" "42" 600]).
  reflexivity.
Defined.

(** X12, at the glyph [.notdef] of the sample font and a batch that
    inserts [cup]. *)
Lemma unrequested_glyphs_are_untouched_notdef :
  let f := font (fst (add_svg_glyphs_to_font font_1000 "out.ttf" [cup_request])) in
  glyf f ≫= (.!! ".notdef") = glyf font_1000 ≫= (.!! ".notdef")
  /\ hmtx f ≫= (.!! ".notdef") = hmtx font_1000 ≫= (.!! ".notdef")
  /\ (".notdef" ∈ glyphOrder f <-> ".notdef" ∈ glyphOrder font_1000).
Proof.
  apply (unrequested_glyphs_are_untouched font_1000 "out.ttf" [cup_request] ".notdef").
  simpl. intros Hin. apply list_elem_of_singleton in Hin. discriminate.
Defined.

(** X17, at the sample font with an empty glyph order and a batch that
    inserts [cup]. *)
Lemma saved_font_is_complete_cup :
  let s := fst (add_svg_glyphs_to_font (setGlyphOrder font_1000 []) "out.ttf"
                  [cup_request]) in
  glyphOrder (font s) = ["cup"] /\ complete (font s).
Proof.
  intros s. split; [vm_compute; reflexivity |].
  apply (saved_font_is_complete (setGlyphOrder font_1000 []) "out.ttf" [cup_request]
           "out.ttf" (font s)).
  - intros name Hin. simpl in Hin. by apply not_elem_of_nil in Hin.
  - fold s. replace (saved s) with [("out.ttf", font s)] by (vm_compute; reflexivity).
    apply list_elem_of_singleton. reflexivity.
Defined.


(** Nothing stops the sample request. *)
Lemma cup_request_is_valid : valid 1000 cup_request.
Proof.
  split; [reflexivity |]. split; [exists 8746; vm_compute; reflexivity |].
  exists 600, (list_byte_of_string boxed_svg), seven, (boxed_svg, seven).
  do 4 (split; [vm_compute; reflexivity |]).
  intros f. exists boxed_svg. vm_compute. reflexivity.
Qed.

(** X19, at a batch of two requests that nothing stops and one without a
    file, on the sample font, which the library can write with the two
    glyphs added. *)
Lemma valid_requests_are_all_inserted_three :
  let batch := [cup_request; request "nope.svg" "x" "41" 600;
                request "plain.svg" "y" "42" 600] in
  let s := fst (add_svg_glyphs_to_font font_1000 "out.ttf" batch) in
  attempted (stdout s) = map announced batch
  /\ present cup_request (font s)
  /\ present (request "plain.svg" "y" "42" 600) (font s)
  /\ snd (add_svg_glyphs_to_font font_1000 "out.ttf" batch) = Ok tt
  /\ saved s = [("out.ttf", font s)].
Proof.
  intros batch s.
  pose proof cup_request_is_valid as Hcup.
  assert (Hplain : valid 1000 (request "plain.svg" "y" "42" 600)).
  { split; [reflexivity |]. split; [exists 66; vm_compute; reflexivity |].
    pose (t := {| xx := 0.7%float; xy := 0; yx := 0; yy := (-0.7)%float;
                  dx := (-50)%float; dy := 450%float |}).
    exists 600, (list_byte_of_string plain_svg), t, (plain_svg, t).
    do 4 (split; [vm_compute; reflexivity |]).
    intros f. exists plain_svg. vm_compute. reflexivity. }
  assert (Hok : font_compile (font s) = Ok tt) by (vm_compute; reflexivity).
  destruct (valid_requests_are_all_inserted font_1000 "out.ttf" batch
              {[".notdef" := ""]} [unicode_subtable; symbol_subtable] 1000%float)
    as (Hattempted & Hpresent & Hres & Hsaved).
  - reflexivity.
  - reflexivity.
  - reflexivity.
  - discriminate.
  - vm_compute. reflexivity.
  - intros r Hin. apply list_elem_of_In in Hin.
    destruct Hin as [<- | [<- | [<- | []]]];
      [right; exact Hcup | left; reflexivity | right; exact Hplain].
  - split; [exact Hattempted |].
    split; [apply Hpresent; [| exact Hcup]; apply list_elem_of_In; left; reflexivity |].
    split; [apply Hpresent; [| exact Hplain]; apply list_elem_of_In;
            right; right; left; reflexivity |].
    split; [etrans; [exact Hres | exact Hok] | exact (Hsaved Hok)].
Defined.

(** X23, at the sample font without its outline table and a batch whose
    first request has no file: the sample request stops the run. *)
Lemma new_outline_table_cannot_be_written_cup :
  let batch := [request "nope.svg" "x" "41" 600]
               ++ cup_request :: [request "plain.svg" "y" "42" 600] in
  let s := fst (add_svg_glyphs_to_font font_without_outlines "out.ttf" batch) in
  snd (add_svg_glyphs_to_font font_without_outlines "out.ttf" batch)
  = Raise (AttributeError "glyphOrder")
  /\ saved s = []
  /\ glyphOrder (font s) = [".notdef"]
  /\ exists glyph, glyf (font s) = Some {["cup" := glyph]}.
Proof.
  apply (new_outline_table_cannot_be_written font_without_outlines "out.ttf"
           [request "nope.svg" "x" "41" 600] cup_request
           [request "plain.svg" "y" "42" 600]
           [unicode_subtable; symbol_subtable] 1000%float).
  - reflexivity.
  - reflexivity.
  - discriminate.
  - vm_compute. reflexivity.
  - intros x Hx. apply list_elem_of_singleton in Hx. subst x. reflexivity.
  - exact cup_request_is_valid.
Defined.

(** The sample compilation accepts only a font whose glyphs all have
    their outline and their metrics. *)
Lemma plain_compile_complete (f : Font) : font_compile f = Ok tt -> complete f.
Proof.
  intros Hok. change (plain_compile f = Ok tt) in Hok. unfold plain_compile in Hok.
  destruct (first_missing f) as [missing |] eqn:Hfind; [done |].
  unfold first_missing in Hfind. intros name Hname.
  apply list_elem_of_In in Hname.
  pose proof (find_none _ _ Hfind name Hname) as Hboth. cbn beta in Hboth.
  apply negb_false_iff, andb_prop in Hboth as [Hg Hh].
  split; by eapply bool_decide_eq_true_1.
Qed.

(** X24, at the sample font without its metrics table and the sample
    request: the save raises for the glyph [.notdef], as the library
    does. *)
Lemma new_metrics_table_cannot_be_saved_cup :
  let s := fst (add_svg_glyphs_to_font font_without_metrics "out.ttf" [cup_request]) in
  ((exists e, snd (add_svg_glyphs_to_font font_without_metrics "out.ttf" [cup_request])
              = Raise e)
   /\ saved s = [])
  /\ snd (add_svg_glyphs_to_font font_without_metrics "out.ttf" [cup_request])
     = Raise (KeyError ".notdef").
Proof.
  split; [| vm_compute; reflexivity].
  apply (new_metrics_table_cannot_be_saved font_without_metrics "out.ttf" [cup_request]
           ".notdef").
  - exact plain_compile_complete.
  - reflexivity.
  - apply list_elem_of_singleton. reflexivity.
  - simpl. intros Hin. apply list_elem_of_singleton in Hin. discriminate.
Defined.

(** X20, at a viewBox of width -100, read by the environment of signed
    numbers: the scale is -7. *)
Lemma negative_extent_mirrors_left :
  let t := {| xx := (-7)%float; xy := 0; yx := 0; yy := 7%float;
              dx := (-2450)%float; dy := (-50)%float |} in
  calculate_transform (H := signed_collaborators) "<svg viewBox='0 0 -100 100'>"
    1000 600 (Py.Int 0) = Ok t
  /\ (xx t <? 0)%float = true /\ (0 <? yy t)%float = true.
Proof.
  intros t.
  assert (Hcalc : calculate_transform (H := signed_collaborators)
                    "<svg viewBox='0 0 -100 100'>" 1000 600 (Py.Int 0) = Ok t)
    by (vm_compute; reflexivity).
  split; [exact Hcalc |].
  apply (negative_extent_mirrors (H := signed_collaborators)
           "<svg viewBox='0 0 -100 100'>" 1000 600 (Py.Int 0)
           0 0 (-100) 100 t).
  - vm_compute. reflexivity.
  - reflexivity.
  - reflexivity.
  - left. reflexivity.
  - lia.
  - exact Hcalc.
Defined.

(** X21, at an [svg] tag with an encoding attribute. *)
Lemma encoding_attribute_is_removed_utf8 :
  clean_svg_content
    ("<svg " +:+ "encoding=" +:+ String dquote ("UTF-8" +:+ String dquote "/>"))
  = "<svg " +:+ clean_svg_content "/>"
  /\ "<svg " +:+ clean_svg_content "/>" = "<svg />".
Proof.
  split; [| vm_compute; reflexivity].
  apply (encoding_attribute_is_removed "<svg " "UTF-8" "/>").
  - reflexivity.
  - discriminate.
  - reflexivity.
Defined.

(** X22, at two texts with the viewBox of the sample and different
    paths. *)
Lemma transform_reads_the_viewbox_only_paths :
  calculate_transform boxed_svg 1000 600 (Py.Int 0)
  = calculate_transform bad_path_svg 1000 600 (Py.Int 0).
Proof.
  apply (transform_reads_the_viewbox_only boxed_svg bad_path_svg 1000 600 (Py.Int 0)).
  left. exists "0 0 100 100". split.
  - apply (search_finds_first_attribute boxed_svg
             {| Re.group1 := "0 0 100 100"; Re.span := 21 |}).
    vm_compute. reflexivity.
  - apply (search_finds_first_attribute bad_path_svg
             {| Re.group1 := "0 0 100 100"; Re.span := 21 |}).
    vm_compute. reflexivity.
Defined.

End Examples.
